(** * Sentence extraction, content filtering and the language gate of
      [src/app/api/random-sentences/route.ts]

    The route exists in three revisions in the source file:
    - [Ocr]    (lines 1-299):   OCR-cleaning extractor, plain 15% filter,
                                 whole-text (lenient) language gate;
    - [Markup] (lines 300-668): OCR-cleaning extractor with the markup
                                 deny-list and patterns, noise-line filter,
                                 sampled (strict) language gate;
    - [Early]  (lines 669-835): the first extractor, plain 15% filter, no gate.

    A JavaScript string is a sequence of UTF-16 code units; it is modelled as
    a list of code units, so that [length] is the [.length] of the source. *)

From Stdlib Require Import NArith Arith List Bool Lia Ascii String DecimalString Permutation.
Import ListNotations.
Local Open Scope N_scope.
Local Open Scope list_scope.

(** ** Code units and character classes *)

Definition char := N.
Definition str := list char.

(** A string literal of the source, as code units. *)
Definition js (s : string) : str := map N_of_ascii (list_ascii_of_string s).

Definition inRange (lo hi c : char) : bool := (lo <=? c) && (c <=? hi).

(** [[A-Z]], [[a-z]], [[a-zA-Z]], [\d], [\w] *)
Definition isUpper (c : char) : bool := inRange 65 90 c.
Definition isLower (c : char) : bool := inRange 97 122 c.
Definition isLetter (c : char) : bool := isLower c || isUpper c.
Definition isDigit (c : char) : bool := inRange 48 57 c.
Definition isWord (c : char) : bool := isLetter c || isDigit c || (c =? 95).

(** [\s], which is also the set removed by [trim]: TAB, LF, VT, FF, CR, SP,
    NBSP, U+1680, U+2000..U+200A, LS, PS, U+202F, U+205F, U+3000, U+FEFF. *)
Definition isWhiteSpace (c : char) : bool :=
  inRange 9 13 c || (c =? 32) || (c =? 160) || (c =? 5760)
  || inRange 8192 8202 c || (c =? 8232) || (c =? 8233) || (c =? 8239)
  || (c =? 8287) || (c =? 12288) || (c =? 65279).

(** [[.!?]] *)
Definition isTerminal (c : char) : bool := (c =? 46) || (c =? 33) || (c =? 63).

Definition isNewline (c : char) : bool := c =? 10.
Definition space : char := 32.

(** ** String primitives of the runtime *)

Fixpoint dropWhile (p : char -> bool) (s : str) : str :=
  match s with
  | [] => []
  | c :: s' => if p c then dropWhile p s' else s
  end.

Fixpoint takeWhile (p : char -> bool) (s : str) : str :=
  match s with
  | [] => []
  | c :: s' => if p c then c :: takeWhile p s' else []
  end.

(** [s.trim()] *)
Definition trimStart (s : str) : str := dropWhile isWhiteSpace s.
Definition trimEnd (s : str) : str := rev (dropWhile isWhiteSpace (rev s)).
Definition trim (s : str) : str := trimEnd (trimStart s).

(** [s.replace(/C+/g, by)] for a character class [C]: every maximal run of
    class members is replaced by [by]; [inRun] tells that the unit before
    belongs to a run already replaced. *)
Fixpoint replaceRunsFrom (p : char -> bool) (by_ : str) (inRun : bool) (s : str) : str :=
  match s with
  | [] => []
  | c :: s' =>
      if p c then
        (if inRun then [] else by_) ++ replaceRunsFrom p by_ true s'
      else c :: replaceRunsFrom p by_ false s'
  end.

Definition replaceRuns (p : char -> bool) (by_ : str) (s : str) : str :=
  replaceRunsFrom p by_ false s.

(** [s.replace(/C/g, " ")] for a character class [C]. *)
Definition replaceEach (p : char -> bool) (by_ : char) (s : str) : str :=
  map (fun c => if p c then by_ else c) s.

(** [s.startsWith]-style prefix test and [s.includes(sub)]. *)
Fixpoint startsWith (sub s : str) : bool :=
  match sub, s with
  | [], _ => true
  | _ :: _, [] => false
  | a :: sub', c :: s' => if a =? c then startsWith sub' s' else false
  end.

Fixpoint includes (s sub : str) : bool :=
  if startsWith sub s then true
  else
    match s with
    | [] => false
    | _ :: s' => includes s' sub
    end.

(** [s.split(sep)] for a one-unit separator: never the empty array. *)
Definition consHead (c : char) (segs : list str) : list str :=
  match segs with
  | [] => [[c]]
  | seg :: segs' => (c :: seg) :: segs'
  end.

Fixpoint splitOn (sep : char) (s : str) : list str :=
  match s with
  | [] => [[]]
  | c :: s' => if c =? sep then [] :: splitOn sep s' else consHead c (splitOn sep s')
  end.

(** [lines.join(sep)] *)
Fixpoint join (sep : str) (ls : list str) : str :=
  match ls with
  | [] => []
  | l :: ls' =>
      match ls' with
      | [] => l
      | _ :: _ => l ++ sep ++ join sep ls'
      end
  end.

(** [(s.match(/[a-zA-Z]/g) || []).length] *)
Definition countLetters (s : str) : nat := List.length (filter isLetter s).

(** [/[a-zA-Z]{3,}/.test(s)] *)
Fixpoint hasLetterRun (s : str) : bool :=
  match s with
  | a :: ((b :: c :: _) as s') =>
      (isLetter a && isLetter b && isLetter c) || hasLetterRun s'
  | _ => false
  end.

(** [s.toLowerCase()].  On ASCII the mapping is fixed: [A-Z] go to [a-z] and
    every other unit below 128 is unchanged.  What a unit from 128 on becomes
    is read from the Unicode tables of the runtime, which are not part of the
    repository: [unicodeLower before c after] is the lower-casing of the
    non-ASCII unit [c] standing between [before] and [after] (zero, one or
    several units; the context covers surrogate pairs and the final-sigma
    rule).  No unit below 128 depends on its context. *)
Definition asciiLower (c : char) : char := if isUpper c then c + 32 else c.

Fixpoint toLowerCaseFrom (unicodeLower : str -> char -> str -> str)
    (before : str) (s : str) : str :=
  match s with
  | [] => []
  | c :: s' =>
      (if c <? 128 then [asciiLower c] else unicodeLower before c s')
        ++ toLowerCaseFrom unicodeLower (before ++ [c]) s'
  end.

Definition toLowerCase (unicodeLower : str -> char -> str -> str) (s : str) : str :=
  toLowerCaseFrom unicodeLower [] s.

(** ** Regular expressions of the source

    The patterns of the route use literals, classes, alternation, grouping,
    the quantifiers [*], [+], [?], [{m,n}], and the anchors [^] and [$]
    (never the [m] flag).  [test] and a truthy [match] ask whether some match
    exists, which for these operators does not depend on greediness. *)
Inductive regex : Type :=
| Eps : regex
| Cls : (char -> bool) -> regex
| Cat : regex -> regex -> regex
| Alt : regex -> regex -> regex
| Star : regex -> regex
| Bol : regex
| Eol : regex.

(** [exec r b s k]: [r] matches a prefix of [s], where [b] tells that [s]
    starts at the beginning of the input, and the continuation [k] accepts
    what is left.  An iteration of a star that consumes nothing is refused,
    as in ECMAScript. *)
Fixpoint exec (r : regex) (b : bool) (s : str) (k : bool -> str -> bool) {struct r} : bool :=
  match r with
  | Eps => k b s
  | Cls p =>
      match s with
      | [] => false
      | c :: s' => if p c then k false s' else false
      end
  | Cat r1 r2 => exec r1 b s (fun b' s' => exec r2 b' s' k)
  | Alt r1 r2 => if exec r1 b s k then true else exec r2 b s k
  | Star r1 =>
      (fix loop (n : nat) (b0 : bool) (s0 : str) {struct n} : bool :=
         match n with
         | O => k b0 s0
         | S n' =>
             if exec r1 b0 s0
                  (fun b' s' =>
                     if Nat.ltb (List.length s') (List.length s0) then loop n' b' s'
                     else false)
             then true
             else k b0 s0
         end) (List.length s) b s
  | Bol => if b then k b s else false
  | Eol =>
      match s with
      | [] => k b s
      | _ :: _ => false
      end
  end.

Fixpoint searchFrom (r : regex) (b : bool) (s : str) : bool :=
  if exec r b s (fun _ _ => true) then true
  else
    match s with
    | [] => false
    | _ :: s' => searchFrom r false s'
    end.

(** [re.test(s)], and the truth value of [s.match(re)]. *)
Definition test (r : regex) (s : str) : bool := searchFrom r true s.

(** Pattern syntax. *)
Definition Plus (r : regex) : regex := Cat r (Star r).
Definition Opt (r : regex) : regex := Alt r Eps.
Definition Seq (rs : list regex) : regex := fold_right Cat Eps rs.
Definition Alts (rs : list regex) : regex :=
  match rs with
  | [] => Cls (fun _ => false)
  | r :: rs' => fold_left Alt rs' r
  end.
Fixpoint Times (n : nat) (r : regex) : regex :=
  match n with
  | O => Eps
  | S n' => Cat r (Times n' r)
  end.
Fixpoint UpTo (n : nat) (r : regex) : regex :=
  match n with
  | O => Eps
  | S n' => Opt (Cat r (UpTo n' r))
  end.
(** [r{lo,hi}] *)
Definition Between (lo hi : nat) (r : regex) : regex :=
  Cat (Times lo r) (UpTo (hi - lo) r).

(** A literal, and a literal under the [i] flag: without the [u] flag a
    pattern letter matches exactly its two ASCII cases. *)
Definition Lit (s : string) : regex := Seq (map (fun p => Cls (N.eqb p)) (js s)).
Definition LitI (s : string) : regex :=
  Seq (map (fun p => Cls (fun c => asciiLower c =? asciiLower p)) (js s)).
Definition OneOf (s : string) : regex := Cls (fun c => existsb (N.eqb c) (js s)).
Definition Any : regex := Cls (fun _ => true).
(** [.] : any unit but a line terminator *)
Definition Dot : regex :=
  Cls (fun c => negb ((c =? 10) || (c =? 13) || (c =? 8232) || (c =? 8233))).
Definition Ws : regex := Cls isWhiteSpace.
Definition Digit : regex := Cls isDigit.
Definition Hex : regex := Cls (fun c => isDigit c || inRange 97 102 c || inRange 65 70 c).

(** ** The sentence split  [.split(/(?<=[.!?])\s+(?=[A-Z])/)]

    [before] holds the units on the left of the current position, nearest
    first; the lookbehind reads it, whatever was split off already. *)
Definition lookbehindTerminal (before : str) : bool :=
  match before with
  | p :: _ => isTerminal p
  | [] => false
  end.

Definition lookaheadUpper (after : str) : bool :=
  match after with
  | u :: _ => isUpper u
  | [] => false
  end.

(** One attempt of the separator at a position: the whitespace it consumes
    and what follows.  [\s+] is greedy and a shorter run would be followed by
    whitespace, so only the whole run can be followed by [[A-Z]]. *)
Definition separatorAt (before after : str) : option (str * str) :=
  if lookbehindTerminal before then
    match takeWhile isWhiteSpace after with
    | [] => None
    | (_ :: _) as ws =>
        let rest := dropWhile isWhiteSpace after in
        if lookaheadUpper rest then Some (ws, rest) else None
    end
  else None.

(** The split loop of the runtime: at each position try the separator; on a
    match close the current segment and go on after the match, otherwise
    move one unit to the right.  The last segment is always emitted.  Each
    step consumes a unit, so [fuel = length s] always suffices. *)
Fixpoint splitLoop (fuel : nat) (before : str) (s : str) : list str :=
  match fuel with
  | O => [s]
  | S fuel' =>
      match s with
      | [] => [[]]
      | c :: s' =>
          match separatorAt before s with
          | Some (ws, rest) => [] :: splitLoop fuel' (rev ws ++ before) rest
          | None => consHead c (splitLoop fuel' (c :: before) s')
          end
      end
  end.

Definition splitSentences (s : str) : list str := splitLoop (List.length s) [] s.

(** ** Arithmetic of the thresholds

    The source computes [Math.floor(n * 0.15)] (and [0.2], [0.3]) and
    compares quotients of counts with [0.3] and [0.6] on IEEE 754 doubles.
    The extractors and gates below use the exact forms [floorPercent],
    [ratioGt] and [ratioLt]; the double computations are modelled next to
    them, and the two are proved equal for every length below 2^32 (lemmas
    [floorPercent_double], [ratioGt_double], [ratioLt_double]). *)
Definition floorPercent (pct : N) (n : nat) : nat := N.to_nat ((pct * N.of_nat n) / 100).

(** [a / b > num/den] and [a / b < num/den] for counts [a], [b]. *)
Definition ratioGt (a b : nat) (num den : N) : bool :=
  match b with
  | O => false      (* 0/0 is NaN, and no comparison with NaN holds *)
  | S _ => num * N.of_nat b <? den * N.of_nat a
  end.

Definition ratioLt (a b : nat) (num den : N) : bool :=
  match b with
  | O => false
  | S _ => den * N.of_nat a <? num * N.of_nat b
  end.

(** A non-negative finite double, as a significand and an exponent:
    [(m, e)] stands for [m / 2^e]. *)
Definition double : Type := (N * N)%type.

(** The significand, at exponent [e], of the double nearest to the decimal
    constant [num/den] (no constant of the source is a tie). *)
Definition nearestDouble (num den e : N) : N := (2 * num * 2 ^ e + den) / (2 * den).

Definition d0_15 : double := (nearestDouble 15 100 55, 55).
Definition d0_2 : double := (nearestDouble 20 100 55, 55).
Definition d0_3 : double := (nearestDouble 30 100 54, 54).
Definition d0_6 : double := (nearestDouble 60 100 53, 53).

(** Rounding of an integer to 53 significant bits, to nearest, ties to
    even. *)
Definition roundNearestEven (p : N) : N :=
  let sh := N.size p - 53 in
  let q := p / 2 ^ sh in
  let r := p mod 2 ^ sh in
  if 2 * r <? 2 ^ sh then q * 2 ^ sh
  else if 2 ^ sh <? 2 * r then (q + 1) * 2 ^ sh
  else if N.even q then q * 2 ^ sh else (q + 1) * 2 ^ sh.

(** [n * x] for an integer [n] below 2^53 and a double [x]; [Math.floor]. *)
Definition doubleMul (n : N) (x : double) : double :=
  (roundNearestEven (n * fst x), snd x).

Definition doubleFloor (x : double) : N := fst x / 2 ^ snd x.

(** [a / b] for integers [0 <= a <= b], [0 < b]: the exponent that puts the
    quotient in [2^52, 2^53), and the quotient rounded to nearest, ties to
    even. *)
Definition quotientExponent (a b : N) : N :=
  let e0 := 52 + N.size b - N.size a in
  if a * 2 ^ e0 <? 4503599627370496 * b then e0 + 1 else e0.

Definition doubleDiv (a b : N) : double :=
  if a =? 0 then (0, 0)
  else
    let e := quotientExponent a b in
    let q := (a * 2 ^ e) / b in
    let r := (a * 2 ^ e) mod b in
    (if 2 * r <? b then q
     else if b <? 2 * r then q + 1
     else if N.even q then q else q + 1, e).

(** [x < y] *)
Definition doubleLt (x y : double) : bool :=
  fst x * 2 ^ snd y <? fst y * 2 ^ snd x.

(** [s.slice(a, b)] for [0 <= a]: empty when [b <= a], cut at the end. *)
Definition slice (a b : nat) (s : str) : str := firstn (b - a) (skipn a s).

(** The front-matter indicators declared at the head of [filterMainContent];
    the same list in the three revisions. *)
Definition skipPatterns : list regex :=
  [ LitI "GNU GENERAL PUBLIC LICENSE";
    LitI "Project Gutenberg";
    Seq [LitI "END OF"; Star Dot; LitI "LICENSE"];
    Seq [LitI "START OF"; Star Dot; LitI "PROJECT"];
    LitI "Table of Contents";
    LitI "TERMS AND CONDITIONS";
    LitI "Copyright";
    LitI "All rights reserved";
    LitI "Permission is granted";
    LitI "This eBook is for the use" ].

(** The cleaning chain of the two later extractors:
    [.replace(/\n+/g, " ").replace(/\s+/g, " ")
     .replace(/[^\w\s.!?]/g, " ").replace(/\s+/g, " ").trim()] *)
Definition isSpecial (c : char) : bool := negb (isWord c || isWhiteSpace c || isTerminal c).

Definition ocrClean (mainContent : str) : str :=
  trim
    (replaceRuns isWhiteSpace [space]
       (replaceEach isSpecial space
          (replaceRuns isWhiteSpace [space]
             (replaceRuns isNewline [space] mainContent)))).

(** The cleaning chain of the language gates:
    [.replace(/\d+/g, '').replace(/[^\w\s]/g, ' ').replace(/\s+/g, ' ').trim()] *)
Definition gateClean (t : str) : str :=
  trim
    (replaceRuns isWhiteSpace [space]
       (replaceEach (fun c => negb (isWord c || isWhiteSpace c)) space
          (replaceRuns isDigit [] t))).

(** ** Revision 1 (lines 1-299) *)
Module Ocr.

(** [text.split("\n")] *)
Definition lines (text : str) : list str := splitOn 10 text.

(** [Math.floor(lines.length * 0.15)] *)
Definition skipLines (text : str) : nat := floorPercent 15 (List.length (lines text)).

(** [lines.slice(skipLines)] *)
Definition contentLines (text : str) : list str := skipn (skipLines text) (lines text).

(** [filterMainContent], lines 83-107.  [skipPatterns] is a local constant
    that the body declares first; it is an argument here, so that what the
    body does with it can be stated. *)
Definition filterMainContentWith (skipPatterns : list regex) (text : str) : str :=
  join [10] (contentLines text).

Definition filterMainContent : str -> str := filterMainContentWith skipPatterns.

Definition excludeKeywords : list str :=
  map js
    [ "GNU"; "GPL"; "license"; "copyright"; "gutenberg"; "warranty";
      "redistribution"; "permission"; "terms and conditions";
      "free software foundation"; "all rights reserved"; "page"; "chapter";
      "table of contents"; "index" ]%string.

Definition cleanedText (mainContent : str) : str := ocrClean mainContent.

Section WithUnicode.
Variable unicodeLower : str -> char -> str -> str.

Definition hasExcludedKeyword (s : str) : bool :=
  let lowerSentence := toLowerCase unicodeLower s in
  existsb
    (fun keyword => includes lowerSentence (toLowerCase unicodeLower keyword))
    excludeKeywords.

(** The callback of [.filter], lines 53-72. *)
Definition accept (s : str) : bool :=
  if (List.length s <? 15)%nat || (600 <? List.length s)%nat then false
  else if hasExcludedKeyword s then false
  else
    let hasLetters := hasLetterRun s in
    let letterCount := countLetters s in
    let totalCount := List.length s in
    hasLetters && ratioGt letterCount totalCount 3 10.

(** [extractSentences], lines 17-75. *)
Definition extractSentences (text : str) : list str :=
  let mainContent := filterMainContent text in
  filter accept (map trim (splitSentences (cleanedText mainContent))).
End WithUnicode.

(** The language check inside [GET], lines 216-240, which the
    specification calls [isLikelyEnglish]: [true] when the book goes on to
    extraction, [false] when the loop [continue]s. *)
Module GET.
Definition cleanedText (fullText : str) : str := gateClean fullText.

Definition isLikelyEnglish (fullText : str) : bool :=
  let englishCharCount := countLetters (cleanedText fullText) in
  let totalCharCount := List.length (cleanedText fullText) in
  if (100 <? totalCharCount)%nat then
    if ratioLt englishCharCount totalCharCount 3 10 then false else true
  else true.
End GET.

End Ocr.

(** ** Revision 2 (lines 300-668), markup-aware *)
Module Markup.

(** [[a-zA-Z0-9_\-]], which is also [[\w\-]] *)
Definition Ident : regex := Cls (fun c => isWord c || (c =? 45)).

(** The patterns of the line filter, lines 422-434, in source order. *)
Definition cssSelector : regex :=
  Seq [ Bol; Alt (Lit ".") (Lit "#"); Plus Ident;
        Alts [ Seq [Plus Ws; Lit "{"];
               Seq [Plus Ws; Plus Ident; Star Ws; Lit "{"];
               Eol ] ].
Definition cssClassDefinition : regex :=
  Seq [ Bol; Lit "."; Plus (Cat (Plus Ident) (Star Ws));
        Alts [Lit "{"; Lit ":"; Eol] ].
Definition cssProperty : regex :=
  Seq [ Bol;
        Alts (map LitI
                [ "display"; "margin"; "padding"; "border"; "background";
                  "color"; "font"; "width"; "height"; "position"; "flex";
                  "grid" ]%string) ].
Definition htmlCssMixed : regex :=
  Seq [ Bol;
        Alts (map LitI
                ["button"; "label"; "div"; "span"; "style"; "class"; "id"]%string);
        Star Ws;
        Alts [Lit "."; Lit "#"; Lit "{"; Lit ":"] ].
Definition notGt : regex := Cls (fun c => negb (c =? 62)).
Definition htmlTag : regex :=
  Alt (Seq [Bol; Lit "<"; Plus notGt; Lit ">"])
      (Seq [Lit "</"; Plus notGt; Lit ">"; Eol]).
Definition braceBlockLine : regex := Seq [Bol; Lit "{"; Star Any; Lit "}"; Eol].
Definition webComponent : regex :=
  Seq [Bol; Alts (map LitI ["Shady DOM"; "Shadow DOM"; "Web Component"]%string)].
Definition styleReference : regex :=
  Seq [ Bol; Alts (map LitI ["style"; "styles"]%string); Plus Ws;
        Alts (map LitI ["for"; "in"; "of"]%string); Plus Ws ].
Definition jsCode : regex :=
  Seq [ Bol;
        Alts (map Lit
                [ "true"; "false"; "null"; "undefined"; "var"; "let"; "const";
                  "function" ]%string);
        Star Ws; OneOf "{(=;" ].
Definition cssValue : regex :=
  Alts [ Seq [Lit ":"; Star Ws; Plus Digit; Lit "px"];
         Seq [Lit ":"; Star Ws; Lit "#"; Between 3 6 Hex];
         Seq [Lit ":"; Star Ws; Lit "rgb"; Opt (Lit "a"); Lit "("] ].
Definition onlyBrackets : regex := Seq [Bol; Plus (OneOf "{}[]();"); Eol].
Definition numberedBrace : regex := Seq [Bol; Plus Digit; Star Ws; Lit "{"].

(** The callback of [.filter] on the lines, lines 418-437. *)
Definition keepLine (line : str) : bool :=
  let trimmed := trim line in
  if test cssSelector trimmed then false
  else if test cssClassDefinition trimmed then false
  else if test cssProperty trimmed then false
  else if test htmlCssMixed trimmed then false
  else if test htmlTag trimmed then false
  else if test braceBlockLine trimmed then false
  else if test webComponent trimmed then false
  else if test styleReference trimmed then false
  else if includes trimmed (js "webkit") || includes trimmed (js "mozilla")
          || includes trimmed (js "moz-") then false
  else if test jsCode trimmed then false
  else if test cssValue trimmed then false
  else if test onlyBrackets trimmed then false
  else if test numberedBrace trimmed then false
  else true.

(** [text.split("\n").filter(...)]: [lines] is what the noise filter keeps,
    and the 15% are counted on it. *)
Definition lines (text : str) : list str := filter keepLine (splitOn 10 text).

(** [Math.floor(lines.length * 0.15)] *)
Definition skipLines (text : str) : nat := floorPercent 15 (List.length (lines text)).

(** [lines.slice(skipLines)] *)
Definition contentLines (text : str) : list str := skipn (skipLines text) (lines text).

(** [filterMainContent], lines 401-445, with the unused local constant
    [skipPatterns] as an argument. *)
Definition filterMainContentWith (skipPatterns : list regex) (text : str) : str :=
  join [10] (contentLines text).

Definition filterMainContent : str -> str := filterMainContentWith skipPatterns.

Definition excludeKeywords : list str :=
  map js
    [ "GNU"; "GPL"; "license"; "copyright"; "gutenberg"; "warranty";
      "redistribution"; "permission"; "terms and conditions";
      "free software foundation"; "all rights reserved"; "page"; "chapter";
      "table of contents"; "index"; "css"; "html"; "style"; "display";
      "margin"; "padding"; "border"; "webkit"; "mozilla"; "shadow dom";
      "shady dom"; "web component" ]%string.

Definition cleanedText (mainContent : str) : str := ocrClean mainContent.

(** The patterns of the sentence filter, lines 375-378. *)
Definition selectorChain : regex :=
  Seq [ Lit ".";
        Alts (map LitI
                [ "media"; "button"; "label"; "web"; "menu"; "nav"; "header";
                  "footer"; "container"; "wrapper" ]%string);
        Plus Ws;
        Alts (map LitI
                ["button"; "label"; "display"; "none"; "flex"; "grid"; "style"]%string) ].
Definition styleToken : regex :=
  Alts [ Seq [Plus Digit; Lit "px"];
         Seq [Plus Digit; Lit "em"];
         Seq [Plus Digit; Lit "rem"];
         Seq [Lit "rgb"; Opt (Lit "a"); Lit "("];
         Seq [Lit "#"; Between 3 6 Hex] ].
Definition braceBlock : regex := Seq [Lit "{"; Star Any; Lit "}"].
Definition displayValue : regex :=
  Seq [ LitI "display"; Plus Ws;
        Alts (map LitI ["none"; "block"; "flex"; "grid"; "inline"]%string) ].

Section WithUnicode.
Variable unicodeLower : str -> char -> str -> str.

Definition hasExcludedKeyword (s : str) : bool :=
  let lowerSentence := toLowerCase unicodeLower s in
  existsb
    (fun keyword => includes lowerSentence (toLowerCase unicodeLower keyword))
    excludeKeywords.

(** The callback of [.filter] on the sentences, lines 364-390. *)
Definition accept (s : str) : bool :=
  if (List.length s <? 15)%nat || (600 <? List.length s)%nat then false
  else if hasExcludedKeyword s then false
  else if test selectorChain s then false
  else if test styleToken s then false
  else if test braceBlock s then false
  else if test displayValue s then false
  else if includes s (js ".") && Nat.ltb 5 (List.length (splitOn 46 s)) then false
  else
    let hasLetters := hasLetterRun s in
    let letterCount := countLetters s in
    let totalCount := List.length s in
    hasLetters && ratioGt letterCount totalCount 3 10.

(** [extractSentences], lines 316-393. *)
Definition extractSentences (text : str) : list str :=
  let mainContent := filterMainContent text in
  filter accept (map trim (splitSentences (cleanedText mainContent))).
End WithUnicode.

(** The language check inside [GET], lines 565-609, which the
    specification calls [isLikelyEnglish]: [true] when the book goes on to
    extraction, [false] when the loop [continue]s. *)
Module GET.
Definition sampleText (fullText : str) : str :=
  let sampleStart := floorPercent 20 (List.length fullText) in
  let sampleEnd := floorPercent 30 (List.length fullText) in
  slice sampleStart sampleEnd fullText.

Definition cleanedText (fullText : str) : str := gateClean (sampleText fullText).

Definition commonEnglishWords : list str :=
  map js
    [ "the"; "and"; "is"; "in"; "to"; "of"; "a"; "that"; "it"; "was"; "for";
      "on"; "with"; "as"; "be" ]%string.

Section WithUnicode.
Variable unicodeLower : str -> char -> str -> str.

Definition englishWordCount (fullText : str) : nat :=
  let lowerSample := toLowerCase unicodeLower (cleanedText fullText) in
  List.length
    (filter (fun word => includes lowerSample (js " " ++ word ++ js " "))
       commonEnglishWords).

Definition isLikelyEnglish (fullText : str) : bool :=
  let englishCharCount := countLetters (cleanedText fullText) in
  let totalCharCount := List.length (cleanedText fullText) in
  if (100 <? totalCharCount)%nat then
    if ratioLt englishCharCount totalCharCount 6 10 then false
    else if (englishWordCount fullText <? 5)%nat then false
    else true
  else true.
End WithUnicode.
End GET.

End Markup.

(** ** Revision 3 (lines 669-835), the first extractor *)
Module Early.

(** [text.split("\n")] *)
Definition lines (text : str) : list str := splitOn 10 text.

(** [Math.floor(lines.length * 0.15)] *)
Definition skipLines (text : str) : nat := floorPercent 15 (List.length (lines text)).

(** [lines.slice(skipLines)] *)
Definition contentLines (text : str) : list str := skipn (skipLines text) (lines text).

(** [filterMainContent], lines 733-757, with the unused local constant
    [skipPatterns] as an argument. *)
Definition filterMainContentWith (skipPatterns : list regex) (text : str) : str :=
  join [10] (contentLines text).

Definition filterMainContent : str -> str := filterMainContentWith skipPatterns.

Definition excludeKeywords : list str :=
  map js
    [ "GNU"; "GPL"; "license"; "copyright"; "gutenberg"; "warranty";
      "redistribution"; "permission"; "terms and conditions";
      "free software foundation"; "all rights reserved" ]%string.

(** [.replace(/\n+/g, " ").replace(/\s+/g, " ")], no stripping and no trim. *)
Definition collapsed (mainContent : str) : str :=
  replaceRuns isWhiteSpace [space] (replaceRuns isNewline [space] mainContent).

Section WithUnicode.
Variable unicodeLower : str -> char -> str -> str.

Definition hasExcludedKeyword (s : str) : bool :=
  let lowerSentence := toLowerCase unicodeLower s in
  existsb
    (fun keyword => includes lowerSentence (toLowerCase unicodeLower keyword))
    excludeKeywords.

(** The callback of [.filter], lines 708-722. *)
Definition accept (s : str) : bool :=
  if (List.length s <? 20)%nat || (500 <? List.length s)%nat then false
  else if hasExcludedKeyword s then false
  else
    let hasLetters := hasLetterRun s in
    hasLetters.

(** [extractSentences], lines 683-725. *)
Definition extractSentences (text : str) : list str :=
  let mainContent := filterMainContent text in
  filter accept (map trim (splitSentences (collapsed mainContent))).
End WithUnicode.

End Early.

(** * Vocabulary of the specification *)

(** [sub] occurs in [s] up to the case of ASCII letters: at some position
    the units of [s] equal those of [sub] once [A-Z] are folded to [a-z]. *)
Fixpoint startsWithCI (sub s : str) : bool :=
  match sub, s with
  | [], _ => true
  | _ :: _, [] => false
  | a :: sub', c :: s' =>
      if asciiLower a =? asciiLower c then startsWithCI sub' s' else false
  end.

Fixpoint includesCI (s sub : str) : bool :=
  if startsWithCI sub s then true
  else
    match s with
    | [] => false
    | _ :: s' => includesCI s' sub
    end.

Definition isAscii (c : char) : bool := c <? 128.

(** The letter-density ratio [letters / length] exceeds [num / den]. *)
Definition densityAbove (num den : N) (s : str) : Prop :=
  num * N.of_nat (List.length s) < den * N.of_nat (countLetters s).

(** A string with no whitespace at either end, i.e. one that [trim] leaves
    as it is. *)
Definition startsWs (s : str) : bool :=
  match s with
  | c :: _ => isWhiteSpace c
  | [] => false
  end.

Definition endsWs (s : str) : bool := startsWs (rev s).

(** [l1] is [l2] with some elements dropped: the order is kept and nothing
    is added, repeated or changed. *)
Inductive Subseq {A : Type} : list A -> list A -> Prop :=
| Subseq_nil : Subseq [] []
| Subseq_drop (x : A) (l1 l2 : list A) : Subseq l1 l2 -> Subseq l1 (x :: l2)
| Subseq_keep (x : A) (l1 l2 : list A) : Subseq l1 l2 -> Subseq (x :: l1) (x :: l2).

(** [out] is [ls] without its first [floor (0.15 * length ls)] elements. *)
Definition dropsFifteenPercent (ls out : list str) : Prop :=
  exists dropped,
    ls = dropped ++ out
    /\ N.of_nat (List.length dropped) = (15 * N.of_nat (List.length ls)) / 100.

Definition noNewline (l : str) : bool := forallb (fun c => negb (c =? 10)) l.

(** Whitespace collapsed to single spaces: every whitespace unit is a space
    and the unit after it is not whitespace. *)
Fixpoint singleSpaced (s : str) : bool :=
  match s with
  | [] => true
  | c :: s' =>
      (if isWhiteSpace c then (c =? 32) && negb (startsWs s') else true)
      && singleSpaced s'
  end.

(** A normalized text: whitespace collapsed to single spaces, and trimmed. *)
Definition normalized (s : str) : bool :=
  singleSpaced s && negb (startsWs s) && negb (endsWs s).

(** No two spaces side by side. *)
Fixpoint noDoubleSpace (s : str) : bool :=
  match s with
  | a :: s' =>
      match s' with
      | b :: _ => negb ((a =? 32) && (b =? 32)) && noDoubleSpace s'
      | [] => true
      end
  | [] => true
  end.

(** The units an OCR-cleaned sentence is made of: [\w], the space, [.!?]. *)
Definition sentenceUnit (c : char) : bool := isWord c || (c =? 32) || isTerminal c.

(** Every segment but the last ends at a terminal unit; for the segment
    under construction the units on its left count. *)
Definition endsOk (before : str) (segs : list str) : Prop :=
  match segs with
  | [] => True
  | x :: r =>
      (r <> [] -> lookbehindTerminal (rev x ++ before) = true)
      /\ Forall (fun seg => lookbehindTerminal (rev seg) = true) (removelast r)
  end.

(** A sentence as the OCR-cleaning extractors return it: made of [\w], single
    spaces and [.!?] only, with no whitespace at either end. *)
Definition cleanSentence (s : str) : bool :=
  forallb sentenceUnit s && negb (startsWs s) && negb (endsWs s) && noDoubleSpace s.

(** The first segment is the beginning of the text and every other one is a
    piece of it. *)
Definition segmentsOf (s : str) (segs : list str) : Prop :=
  match segs with
  | [] => False
  | x :: r =>
      (exists post, s = x ++ post)
      /\ Forall (fun seg => exists pre post, s = pre ++ seg ++ post) r
  end.

(** * Further vocabulary *)

(** [s] is a contiguous piece of [t]. *)
Definition isPiece (s t : str) : Prop := exists pre post, t = pre ++ s ++ post.

(** The number of occurrences of a unit. *)
Definition countUnit (c : char) (s : str) : nat := List.length (filter (N.eqb c) s).

(** The units a gate's cleaned text is made of: letters, the underscore and
    the space. *)
Definition gateUnit (c : char) : bool := isLetter c || (c =? 95) || (c =? 32).

(** The number of full stops of a sentence. *)
Definition fullStops (s : str) : nat := countUnit 46 s.

(** * The route handler [GET] and its helpers

    What [GET] reads from outside is gathered in an environment: the answer
    of the search, the outcome of each text download, the values of
    [Math.random()] and the orders in which [sort] leaves the arrays it is
    given with a random comparison.  [console.log] calls are left out: they
    do not touch the response. *)

(** [a === b] on strings *)
Fixpoint strEqb (a b : str) : bool :=
  match a, b with
  | [], [] => true
  | x :: a', y :: b' => if x =? y then strEqb a' b' else false
  | _, _ => false
  end.

(** Decimal digits of a number, as a template literal prints it. *)
Definition showNumber (n : N) : str := js (NilZero.string_of_uint (N.to_uint n)).

(** [getRandomItems], lines 78-81: [sorted] is the order in which
    [[...array].sort(() => Math.random() - 0.5)] leaves the copy. *)
Definition getRandomItems {T : Type} (sorted : list T -> list T) (array : list T)
    (count : nat) : list T :=
  firstn count (sorted array).

Module BookResult.
Record t : Type := {
  key : str;
  title : str;
  author_name : option (list str);
  ia : option (list str);
  language : option (list str);
  first_sentence : option (list str)
}.
End BookResult.

Module SearchResponse.
Record t : Type := {
  docs : list BookResult.t;
  numFound : option nat;
  num_found : option nat
}.
End SearchResponse.

Module Sentence.
Record t : Type := { text : str; book : str; author : str; iaId : str }.
End Sentence.

Inductive Status : Type := success | failed | no_sentences.

Module BookDetail.
Record t : Type := {
  title : str;
  author : str;
  iaId : str;
  status : Status;
  sentencesFound : nat;
  textLength : nat;
  positionInBook : str
}.
End BookDetail.

Module SearchMetadata.
Record t : Type := {
  subject : str;
  totalBooksAvailable : nat;
  totalBooksFound : nat;
  booksWithInternetArchive : nat;
  booksSelected : nat;
  booksProcessed : nat;
  booksSuccessful : nat;
  booksFailed : nat;
  totalSentencesExtracted : nat;
  bookDetails : list BookDetail.t
}.
End SearchMetadata.

(** [NextResponse.json(...)]: the body with status 200, or an error body
    with its status.  The first revision sends no metadata. *)
Inductive Response : Type :=
| Json (sentences : list Sentence.t) (searchMetadata : option SearchMetadata.t)
| ErrorJson (error : str) (status : nat).

(** The outcome of downloading one text: [fetch] or [text()] threw, the
    response was not [ok], or the text arrived. *)
Inductive Fetched : Type :=
| FetchThrew
| FetchNotOk
| FetchText (fullText : str).

Module Env.
Record t : Type := {
  subjectRandom : double;
  searchData : option SearchResponse.t;
  shuffledBooks : list BookResult.t -> list BookResult.t;
  fetched : nat -> Fetched;
  pageRandom : nat -> double;
  shuffledSentences : nat -> list str -> list str
}.
End Env.

(** [book.ia && book.ia.length > 0], [book.language && ...length > 0] *)
Definition present (field : option (list str)) : bool :=
  match field with
  | Some (_ :: _) => true
  | _ => false
  end.

Definition entries (field : option (list str)) : list str :=
  match field with
  | Some l => l
  | None => []
  end.

(** [book.author_name?.[0] || "Unknown Author"] and [book.ia[0]] *)
Definition authorOf (book : BookResult.t) : str :=
  match BookResult.author_name book with
  | Some ((_ :: _) as name :: _) => name
  | _ => js "Unknown Author"
  end.

Definition iaIdOf (book : BookResult.t) : str :=
  match BookResult.ia book with
  | Some (id :: _) => id
  | _ => []     (* not reached: the loop runs on books that have an id *)
  end.

(** [Math.floor(Math.random() * n)] *)
Definition randomBelow (random : double) (n : nat) : nat :=
  N.to_nat (doubleFloor (doubleMul (N.of_nat n) random)).

(** [Math.ceil(bookSentences.length / sentencesPerPage)] with 20 sentences
    per page, and [Math.floor(Math.random() * estimatedPages) + 1]. *)
Definition estimatedPages (sentenceCount : nat) : nat := (sentenceCount + 19) / 20.

Definition randomPage (random : double) (sentenceCount : nat) : nat :=
  randomBelow random (estimatedPages sentenceCount) + 1.

(** The book filters of the three revisions, lines 124-152, 462-501 and
    772. *)
Section BookFilters.
Variable unicodeLower : str -> char -> str -> str.

Definition langIncludes (lang : str) (code : string) : bool :=
  includes (toLowerCase unicodeLower lang) (js code).

Definition langIs (lang : str) (code : string) : bool :=
  strEqb (toLowerCase unicodeLower lang) (js code).

Definition keepBookOcr (book : BookResult.t) : bool :=
  if negb (present (BookResult.ia book)) then false
  else if present (BookResult.language book) then
    let hasEnglish :=
      existsb
        (fun lang => langIncludes lang "eng" || langIncludes lang "english" || langIs lang "en")
        (entries (BookResult.language book)) in
    if negb hasEnglish
       && existsb
            (fun lang =>
               langIncludes lang "rus" || langIncludes lang "russian"
               || langIncludes lang "ger" || langIncludes lang "german"
               || langIncludes lang "fre" || langIncludes lang "french"
               || langIncludes lang "spa" || langIncludes lang "spanish")
            (entries (BookResult.language book))
    then false
    else true
  else true.

Definition keepBookMarkup (book : BookResult.t) : bool :=
  if negb (present (BookResult.ia book)) then false
  else if negb (present (BookResult.language book)) then false
  else
    let hasEnglish :=
      existsb
        (fun lang =>
           langIs lang "eng" || langIs lang "en" || langIs lang "english"
           || langIncludes lang "eng")
        (entries (BookResult.language book)) in
    if negb hasEnglish then false
    else
      let hasNonEnglish :=
        existsb
          (fun lang =>
             langIncludes lang "rus" || langIncludes lang "russian"
             || langIncludes lang "ger" || langIncludes lang "german"
             || langIncludes lang "fre" || langIncludes lang "french"
             || langIncludes lang "spa" || langIncludes lang "spanish"
             || langIncludes lang "ita" || langIncludes lang "italian"
             || langIncludes lang "por" || langIncludes lang "portuguese"
             || langIncludes lang "dut" || langIncludes lang "dutch"
             || langIncludes lang "pol" || langIncludes lang "polish"
             || langIncludes lang "chi" || langIncludes lang "chinese"
             || langIncludes lang "jap" || langIncludes lang "japanese"
             || langIncludes lang "ara" || langIncludes lang "arabic"
             || langIncludes lang "lat" || langIncludes lang "latin")
          (entries (BookResult.language book)) in
      if hasNonEnglish then false else true.

Definition keepBookEarly (book : BookResult.t) : bool := present (BookResult.ia book).
End BookFilters.

(** [searchData.numFound || searchData.num_found || 0] *)
Definition totalAvailable (searchData : SearchResponse.t) : nat :=
  match SearchResponse.numFound searchData with
  | Some (S n) => S n
  | _ =>
      match SearchResponse.num_found searchData with
      | Some (S n) => S n
      | _ => 0%nat
      end
  end.

(** The entry pushed to [sentences] for one sentence of a book. *)
Definition sentenceOf (book : BookResult.t) (sentence : str) : Sentence.t :=
  {| Sentence.text := sentence;
     Sentence.book := BookResult.title book;
     Sentence.author := authorOf book;
     Sentence.iaId := iaIdOf book |}.

(** [`Page ${randomPage} of ~${estimatedPages}`] *)
Definition pageOf (random : double) (sentenceCount : nat) : str :=
  js "Page " ++ showNumber (N.of_nat (randomPage random sentenceCount))
  ++ js " of ~" ++ showNumber (N.of_nat (estimatedPages sentenceCount)).

(** The handler of the two later revisions, lines 109-299 and 447-668: the
    two bodies differ in the book filter, the language check and the
    extractor they call, which are arguments here. *)
Section Handler.
Variable keepBook : BookResult.t -> bool.
Variable isLikelyEnglish : str -> bool.
Variable extractSentences : str -> list str.
Variable env : Env.t.

Definition subjects : list str :=
  map js ["fiction"; "poetry"; "adventure"; "mystery"; "drama"]%string.

(** The [bookDetail] object at the head of an iteration. *)
Definition newDetail (book : BookResult.t) : BookDetail.t :=
  {| BookDetail.title := BookResult.title book;
     BookDetail.author := authorOf book;
     BookDetail.iaId := iaIdOf book;
     BookDetail.status := failed;
     BookDetail.sentencesFound := 0;
     BookDetail.textLength := 0;
     BookDetail.positionInBook := js "Unknown" |}.

(** [booksProcessed++] *)
Definition countProcessed (m : SearchMetadata.t) : SearchMetadata.t :=
  {| SearchMetadata.subject := SearchMetadata.subject m;
     SearchMetadata.totalBooksAvailable := SearchMetadata.totalBooksAvailable m;
     SearchMetadata.totalBooksFound := SearchMetadata.totalBooksFound m;
     SearchMetadata.booksWithInternetArchive := SearchMetadata.booksWithInternetArchive m;
     SearchMetadata.booksSelected := SearchMetadata.booksSelected m;
     SearchMetadata.booksProcessed := S (SearchMetadata.booksProcessed m);
     SearchMetadata.booksSuccessful := SearchMetadata.booksSuccessful m;
     SearchMetadata.booksFailed := SearchMetadata.booksFailed m;
     SearchMetadata.totalSentencesExtracted := SearchMetadata.totalSentencesExtracted m;
     SearchMetadata.bookDetails := SearchMetadata.bookDetails m |}.

(** [booksFailed++; bookDetail.status = ...; bookDetails.push(bookDetail)] *)
Definition countFailure (m : SearchMetadata.t) (detail : BookDetail.t) (s : Status) :
    SearchMetadata.t :=
  {| SearchMetadata.subject := SearchMetadata.subject m;
     SearchMetadata.totalBooksAvailable := SearchMetadata.totalBooksAvailable m;
     SearchMetadata.totalBooksFound := SearchMetadata.totalBooksFound m;
     SearchMetadata.booksWithInternetArchive := SearchMetadata.booksWithInternetArchive m;
     SearchMetadata.booksSelected := SearchMetadata.booksSelected m;
     SearchMetadata.booksProcessed := SearchMetadata.booksProcessed m;
     SearchMetadata.booksSuccessful := SearchMetadata.booksSuccessful m;
     SearchMetadata.booksFailed := S (SearchMetadata.booksFailed m);
     SearchMetadata.totalSentencesExtracted := SearchMetadata.totalSentencesExtracted m;
     SearchMetadata.bookDetails :=
       SearchMetadata.bookDetails m
       ++ [ {| BookDetail.title := BookDetail.title detail;
               BookDetail.author := BookDetail.author detail;
               BookDetail.iaId := BookDetail.iaId detail;
               BookDetail.status := s;
               BookDetail.sentencesFound := BookDetail.sentencesFound detail;
               BookDetail.textLength := BookDetail.textLength detail;
               BookDetail.positionInBook := BookDetail.positionInBook detail |} ] |}.

(** [booksSuccessful++; totalSentencesExtracted += randomSentences.length;
    bookDetails.push(bookDetail)] with the detail of a successful book *)
Definition countSuccess (m : SearchMetadata.t) (detail : BookDetail.t)
    (position : str) (found : nat) : SearchMetadata.t :=
  {| SearchMetadata.subject := SearchMetadata.subject m;
     SearchMetadata.totalBooksAvailable := SearchMetadata.totalBooksAvailable m;
     SearchMetadata.totalBooksFound := SearchMetadata.totalBooksFound m;
     SearchMetadata.booksWithInternetArchive := SearchMetadata.booksWithInternetArchive m;
     SearchMetadata.booksSelected := SearchMetadata.booksSelected m;
     SearchMetadata.booksProcessed := SearchMetadata.booksProcessed m;
     SearchMetadata.booksSuccessful := S (SearchMetadata.booksSuccessful m);
     SearchMetadata.booksFailed := SearchMetadata.booksFailed m;
     SearchMetadata.totalSentencesExtracted :=
       SearchMetadata.totalSentencesExtracted m + found;
     SearchMetadata.bookDetails :=
       SearchMetadata.bookDetails m
       ++ [ {| BookDetail.title := BookDetail.title detail;
               BookDetail.author := BookDetail.author detail;
               BookDetail.iaId := BookDetail.iaId detail;
               BookDetail.status := success;
               BookDetail.sentencesFound := found;
               BookDetail.textLength := BookDetail.textLength detail;
               BookDetail.positionInBook := position |} ] |}.

(** [bookDetail.textLength = fullText.length] *)
Definition withTextLength (detail : BookDetail.t) (n : nat) : BookDetail.t :=
  {| BookDetail.title := BookDetail.title detail;
     BookDetail.author := BookDetail.author detail;
     BookDetail.iaId := BookDetail.iaId detail;
     BookDetail.status := BookDetail.status detail;
     BookDetail.sentencesFound := BookDetail.sentencesFound detail;
     BookDetail.textLength := n;
     BookDetail.positionInBook := BookDetail.positionInBook detail |}.

(** One iteration of [for (const book of selectedBooks)], the [i]-th. *)
Definition processBook (i : nat) (book : BookResult.t)
    (state : list Sentence.t * SearchMetadata.t) : list Sentence.t * SearchMetadata.t :=
  let sentences := fst state in
  let searchMetadata := countProcessed (snd state) in
  let bookDetail := newDetail book in
  match Env.fetched env i with
  | FetchThrew => (sentences, countFailure searchMetadata bookDetail failed)
  | FetchNotOk => (sentences, countFailure searchMetadata bookDetail failed)
  | FetchText fullText =>
      let bookDetail := withTextLength bookDetail (List.length fullText) in
      if negb (isLikelyEnglish fullText) then
        (sentences, countFailure searchMetadata bookDetail no_sentences)
      else
        let bookSentences := extractSentences fullText in
        if Nat.eqb (List.length bookSentences) 0 then
          (sentences, countFailure searchMetadata bookDetail no_sentences)
        else
          let position := pageOf (Env.pageRandom env i) (List.length bookSentences) in
          let randomSentences :=
            getRandomItems (Env.shuffledSentences env i) bookSentences 2 in
          (sentences ++ map (sentenceOf book) randomSentences,
           countSuccess searchMetadata bookDetail position (List.length randomSentences))
  end.

Fixpoint processBooks (i : nat) (books : list BookResult.t)
    (state : list Sentence.t * SearchMetadata.t) : list Sentence.t * SearchMetadata.t :=
  match books with
  | [] => state
  | book :: rest => processBooks (S i) rest (processBook i book state)
  end.

Definition booksWithIA (searchData : SearchResponse.t) : list BookResult.t :=
  filter keepBook (SearchResponse.docs searchData).

Definition selectedBooks (searchData : SearchResponse.t) : list BookResult.t :=
  getRandomItems (Env.shuffledBooks env) (booksWithIA searchData)
    (Nat.min 6 (List.length (booksWithIA searchData))).

Definition initialMetadata (searchData : SearchResponse.t) : SearchMetadata.t :=
  {| SearchMetadata.subject :=
       nth (randomBelow (Env.subjectRandom env) (List.length subjects)) subjects [];
     SearchMetadata.totalBooksAvailable := totalAvailable searchData;
     SearchMetadata.totalBooksFound := List.length (SearchResponse.docs searchData);
     SearchMetadata.booksWithInternetArchive := List.length (booksWithIA searchData);
     SearchMetadata.booksSelected := List.length (selectedBooks searchData);
     SearchMetadata.booksProcessed := 0;
     SearchMetadata.booksSuccessful := 0;
     SearchMetadata.booksFailed := 0;
     SearchMetadata.totalSentencesExtracted := 0;
     SearchMetadata.bookDetails := [] |}.

Definition GET : Response :=
  match Env.searchData env with
  | None => ErrorJson (js "Failed to fetch random sentences") 500
  | Some searchData =>
      if Nat.eqb (List.length (booksWithIA searchData)) 0 then
        ErrorJson (js "No books with full text found") 404
      else
        let result :=
          processBooks 0 (selectedBooks searchData) ([], initialMetadata searchData) in
        if Nat.eqb (List.length (fst result)) 0 then
          ErrorJson (js "Could not extract sentences from books") 500
        else Json (fst result) (Some (snd result))
  end.
End Handler.

(** The handler of the first revision, lines 759-835: no metadata and no
    language check. *)
Section EarlyHandler.
Variable extractSentences : str -> list str.
Variable env : Env.t.

Definition processBookEarly (i : nat) (book : BookResult.t)
    (sentences : list Sentence.t) : list Sentence.t :=
  match Env.fetched env i with
  | FetchThrew => sentences
  | FetchNotOk => sentences
  | FetchText fullText =>
      let bookSentences := extractSentences fullText in
      if Nat.eqb (List.length bookSentences) 0 then sentences
      else
        let randomSentences :=
          getRandomItems (Env.shuffledSentences env i) bookSentences 2 in
        sentences ++ map (sentenceOf book) randomSentences
  end.

Fixpoint processBooksEarly (i : nat) (books : list BookResult.t)
    (sentences : list Sentence.t) : list Sentence.t :=
  match books with
  | [] => sentences
  | book :: rest => processBooksEarly (S i) rest (processBookEarly i book sentences)
  end.

Definition GETEarly : Response :=
  match Env.searchData env with
  | None => ErrorJson (js "Failed to fetch random sentences") 500
  | Some searchData =>
      let booksWithIA := filter keepBookEarly (SearchResponse.docs searchData) in
      if Nat.eqb (List.length booksWithIA) 0 then
        ErrorJson (js "No books with full text found") 404
      else
        let selectedBooks :=
          getRandomItems (Env.shuffledBooks env) booksWithIA
            (Nat.min 6 (List.length booksWithIA)) in
        let sentences := processBooksEarly 0 selectedBooks [] in
        if Nat.eqb (List.length sentences) 0 then
          ErrorJson (js "Could not extract sentences from books") 500
        else Json sentences None
  end.
End EarlyHandler.

(** The three handlers. *)
Definition GETOcr (u : str -> char -> str -> str) (env : Env.t) : Response :=
  GET (keepBookOcr u) Ocr.GET.isLikelyEnglish (Ocr.extractSentences u) env.

Definition GETMarkup (u : str -> char -> str -> str) (env : Env.t) : Response :=
  GET (keepBookMarkup u) (Markup.GET.isLikelyEnglish u) (Markup.extractSentences u) env.

Definition GETFirst (u : str -> char -> str -> str) (env : Env.t) : Response :=
  GETEarly (Early.extractSentences u) env.

(** The order left by a sort is a rearrangement of the array. *)
Definition rearranges {T : Type} (sorted : list T -> list T) : Prop :=
  forall l, Permutation l (sorted l).

Definition validEnv (env : Env.t) : Prop :=
  rearranges (Env.shuffledBooks env)
  /\ forall i, rearranges (Env.shuffledSentences env i).

(** A value of [Math.random()]: a double in [0, 1). *)
Definition unitInterval (x : double) : Prop :=
  fst x < 2 ^ 53 /\ fst x < 2 ^ snd x /\ 53 <= snd x.

(** An environment for examples: one book with an identifier and an English
    entry, whose text downloads; sorts that reverse. *)
Definition sampleBook : BookResult.t :=
  {| BookResult.key := js "/works/OL1W";
     BookResult.title := js "Sea Tales";
     BookResult.author_name := Some [js "A. Sailor"];
     BookResult.ia := Some [js "seatales00sail"];
     BookResult.language := Some [js "eng"];
     BookResult.first_sentence := None |}.

Definition sampleText : str :=
  js ("The ship sailed at dawn across the quiet sea. "
      ++ "The crew sang as the wind rose higher. "
      ++ "They reached the harbour before night fell.").

Definition sampleEnv : Env.t :=
  {| Env.subjectRandom := (2 ^ 52, 53);
     Env.searchData :=
       Some {| SearchResponse.docs := [sampleBook];
               SearchResponse.numFound := Some 1%nat;
               SearchResponse.num_found := None |};
     Env.shuffledBooks := @rev BookResult.t;
     Env.fetched := fun _ => FetchText sampleText;
     Env.pageRandom := fun _ => (2 ^ 53 - 1, 53);
     Env.shuffledSentences := fun _ => @rev str |}.

(** Lower-casing that leaves every unit outside ASCII as it is, for
    examples. *)
Definition keepUnit : str -> char -> str -> str := fun _ c _ => [c].

(** A language entry that reads as English: it contains [eng] or is [en]. *)
Definition englishEntry (u : str -> char -> str -> str) (lang : str) : bool :=
  langIncludes u lang "eng" || langIs u lang "en".

Definition foreignCodesOcr : list string := ["rus"; "ger"; "fre"; "spa"]%string.

Definition foreignCodesMarkup : list string :=
  ["rus"; "ger"; "fre"; "spa"; "ita"; "por"; "dut"; "pol"; "chi"; "jap"; "ara";
   "lat"]%string.

(** Some language entry of the book contains one of the codes. *)
Definition listsForeign (u : str -> char -> str -> str) (codes : list string)
    (book : BookResult.t) : bool :=
  existsb (fun lang => existsb (langIncludes u lang) codes)
    (entries (BookResult.language book)).

Definition isSuccess (d : BookDetail.t) : bool :=
  match BookDetail.status d with
  | success => true
  | _ => false
  end.

(** What the fields of a book detail say together. *)
Definition wellFormedDetail (d : BookDetail.t) : Prop :=
  match BookDetail.status d with
  | success =>
      (1 <= BookDetail.sentencesFound d <= 2)%nat
      /\ startsWith (js "Page ") (BookDetail.positionInBook d) = true
  | failed =>
      BookDetail.sentencesFound d = 0%nat /\ BookDetail.textLength d = 0%nat
      /\ BookDetail.positionInBook d = js "Unknown"
  | no_sentences =>
      BookDetail.sentencesFound d = 0%nat
      /\ BookDetail.positionInBook d = js "Unknown"
  end.

(** What a book shows of itself in the response. *)
Definition bookLabel (book : BookResult.t) : str * str * str :=
  (BookResult.title book, authorOf book, iaIdOf book).

Definition detailLabel (d : BookDetail.t) : str * str * str :=
  (BookDetail.title d, BookDetail.author d, BookDetail.iaId d).

Definition sampleResponse : Response := Eval vm_compute in GETOcr keepUnit sampleEnv.


(** The state of the loop after [n] more books: what has not moved, and how
    the counters and the sentences have. *)
Definition advanced (n : nat) (ss : list Sentence.t) (m : SearchMetadata.t)
    (ss' : list Sentence.t) (m' : SearchMetadata.t) : Prop :=
  SearchMetadata.subject m' = SearchMetadata.subject m
  /\ SearchMetadata.totalBooksAvailable m' = SearchMetadata.totalBooksAvailable m
  /\ SearchMetadata.totalBooksFound m' = SearchMetadata.totalBooksFound m
  /\ SearchMetadata.booksWithInternetArchive m'
     = SearchMetadata.booksWithInternetArchive m
  /\ SearchMetadata.booksSelected m' = SearchMetadata.booksSelected m
  /\ (SearchMetadata.booksProcessed m' = SearchMetadata.booksProcessed m + n
      /\ SearchMetadata.booksSuccessful m' + SearchMetadata.booksFailed m'
         = SearchMetadata.booksSuccessful m + SearchMetadata.booksFailed m + n
      /\ List.length (SearchMetadata.bookDetails m')
         = List.length (SearchMetadata.bookDetails m) + n
      /\ SearchMetadata.totalSentencesExtracted m' + List.length ss
         = SearchMetadata.totalSentencesExtracted m + List.length ss'
      /\ List.length ss' + 2 * SearchMetadata.booksSuccessful m
         <= List.length ss + 2 * SearchMetadata.booksSuccessful m'
      /\ SearchMetadata.booksSuccessful m <= SearchMetadata.booksSuccessful m')%nat.

(** Where a sentence of the response comes from: the [i]-th selected book,
    whose text arrived, passed the language check and gave the sentence. *)
Definition comesFrom (gate : str -> bool) (ex : str -> list str) (env : Env.t)
    (books : list BookResult.t) (offset : nat) (s : Sentence.t) : Prop :=
  exists i book fullText,
    nth_error books i = Some book
    /\ Env.fetched env (offset + i) = FetchText fullText
    /\ gate fullText = true
    /\ In (Sentence.text s) (ex fullText)
    /\ s = sentenceOf book (Sentence.text s).

(** * Properties *)

(** ** The thresholds on IEEE doubles *)

(** The constants are 53-bit significands, and the model gives the familiar
    [0.1 * 3 = 0.30000000000000004], [1 / 3 = 0.3333333333333333] and
    [33 / 110 = 0.3]. *)
Lemma double_constants :
  Forall (fun x : double => 2 ^ 52 <= fst x < 2 ^ 53) [d0_15; d0_2; d0_3; d0_6]
  /\ doubleMul 3 (nearestDouble 1 10 56, 56) = (4 * 5404319552844596, 56)
  /\ doubleDiv 1 3 = (6004799503160661, 54)
  /\ doubleDiv 33 110 = d0_3.
Proof.
  split; [|vm_compute; auto].
  repeat constructor; vm_compute; congruence.
Qed.

Lemma size_bounds p :
  let S := 2 ^ (N.size p - 53) in
  p < 9007199254740992 * S
  /\ (S = 1 \/ 4503599627370496 * S <= p)
  /\ (forall e, S <= 2 ^ e -> exists b, 2 ^ e = b * S).
Proof.
  intros S. subst S. split; [|split].
  - destruct (N.eq_dec p 0) as [->|Hp]; [reflexivity|].
    pose proof (N.size_gt p) as Hgt.
    destruct (N.le_gt_cases (N.size p) 53) as [Hs|Hs].
    + replace (N.size p - 53) with 0 by lia. rewrite N.mul_1_r.
      eapply N.lt_le_trans; [exact Hgt|].
      change 9007199254740992 with (2 ^ 53). apply N.pow_le_mono_r; lia.
    + change 9007199254740992 with (2 ^ 53). rewrite <- N.pow_add_r.
      replace (53 + (N.size p - 53)) with (N.size p) by lia. exact Hgt.
  - destruct (N.le_gt_cases (N.size p) 53) as [Hs|Hs].
    + left. now replace (N.size p - 53) with 0 by lia.
    + right. pose proof (N.size_le p) as Hle. rewrite N.succ_double_spec in Hle.
      assert (2 ^ N.size p = 9007199254740992 * 2 ^ (N.size p - 53)) as E.
      { change 9007199254740992 with (2 ^ 53). rewrite <- N.pow_add_r.
        f_equal. lia. }
      lia.
  - intros e He. apply N.pow_le_mono_r_iff in He; [|lia].
    exists (2 ^ (e - (N.size p - 53))). rewrite <- N.pow_add_r. f_equal. lia.
Qed.

(** The rounded value is on the grid of its binade and at most half a grid
    step away. *)
Lemma roundNearestEven_spec p :
  let S := 2 ^ (N.size p - 53) in
  (exists a, roundNearestEven p = a * S)
  /\ 2 * roundNearestEven p <= 2 * p + S
  /\ 2 * p <= 2 * roundNearestEven p + S.
Proof.
  intros S. unfold roundNearestEven. fold S.
  assert (S <> 0) as HS by (apply N.pow_nonzero; lia).
  pose proof (N.div_mod p S HS) as Hdm.
  pose proof (N.mod_lt p S HS) as Hlt.
  generalize dependent (p / S). generalize dependent (p mod S).
  intros r Hlt q Hdm.
  destruct (N.ltb_spec (2 * r) S);
    [|destruct (N.ltb_spec S (2 * r)); [|destruct (N.even q)]];
    (split; [eexists; reflexivity | nia]).
Qed.

Lemma grid_le a g S : 0 < S -> g * S < a * S + S -> g * S <= a * S.
Proof. intros HS H. apply N.mul_le_mono_r. nia. Qed.

Ltac double_floor n M E twoE pct :=
  let Hn := fresh "Hn" in
  let P := fresh "P" in let HP := fresh "HP" in
  let a := fresh "a" in let Ha := fresh "Ha" in
  let Hup := fresh "Hup" in let Hlo := fresh "Hlo" in
  let Hlt := fresh "Hlt" in let Hge := fresh "Hge" in let Hgrid := fresh "Hgrid" in
  let HS := fresh "HS" in let S := fresh "S" in let HSdef := fresh "HSdef" in
  let R := fresh "R" in let HR := fresh "HR" in let HSE := fresh "HSE" in
  let b := fresh "b" in let Hb := fresh "Hb" in let H100 := fresh "H100" in
  let Hk := fresh "Hk" in let Hr := fresh "Hr" in
  let k := fresh "k" in let r := fresh "r" in
  let Hkdef := fresh "Hkdef" in let Hrdef := fresh "Hrdef" in
  let H1 := fresh "H1" in let H2 := fresh "H2" in
  let Hr0 := fresh "Hr0" in let EG := fresh "EG" in
  intros Hn; unfold doubleFloor, doubleMul; cbn [fst snd];
  change (nearestDouble pct 100 E) with M;
  change (2 ^ E) with twoE;
  remember (n * M) as P eqn:HP;
  destruct (roundNearestEven_spec P) as [[a Ha] [Hup Hlo]];
  destruct (size_bounds P) as [Hlt [Hge Hgrid]];
  assert (0 < 2 ^ (N.size P - 53)) as HS
    by (apply N.neq_0_lt_0, N.pow_nonzero; lia);
  remember (2 ^ (N.size P - 53)) as S eqn:HSdef;
  remember (roundNearestEven P) as R eqn:HR;
  assert (S <= 2 ^ E) as HSE by (change (2 ^ E) with twoE; lia);
  destruct (Hgrid E HSE) as [b Hb]; change (2 ^ E) with twoE in Hb;
  assert (100 <> 0) as H100 by lia;
  pose proof (N.div_mod (pct * n) 100 H100) as Hk;
  pose proof (N.mod_lt (pct * n) 100 H100) as Hr;
  remember (pct * n / 100) as k eqn:Hkdef;
  remember ((pct * n) mod 100) as r eqn:Hrdef;
  assert (k * twoE <= R /\ R < (k + 1) * twoE) as [H1 H2];
  [ destruct (N.eq_dec r 0) as [Hr0|Hr0];
    [ split; [|lia];
      assert (k * twoE = (k * b) * S) as EG by (rewrite Hb; ring);
      rewrite EG, Ha; apply grid_le; [exact HS|]; rewrite <- Ha, <- EG; lia
    | lia ]
  | symmetry; apply N.div_unique with (r := R - k * twoE); lia ].

Lemma double_floor_15 n :
  n < 4294967296 -> doubleFloor (doubleMul n d0_15) = 15 * n / 100.
Proof. unfold d0_15. double_floor n 5404319552844595 55 36028797018963968 15. Qed.

Lemma double_floor_20 n :
  n < 4294967296 -> doubleFloor (doubleMul n d0_2) = 20 * n / 100.
Proof. unfold d0_2. double_floor n 7205759403792794 55 36028797018963968 20. Qed.

Lemma double_floor_30 n :
  n < 4294967296 -> doubleFloor (doubleMul n d0_3) = 30 * n / 100.
Proof. unfold d0_3. double_floor n 5404319552844595 54 18014398509481984 30. Qed.

(** [Math.floor(n * 0.15)], [Math.floor(n * 0.2)] and [Math.floor(n * 0.3)]
    are the exact floors for every array or string length. *)
Lemma floorPercent_double (n : nat) :
  N.of_nat n < 4294967296 ->
  N.of_nat (floorPercent 15 n) = doubleFloor (doubleMul (N.of_nat n) d0_15)
  /\ N.of_nat (floorPercent 20 n) = doubleFloor (doubleMul (N.of_nat n) d0_2)
  /\ N.of_nat (floorPercent 30 n) = doubleFloor (doubleMul (N.of_nat n) d0_3).
Proof.
  intros H. unfold floorPercent. rewrite !N2Nat.id.
  now rewrite double_floor_15, double_floor_20, double_floor_30.
Qed.

Lemma size_pow a : 0 < a -> 2 ^ N.size a <= 2 * a /\ a < 2 ^ N.size a.
Proof.
  intros Ha. split; [|apply N.size_gt].
  pose proof (N.size_le a) as H. rewrite N.succ_double_spec in H.
  assert (N.size a = N.succ (N.pred (N.size a))) as E.
  { destruct a; [lia|]. simpl. lia. }
  rewrite E, N.pow_succ_r' in *. lia.
Qed.

Lemma size_mono a b : 0 < a -> a <= b -> N.size a <= N.size b.
Proof.
  intros Ha Hab. rewrite !N.size_log2 by lia.
  apply -> N.succ_le_mono. apply N.log2_le_mono. exact Hab.
Qed.

(** The exponent puts the quotient in [2^52, 2^53). *)
Lemma quotientExponent_spec a b :
  0 < a -> a <= b ->
  4503599627370496 * b <= a * 2 ^ quotientExponent a b
  /\ a * 2 ^ quotientExponent a b < 9007199254740992 * b.
Proof.
  intros Ha Hab. unfold quotientExponent.
  destruct (size_pow a Ha) as [A1 A2].
  destruct (size_pow b) as [B1 B2]; [lia|].
  pose proof (size_mono a b Ha Hab) as Hs.
  set (e0 := 52 + N.size b - N.size a).
  assert (2 ^ N.size a * 2 ^ e0 = 4503599627370496 * 2 ^ N.size b) as E.
  { change 4503599627370496 with (2 ^ 52). rewrite <- !N.pow_add_r.
    f_equal. unfold e0. lia. }
  assert (0 < 2 ^ e0) as He by (apply N.neq_0_lt_0, N.pow_nonzero; lia).
  destruct (N.ltb_spec (a * 2 ^ e0) (4503599627370496 * b)) as [H|H].
  - rewrite N.add_1_r, N.pow_succ_r'. nia.
  - split; [exact H|]. nia.
Qed.

(** The significand of the quotient is at most half a unit away from the
    scaled fraction. *)
Lemma doubleDiv_spec a b :
  0 < a -> a <= b ->
  let '(s, e) := doubleDiv a b in
  e = quotientExponent a b
  /\ 2 * s * b <= 2 * (a * 2 ^ e) + b
  /\ 2 * (a * 2 ^ e) <= 2 * s * b + b.
Proof.
  intros Ha Hab. unfold doubleDiv.
  destruct (N.eqb_spec a 0) as [->|_]; [lia|].
  set (e := quotientExponent a b). set (T := a * 2 ^ e).
  assert (b <> 0) as Hb by lia.
  pose proof (N.div_mod T b Hb) as Hdm. pose proof (N.mod_lt T b Hb) as Hlt.
  generalize dependent (T / b). generalize dependent (T mod b).
  intros r Hlt q Hdm.
  destruct (N.ltb_spec (2 * r) b);
    [|destruct (N.ltb_spec b (2 * r)); [|destruct (N.even q)]];
    (split; [reflexivity | nia]).
Qed.

Lemma pow_cases e ec :
  (e < ec /\ 2 * 2 ^ e <= 2 ^ ec) \/ e = ec \/ (ec < e /\ 2 * 2 ^ ec <= 2 ^ e).
Proof.
  destruct (N.lt_trichotomy e ec) as [H|[H|H]]; [left | right; left | right; right];
    try assumption; (split; [assumption|]);
    rewrite <- N.pow_succ_r'; apply N.pow_le_mono_r; lia.
Qed.

Ltac double_compare_zero :=
  unfold doubleDiv, doubleLt; rewrite N.eqb_refl; cbn [fst snd];
  change (2 ^ 0) with 1; rewrite !N.mul_0_l, ?N.mul_0_r, ?N.mul_1_r;
  match goal with
  | |- (?x <? ?y) = (?u <? ?v) =>
      destruct (N.ltb_spec x y); destruct (N.ltb_spec u v); try reflexivity; lia
  end.

Ltac double_compare a b ec twoEc :=
  let s := fresh "s" in let e := fresh "e" in let T := fresh "T" in
  let H := fresh "H" in let HE := fresh "HE" in let HT := fresh "HT" in
  let H1 := fresh "H1" in let H2 := fresh "H2" in
  let Q1 := fresh "Q1" in let Q2 := fresh "Q2" in let Hc := fresh "Hc" in
  pose proof (doubleDiv_spec a b) as H; destruct (doubleDiv a b) as [s e];
  destruct H as [HE [H1 H2]]; [lia | lia |];
  destruct (quotientExponent_spec a b) as [Q1 Q2]; [lia | lia |];
  rewrite <- HE in Q1, Q2; clear HE;
  unfold doubleLt; cbn [fst snd];
  destruct (pow_cases e ec) as [[_ Hc]|[Hc|[_ Hc]]];
  [ | subst e | ];
  change (2 ^ ec) with twoEc in *;
  try (remember (2 ^ e) as T eqn:HT; clear HT);
  match goal with
  | |- (?x <? ?y) = (?u <? ?v) =>
      destruct (N.ltb_spec x y); destruct (N.ltb_spec u v);
      try reflexivity; exfalso; nia
  end.

Lemma double_gt_0_3 a b :
  0 < b -> a <= b -> b < 4294967296 ->
  doubleLt d0_3 (doubleDiv a b) = (3 * b <? 10 * a).
Proof.
  intros Hb Hab Hlt. unfold d0_3. change (nearestDouble 30 100 54) with 5404319552844595.
  destruct (N.eq_dec a 0) as [->|Ha0]; [double_compare_zero|].
  double_compare a b 54 18014398509481984.
Qed.

Lemma double_lt_0_3 a b :
  0 < b -> a <= b -> b < 4294967296 ->
  doubleLt (doubleDiv a b) d0_3 = (10 * a <? 3 * b).
Proof.
  intros Hb Hab Hlt. unfold d0_3. change (nearestDouble 30 100 54) with 5404319552844595.
  destruct (N.eq_dec a 0) as [->|Ha0]; [double_compare_zero|].
  double_compare a b 54 18014398509481984.
Qed.

Lemma double_lt_0_6 a b :
  0 < b -> a <= b -> b < 4294967296 ->
  doubleLt (doubleDiv a b) d0_6 = (10 * a <? 6 * b).
Proof.
  intros Hb Hab Hlt. unfold d0_6. change (nearestDouble 60 100 53) with 5404319552844595.
  destruct (N.eq_dec a 0) as [->|Ha0]; [double_compare_zero|].
  double_compare a b 53 9007199254740992.
Qed.

Lemma countLetters_le s : (countLetters s <= List.length s)%nat.
Proof. apply filter_length_le. Qed.

(** [letterCount / totalCount > 0.3] of the sentence filters, on doubles. *)
Lemma ratioGt_double s :
  s <> [] -> N.of_nat (List.length s) < 4294967296 ->
  ratioGt (countLetters s) (List.length s) 3 10
  = doubleLt d0_3
      (doubleDiv (N.of_nat (countLetters s)) (N.of_nat (List.length s))).
Proof.
  intros Hs Hl. pose proof (countLetters_le s) as Hle.
  rewrite double_gt_0_3 by (destruct s; [congruence | simpl in *; lia]).
  unfold ratioGt. destruct s; [congruence | reflexivity].
Qed.

(** [englishCharCount / totalCharCount < 0.3] and [... < 0.6] of the gates,
    on doubles. *)
Lemma ratioLt_double s :
  s <> [] -> N.of_nat (List.length s) < 4294967296 ->
  ratioLt (countLetters s) (List.length s) 3 10
  = doubleLt (doubleDiv (N.of_nat (countLetters s)) (N.of_nat (List.length s))) d0_3
  /\ ratioLt (countLetters s) (List.length s) 6 10
     = doubleLt (doubleDiv (N.of_nat (countLetters s)) (N.of_nat (List.length s))) d0_6.
Proof.
  intros Hs Hl. pose proof (countLetters_le s) as Hle.
  rewrite double_lt_0_3, double_lt_0_6 by (destruct s; [congruence | simpl in *; lia]).
  unfold ratioLt. destruct s; [congruence | auto].
Qed.

(** ** Facts about the string primitives *)

Ltac classes :=
  unfold isSpecial, isWhiteSpace, isTerminal, isWord, isLetter, isUpper, isLower,
    isDigit, isNewline, inRange, space in *.

Ltac to_prop :=
  repeat
    (rewrite ?andb_true_iff, ?orb_true_iff, ?andb_false_iff, ?orb_false_iff,
       ?negb_true_iff, ?negb_false_iff, ?N.eqb_eq, ?N.eqb_neq, ?N.leb_le,
       ?N.leb_gt, ?N.ltb_lt, ?N.ltb_ge in *).

Lemma takeWhile_dropWhile p s : takeWhile p s ++ dropWhile p s = s.
Proof.
  induction s as [|c s IH]; simpl; [reflexivity|].
  destruct (p c); simpl; [now rewrite IH | reflexivity].
Qed.

Lemma takeWhile_all p s : Forall (fun c => p c = true) (takeWhile p s).
Proof.
  induction s as [|c s IH]; simpl; [constructor|].
  destruct (p c) eqn:E; [constructor; assumption | constructor].
Qed.

Lemma dropWhile_head p s :
  match dropWhile p s with
  | c :: _ => p c = false
  | [] => True
  end.
Proof.
  induction s as [|c s IH]; simpl; [exact I|].
  destruct (p c) eqn:E; [exact IH | exact E].
Qed.

Lemma dropWhile_id p s :
  match s with c :: _ => p c = false | [] => True end -> dropWhile p s = s.
Proof. destruct s as [|c s]; simpl; [reflexivity | now intros ->]. Qed.

Lemma trimStart_startsWs s : startsWs (trimStart s) = false.
Proof.
  unfold trimStart. generalize (dropWhile_head isWhiteSpace s).
  destruct (dropWhile isWhiteSpace s); simpl; auto.
Qed.

Lemma trimEnd_endsWs s : endsWs (trimEnd s) = false.
Proof.
  unfold endsWs, trimEnd. rewrite rev_involutive.
  generalize (dropWhile_head isWhiteSpace (rev s)).
  destruct (dropWhile isWhiteSpace (rev s)); simpl; auto.
Qed.

Lemma trimStart_id s : startsWs s = false -> trimStart s = s.
Proof. intros H. apply dropWhile_id. destruct s; simpl in *; auto. Qed.

Lemma trimEnd_id s : endsWs s = false -> trimEnd s = s.
Proof.
  intros H. unfold trimEnd. rewrite dropWhile_id; [apply rev_involutive|].
  unfold endsWs in H. destruct (rev s); simpl in *; auto.
Qed.

Lemma trimStart_split s : exists a, s = a ++ trimStart s.
Proof. exists (takeWhile isWhiteSpace s). symmetry. apply takeWhile_dropWhile. Qed.

Lemma trimEnd_split s : exists b, s = trimEnd s ++ b.
Proof.
  exists (rev (takeWhile isWhiteSpace (rev s))). unfold trimEnd.
  rewrite <- rev_app_distr, takeWhile_dropWhile. symmetry. apply rev_involutive.
Qed.

Lemma trimEnd_startsWs s : startsWs s = false -> startsWs (trimEnd s) = false.
Proof.
  intros H. destruct (trimEnd_split s) as [b Hb].
  destruct (trimEnd s) as [|c r]; [reflexivity|].
  rewrite Hb in H. exact H.
Qed.

Lemma trim_startsWs s : startsWs (trim s) = false.
Proof. apply trimEnd_startsWs, trimStart_startsWs. Qed.

Lemma trim_endsWs s : endsWs (trim s) = false.
Proof. apply trimEnd_endsWs. Qed.

Lemma trim_id s : startsWs s = false -> endsWs s = false -> trim s = s.
Proof.
  intros H1 H2. unfold trim. rewrite (trimStart_id _ H1). now apply trimEnd_id.
Qed.

Lemma trim_idempotent s : trim (trim s) = trim s.
Proof. apply trim_id; [apply trim_startsWs | apply trim_endsWs]. Qed.

Lemma trim_split s : exists a b, s = a ++ trim s ++ b.
Proof.
  destruct (trimStart_split s) as [a Ha].
  destruct (trimEnd_split (trimStart s)) as [b Hb].
  exists a, b. unfold trim. now rewrite <- Hb.
Qed.

(** What the three acceptance callbacks guarantee. *)
Lemma ratioGt_spec a b num den :
  ratioGt a b num den = true -> num * N.of_nat b < den * N.of_nat a.
Proof. unfold ratioGt. destruct b; [discriminate|]. apply N.ltb_lt. Qed.

Lemma Ocr_accept_sound u s :
  Ocr.accept u s = true ->
  (15 <= List.length s <= 600)%nat /\ Ocr.hasExcludedKeyword u s = false
  /\ hasLetterRun s = true
  /\ 3 * N.of_nat (List.length s) < 10 * N.of_nat (countLetters s).
Proof.
  unfold Ocr.accept.
  destruct (Nat.ltb_spec (List.length s) 15); [discriminate|].
  destruct (Nat.ltb_spec 600 (List.length s)); [discriminate|]. simpl.
  destruct (Ocr.hasExcludedKeyword u s); [discriminate|].
  intros Hr. apply andb_true_iff in Hr. destruct Hr as [H1 H2].
  apply ratioGt_spec in H2. repeat split; auto.
Qed.

Lemma Markup_accept_sound u s :
  Markup.accept u s = true ->
  (15 <= List.length s <= 600)%nat /\ Markup.hasExcludedKeyword u s = false
  /\ hasLetterRun s = true
  /\ 3 * N.of_nat (List.length s) < 10 * N.of_nat (countLetters s).
Proof.
  unfold Markup.accept.
  destruct (Nat.ltb_spec (List.length s) 15); [discriminate|].
  destruct (Nat.ltb_spec 600 (List.length s)); [discriminate|]. simpl.
  destruct (Markup.hasExcludedKeyword u s); [discriminate|].
  destruct (test Markup.selectorChain s); [discriminate|].
  destruct (test Markup.styleToken s); [discriminate|].
  destruct (test Markup.braceBlock s); [discriminate|].
  destruct (test Markup.displayValue s); [discriminate|].
  destruct (includes s (js ".") && _); [discriminate|].
  intros Hr. apply andb_true_iff in Hr. destruct Hr as [H1 H2].
  apply ratioGt_spec in H2. repeat split; auto.
Qed.

Lemma Early_accept_sound u s :
  Early.accept u s = true ->
  (20 <= List.length s <= 500)%nat /\ Early.hasExcludedKeyword u s = false
  /\ hasLetterRun s = true.
Proof.
  unfold Early.accept.
  destruct (Nat.ltb_spec (List.length s) 20); [discriminate|].
  destruct (Nat.ltb_spec 500 (List.length s)); [discriminate|]. simpl.
  destruct (Early.hasExcludedKeyword u s); [discriminate|].
  intros Hr. repeat split; auto.
Qed.

(** Every sentence returned is a trimmed segment that the callback accepted. *)
Lemma filter_map_trim_Forall (acc : str -> bool) (segs : list str) (P : str -> Prop) :
  (forall s, acc s = true -> trim s = s -> P s) ->
  Forall P (filter acc (map trim segs)).
Proof.
  intros H. apply Forall_forall. intros s Hs.
  apply filter_In in Hs. destruct Hs as [Hin Hacc].
  apply in_map_iff in Hin. destruct Hin as [x [Hx _]]. subst s.
  apply H; [assumption | apply trim_idempotent].
Qed.

(** ** Length and letter density of the sentences *)

(** C1, as amended.  In the two later revisions every returned sentence is
    trimmed, has a length in [15, 600] and a letter-density ratio strictly
    above 0.3.  In the first revision every returned sentence is trimmed, has
    a length in [20, 500] and contains three ASCII letters in a row; that
    revision has no density floor. *)
Theorem extractSentences_length_density u t :
  Forall
    (fun s => trim s = s /\ (15 <= List.length s <= 600)%nat /\ densityAbove 3 10 s)
    (Ocr.extractSentences u t)
  /\ Forall
       (fun s => trim s = s /\ (15 <= List.length s <= 600)%nat /\ densityAbove 3 10 s)
       (Markup.extractSentences u t)
  /\ Forall
       (fun s => trim s = s /\ (20 <= List.length s <= 500)%nat /\ hasLetterRun s = true)
       (Early.extractSentences u t).
Proof.
  repeat split.
  - apply filter_map_trim_Forall. intros s Ha Ht.
    apply Ocr_accept_sound in Ha. unfold densityAbove. tauto.
  - apply filter_map_trim_Forall. intros s Ha Ht.
    apply Markup_accept_sound in Ha. unfold densityAbove. tauto.
  - apply filter_map_trim_Forall. intros s Ha Ht.
    apply Early_accept_sound in Ha. tauto.
Qed.

(** The first revision returns a sentence of 25 units with 3 letters: the
    density bound of C1 does not hold for it. *)
Lemma Early_extractSentences_low_density :
  ~ (forall u t,
        Forall
          (fun s => (15 <= List.length s <= 600)%nat /\ densityAbove 3 10 s)
          (Early.extractSentences u t)).
Proof.
  intros H.
  specialize (H (fun _ c _ => [c]) (js "Abc 12345678901234567890.")).
  vm_compute in H. inversion H as [|s l [_ Hd] _]. subst.
  vm_compute in Hd. discriminate.
Qed.

(** ** The keyword deny-list *)

Lemma asciiLower_ascii c : isAscii c = true -> isAscii (asciiLower c) = true.
Proof.
  unfold isAscii, asciiLower, isUpper, inRange. intros H.
  destruct ((65 <=? c) && (c <=? 90)) eqn:E; [|assumption].
  to_prop. lia.
Qed.

Lemma asciiLower_eq_ascii a c :
  isAscii a = true -> asciiLower a = asciiLower c -> isAscii c = true.
Proof.
  intros Ha He. pose proof (asciiLower_ascii a Ha) as Hl. rewrite He in Hl.
  revert Hl. unfold isAscii, asciiLower, isUpper, inRange.
  destruct ((65 <=? c) && (c <=? 90)) eqn:E; to_prop; lia.
Qed.

Lemma toLowerCaseFrom_ascii u m : forall before rest,
  forallb isAscii m = true ->
  toLowerCaseFrom u before (m ++ rest)
  = map asciiLower m ++ toLowerCaseFrom u (before ++ m) rest.
Proof.
  induction m as [|c m IH]; intros before rest H; simpl.
  - now rewrite app_nil_r.
  - simpl in H. apply andb_true_iff in H. destruct H as [Hc Hm].
    unfold isAscii in Hc. rewrite Hc. simpl.
    rewrite IH by assumption. now rewrite <- app_assoc.
Qed.

Lemma toLowerCase_ascii u k :
  forallb isAscii k = true -> toLowerCase u k = map asciiLower k.
Proof.
  intros H. unfold toLowerCase.
  rewrite <- (app_nil_r k) at 1. rewrite toLowerCaseFrom_ascii by assumption.
  simpl. apply app_nil_r.
Qed.

Lemma startsWithCI_split sub : forall s,
  forallb isAscii sub = true -> startsWithCI sub s = true ->
  exists m rest,
    s = m ++ rest /\ forallb isAscii m = true /\ map asciiLower m = map asciiLower sub.
Proof.
  induction sub as [|a sub IH]; intros s Ha H.
  - exists [], s. auto.
  - destruct s as [|c s]; simpl in H; [discriminate|].
    simpl in Ha. apply andb_true_iff in Ha. destruct Ha as [Ha Hsub].
    destruct (N.eqb_spec (asciiLower a) (asciiLower c)) as [E|E]; [|discriminate].
    destruct (IH s Hsub H) as [m [rest [-> [Hm Hmap]]]].
    exists (c :: m), rest. simpl. rewrite Hm, Hmap, E.
    rewrite (asciiLower_eq_ascii a c Ha E). auto.
Qed.

Lemma startsWith_app sub rest : startsWith sub (sub ++ rest) = true.
Proof.
  induction sub as [|a sub IH]; simpl; [reflexivity|].
  now rewrite N.eqb_refl.
Qed.

Lemma includes_here s sub : startsWith sub s = true -> includes s sub = true.
Proof. intros H. destruct s; simpl in *; now rewrite H. Qed.

Lemma includes_app_r x : forall y sub,
  includes y sub = true -> includes (x ++ y) sub = true.
Proof.
  induction x as [|c x IH]; intros y sub H; simpl; [assumption|].
  destruct (startsWith sub (c :: x ++ y)); [reflexivity|]. now apply IH.
Qed.

(** An occurrence up to ASCII case survives lower-casing, whatever the
    Unicode tables do to the other units. *)
Lemma includesCI_lowered u sub s : forall before,
  forallb isAscii sub = true -> includesCI s sub = true ->
  includes (toLowerCaseFrom u before s) (toLowerCase u sub) = true.
Proof.
  intros before Hsub. rewrite (toLowerCase_ascii u sub Hsub). revert before.
  induction s as [|c s IH]; intros before H.
  - simpl in H. destruct (startsWithCI sub []) eqn:E; [|discriminate].
    destruct sub; [reflexivity | discriminate].
  - simpl in H. destruct (startsWithCI sub (c :: s)) eqn:E.
    + destruct (startsWithCI_split _ _ Hsub E) as [m [rest [Hs [Hm Hmap]]]].
      rewrite Hs, toLowerCaseFrom_ascii, Hmap by assumption.
      apply includes_here, startsWith_app.
    + simpl. apply includes_app_r. now apply IH.
Qed.

Lemma existsb_false_Forall (A : Type) (f : A -> bool) (l : list A) :
  existsb f l = false -> Forall (fun x => f x = false) l.
Proof.
  induction l as [|x l IH]; simpl; intros H; [constructor|].
  apply orb_false_iff in H. destruct H. constructor; auto.
Qed.

Lemma deny_list_sound u (keywords : list str) s :
  forallb (forallb isAscii) keywords = true ->
  existsb (fun keyword => includes (toLowerCase u s) (toLowerCase u keyword)) keywords
  = false ->
  Forall
    (fun keyword =>
       includes (toLowerCase u s) (toLowerCase u keyword) = false
       /\ includesCI s keyword = false)
    keywords.
Proof.
  intros Hk H. apply existsb_false_Forall in H.
  rewrite forallb_forall in Hk. rewrite Forall_forall in *.
  intros k Hin. split; [now apply H|].
  destruct (includesCI s k) eqn:E; [|reflexivity].
  apply (includesCI_lowered u k s []) in E; [|now apply Hk].
  change (toLowerCaseFrom u [] s) with (toLowerCase u s) in E.
  rewrite (H k Hin) in E. discriminate.
Qed.

(** C2.  In the two revisions with the full deny-list, no returned sentence
    contains a keyword of the revision's list: neither does its lower-cased
    text include the lower-cased keyword (the test of the source), nor does
    the keyword occur in it at any position up to the case of ASCII
    letters. *)
Theorem extractSentences_deny_list u t :
  Forall
    (fun s =>
       Forall
         (fun keyword =>
            includes (toLowerCase u s) (toLowerCase u keyword) = false
            /\ includesCI s keyword = false)
         Ocr.excludeKeywords)
    (Ocr.extractSentences u t)
  /\ Forall
       (fun s =>
          Forall
            (fun keyword =>
               includes (toLowerCase u s) (toLowerCase u keyword) = false
               /\ includesCI s keyword = false)
            Markup.excludeKeywords)
       (Markup.extractSentences u t).
Proof.
  split.
  - apply filter_map_trim_Forall. intros s Ha _.
    apply Ocr_accept_sound in Ha. destruct Ha as [_ [Hk _]].
    apply deny_list_sound; [reflexivity | exact Hk].
  - apply filter_map_trim_Forall. intros s Ha _.
    apply Markup_accept_sound in Ha. destruct Ha as [_ [Hk _]].
    apply deny_list_sound; [reflexivity | exact Hk].
Qed.

(** The same holds in the first revision for its shorter list. *)
Lemma Early_extractSentences_deny_list u t :
  Forall
    (fun s =>
       Forall
         (fun keyword =>
            includes (toLowerCase u s) (toLowerCase u keyword) = false
            /\ includesCI s keyword = false)
         Early.excludeKeywords)
    (Early.extractSentences u t).
Proof.
  apply filter_map_trim_Forall. intros s Ha _.
  apply Early_accept_sound in Ha. destruct Ha as [_ [Hk _]].
  apply deny_list_sound; [reflexivity | exact Hk].
Qed.

(** ** The language gates *)

Lemma ratioLt_spec a b num den :
  (0 < b)%nat -> (ratioLt a b num den = true <-> den * N.of_nat a < num * N.of_nat b).
Proof.
  intros Hb. unfold ratioLt. destruct b; [lia|]. apply N.ltb_lt.
Qed.

(** C3, as amended.  In the sampled gate, a document whose cleaned 20%-30%
    sample has more than 100 units and a letter ratio below 0.6 is skipped,
    however many of the 15 function words the sample contains. *)
Theorem strict_gate_rejects_low_ratio u fullText :
  (100 < List.length (Markup.GET.cleanedText fullText))%nat ->
  10 * N.of_nat (countLetters (Markup.GET.cleanedText fullText))
  < 6 * N.of_nat (List.length (Markup.GET.cleanedText fullText)) ->
  Markup.GET.isLikelyEnglish u fullText = false.
Proof.
  intros Hlen Hratio. unfold Markup.GET.isLikelyEnglish.
  apply Nat.ltb_lt in Hlen. rewrite Hlen.
  apply (ratioLt_spec _ _ 6 10) in Hratio;
    [now rewrite Hratio | apply Nat.ltb_lt in Hlen; lia].
Qed.

(** A document of 1100 units whose sample is ["_ the and is in to "] followed
    by 91 underscores: five function words, letter ratio 12/110. *)
Lemma strict_gate_rejects_low_ratio_witness :
  let u : str -> char -> str -> str := fun _ c _ => [c] in
  let fullText :=
    repeat 120 220 ++ js "_ the and is in to " ++ repeat 95 91 ++ repeat 120 770 in
  (5 <= Markup.GET.englishWordCount u fullText)%nat
  /\ Markup.GET.isLikelyEnglish u fullText = false.
Proof.
  intros u fullText. split.
  - vm_compute. lia.
  - apply strict_gate_rejects_low_ratio.
    + vm_compute. lia.
    + vm_compute. reflexivity.
Defined.

(** The sampled gate only judges samples of more than 100 cleaned units. *)
Lemma strict_gate_accepts_short_sample u fullText :
  (List.length (Markup.GET.cleanedText fullText) <= 100)%nat ->
  Markup.GET.isLikelyEnglish u fullText = true.
Proof.
  intros H. unfold Markup.GET.isLikelyEnglish.
  destruct (Nat.ltb_spec 100 (List.length (Markup.GET.cleanedText fullText)));
    [lia | reflexivity].
Qed.

(** A document of 20 units whose sample is ["_a"], of letter ratio 0.5, is
    let through: C3 does not hold without the size condition. *)
Lemma strict_gate_short_sample_passes :
  ~ (forall u fullText,
        10 * N.of_nat (countLetters (Markup.GET.cleanedText fullText))
        < 6 * N.of_nat (List.length (Markup.GET.cleanedText fullText)) ->
        Markup.GET.isLikelyEnglish u fullText = false).
Proof.
  intros H.
  specialize (H (fun _ c _ => [c]) (js "xxxx_axxxxxxxxxxxxxx")).
  assert (Markup.GET.cleanedText (js "xxxx_axxxxxxxxxxxxxx") = js "_a") as E
    by (vm_compute; reflexivity).
  rewrite E in H. vm_compute in H. specialize (H eq_refl). discriminate.
Qed.

(** C4, as amended.  The whole-text gate lets a document through exactly
    when its cleaned text has at most 100 units or its letter ratio is not
    below 0.3; a ratio of exactly 0.3 passes. *)
Theorem lenient_gate_accepts_iff fullText :
  Ocr.GET.isLikelyEnglish fullText = true
  <-> (List.length (Ocr.GET.cleanedText fullText) <= 100)%nat
      \/ 3 * N.of_nat (List.length (Ocr.GET.cleanedText fullText))
         <= 10 * N.of_nat (countLetters (Ocr.GET.cleanedText fullText)).
Proof.
  unfold Ocr.GET.isLikelyEnglish.
  destruct (Nat.ltb_spec 100 (List.length (Ocr.GET.cleanedText fullText))) as [Hl|Hl].
  - destruct (ratioLt _ _ 3 10) eqn:E.
    + apply ratioLt_spec in E; [|lia]. split; [discriminate|]. intros [H|H]; lia.
    + split; [|reflexivity]. intros _. right.
      destruct (N.le_gt_cases
                  (3 * N.of_nat (List.length (Ocr.GET.cleanedText fullText)))
                  (10 * N.of_nat (countLetters (Ocr.GET.cleanedText fullText))))
        as [Hc|Hc]; [assumption|].
      apply (ratioLt_spec _ _ 3 10) in Hc; [congruence | lia].
  - split; [intros _; left; assumption | reflexivity].
Qed.

(** Fifty units of digits and punctuation leave nothing to analyse, and the
    whole-text gate lets the document through. *)
Lemma lenient_gate_accepts_digits_and_punctuation :
  let fullText := js "1234567890.,;:!?-()[]{}<>1234567890.,;:!?-()[]{}<>" in
  List.length fullText = 50%nat
  /\ Ocr.GET.cleanedText fullText = []
  /\ Ocr.GET.isLikelyEnglish fullText = true.
Proof. vm_compute. auto. Qed.

(** A cleaned text of 110 units with 33 letters has a ratio of exactly 0.3
    and is let through: C4 does not hold with a strict bound. *)
Lemma lenient_gate_passes_ratio_three_tenths :
  ~ (forall fullText,
        Ocr.GET.isLikelyEnglish fullText = true
        <-> (List.length (Ocr.GET.cleanedText fullText) <= 100)%nat
            \/ 3 * N.of_nat (List.length (Ocr.GET.cleanedText fullText))
               < 10 * N.of_nat (countLetters (Ocr.GET.cleanedText fullText))).
Proof.
  intros H. specialize (H (repeat 97 33 ++ repeat 95 77)).
  destruct H as [H _].
  assert (Ocr.GET.cleanedText (repeat 97 33 ++ repeat 95 77)
          = repeat 97 33 ++ repeat 95 77) as E by (vm_compute; reflexivity).
  assert (Ocr.GET.isLikelyEnglish (repeat 97 33 ++ repeat 95 77) = true) as A
    by (vm_compute; reflexivity).
  specialize (H A). rewrite E in H. vm_compute in H.
  destruct H as [H|H]; [lia | discriminate].
Qed.

(** ** The content filter *)

Lemma Subseq_refl (A : Type) (l : list A) : Subseq l l.
Proof. induction l; constructor; assumption. Qed.

Lemma Subseq_trans (A : Type) (l1 l2 l3 : list A) :
  Subseq l1 l2 -> Subseq l2 l3 -> Subseq l1 l3.
Proof.
  intros H12 H23. revert l1 H12.
  induction H23 as [|x l2 l3 H IH|x l2 l3 H IH]; intros l1 H12.
  - assumption.
  - constructor. auto.
  - inversion H12; subst; [apply Subseq_drop | apply Subseq_keep]; auto.
Qed.

Lemma Subseq_skipn (A : Type) (k : nat) : forall l : list A, Subseq (skipn k l) l.
Proof.
  induction k as [|k IH]; intros l; [apply Subseq_refl|].
  destruct l as [|x l]; simpl; [constructor | constructor; apply IH].
Qed.

Lemma Subseq_filter (A : Type) (f : A -> bool) (l : list A) : Subseq (filter f l) l.
Proof.
  induction l as [|x l IH]; simpl; [constructor|].
  destruct (f x); constructor; assumption.
Qed.

Lemma floorPercent_15_le n : (floorPercent 15 n <= n)%nat.
Proof.
  unfold floorPercent.
  assert (15 * N.of_nat n / 100 <= N.of_nat n)
    by (apply N.Div0.div_le_upper_bound; lia).
  lia.
Qed.

Lemma floorPercent_15_lt n : (0 < n)%nat -> (floorPercent 15 n < n)%nat.
Proof.
  intros Hn. unfold floorPercent.
  assert (15 * N.of_nat n / 100 < N.of_nat n)
    by (apply N.Div0.div_lt_upper_bound; lia).
  lia.
Qed.

Lemma floorPercent_spec pct n : N.of_nat (floorPercent pct n) = (pct * N.of_nat n) / 100.
Proof. unfold floorPercent. apply N2Nat.id. Qed.

Lemma skipn_dropsFifteenPercent (ls : list str) :
  dropsFifteenPercent ls (skipn (floorPercent 15 (List.length ls)) ls).
Proof.
  exists (firstn (floorPercent 15 (List.length ls)) ls). split.
  - symmetry. apply firstn_skipn.
  - rewrite length_firstn, Nat.min_l by apply floorPercent_15_le.
    apply floorPercent_spec.
Qed.

Lemma splitOn_not_nil sep s : splitOn sep s <> [].
Proof.
  destruct s as [|c s]; simpl; [discriminate|].
  destruct (c =? sep); [discriminate|].
  destruct (splitOn sep s); discriminate.
Qed.

Lemma splitOn_length sep s : (0 < List.length (splitOn sep s))%nat.
Proof.
  pose proof (splitOn_not_nil sep s). destruct (splitOn sep s); simpl; [congruence | lia].
Qed.

Lemma splitOn_lines_noNewline s : Forall (fun l => noNewline l = true) (splitOn 10 s).
Proof.
  induction s as [|c s IH]; simpl.
  - repeat constructor.
  - destruct (N.eqb_spec c 10) as [E|E].
    + constructor; [reflexivity | assumption].
    + destruct (splitOn 10 s) as [|l ls]; simpl.
      * constructor; [|constructor]. simpl.
        apply N.eqb_neq in E. now rewrite E.
      * inversion IH; subst. constructor; [|assumption]. simpl.
        apply N.eqb_neq in E. now rewrite E.
Qed.

Lemma splitOn_noNewline_id l : noNewline l = true -> splitOn 10 l = [l].
Proof.
  induction l as [|c l IH]; simpl; intros H; [reflexivity|].
  apply andb_true_iff in H. destruct H as [Hc Hl].
  apply negb_true_iff in Hc. rewrite Hc, (IH Hl). reflexivity.
Qed.

Lemma splitOn_app_newline l r :
  noNewline l = true -> splitOn 10 (l ++ 10 :: r) = l :: splitOn 10 r.
Proof.
  induction l as [|c l IH]; simpl; intros H; [reflexivity|].
  apply andb_true_iff in H. destruct H as [Hc Hl].
  apply negb_true_iff in Hc. rewrite Hc, (IH Hl). reflexivity.
Qed.

(** Splitting what [join] glued gives the lines back. *)
Lemma splitOn_join ls :
  ls <> [] -> Forall (fun l => noNewline l = true) ls ->
  splitOn 10 (join [10] ls) = ls.
Proof.
  induction ls as [|l ls IH]; intros Hne H; [congruence|].
  inversion H as [|? ? Hl Hls]; subst.
  destruct ls as [|l' ls'].
  - simpl. now apply splitOn_noNewline_id.
  - change (join [10] (l :: l' :: ls')) with (l ++ 10 :: join [10] (l' :: ls')).
    rewrite splitOn_app_newline by assumption.
    f_equal. apply IH; [discriminate | assumption].
Qed.

(** Gluing the lines of a text gives the text back. *)
Lemma join_splitOn s : join [10] (splitOn 10 s) = s.
Proof.
  induction s as [|c s IH]; simpl; [reflexivity|].
  pose proof (splitOn_not_nil 10 s) as Hne.
  destruct (N.eqb_spec c 10) as [E|E].
  - subst. destruct (splitOn 10 s) as [|l ls]; [congruence|].
    change (join [10] ([] :: l :: ls)) with (10 :: join [10] (l :: ls)).
    now rewrite IH.
  - destruct (splitOn 10 s) as [|l ls]; [congruence|]. simpl consHead.
    destruct ls as [|l' ls'].
    + simpl in *. now rewrite IH.
    + change (join [10] ((c :: l) :: l' :: ls'))
        with (c :: (l ++ 10 :: join [10] (l' :: ls'))).
      change (join [10] (l :: l' :: ls')) with (l ++ 10 :: join [10] (l' :: ls')) in IH.
      now rewrite IH.
Qed.

Lemma Forall_skipn (A : Type) (P : A -> Prop) (k : nat) : forall l,
  Forall P l -> Forall P (skipn k l).
Proof.
  induction k as [|k IH]; intros l H; [assumption|].
  destruct l; simpl; [constructor|]. inversion H; subst. now apply IH.
Qed.

Lemma skipn_not_nil (A : Type) (k : nat) (l : list A) :
  (k < List.length l)%nat -> skipn k l <> [].
Proof.
  intros Hk E. pose proof (length_skipn k l) as L. rewrite E in L. simpl in L. lia.
Qed.

(** In the revisions without a noise filter the lines of the output text are
    the kept lines. *)
Lemma Ocr_output_lines text :
  splitOn 10 (Ocr.filterMainContent text) = Ocr.contentLines text.
Proof.
  unfold Ocr.filterMainContent, Ocr.filterMainContentWith, Ocr.contentLines,
    Ocr.skipLines, Ocr.lines.
  apply splitOn_join.
  - apply skipn_not_nil, floorPercent_15_lt, splitOn_length.
  - apply Forall_skipn, splitOn_lines_noNewline.
Qed.

Lemma Early_output_lines text :
  splitOn 10 (Early.filterMainContent text) = Early.contentLines text.
Proof. exact (Ocr_output_lines text). Qed.

(** C5.  In each revision the content filter drops exactly the first
    [floor (0.15 * lineCount)] of its lines and returns the rest joined by
    line breaks, where [lineCount] counts the lines of the text (in the
    markup-aware revision: those the noise filter kept); the number dropped
    never exceeds the number of lines; the empty text gives the empty text. *)
Theorem filterMainContent_drops_fifteen_percent text :
  (Ocr.lines text = splitOn 10 text
   /\ dropsFifteenPercent (Ocr.lines text) (Ocr.contentLines text)
   /\ (Ocr.skipLines text <= List.length (Ocr.lines text))%nat
   /\ Ocr.filterMainContent text = join [10] (Ocr.contentLines text)
   /\ splitOn 10 (Ocr.filterMainContent text) = Ocr.contentLines text)
  /\ (Markup.lines text = filter Markup.keepLine (splitOn 10 text)
      /\ dropsFifteenPercent (Markup.lines text) (Markup.contentLines text)
      /\ (Markup.skipLines text <= List.length (Markup.lines text))%nat
      /\ Markup.filterMainContent text = join [10] (Markup.contentLines text))
  /\ (Early.lines text = splitOn 10 text
      /\ dropsFifteenPercent (Early.lines text) (Early.contentLines text)
      /\ (Early.skipLines text <= List.length (Early.lines text))%nat
      /\ Early.filterMainContent text = join [10] (Early.contentLines text)
      /\ splitOn 10 (Early.filterMainContent text) = Early.contentLines text)
  /\ Ocr.filterMainContent [] = []
  /\ Markup.filterMainContent [] = []
  /\ Early.filterMainContent [] = [].
Proof.
  repeat split.
  - apply skipn_dropsFifteenPercent.
  - apply floorPercent_15_le.
  - apply Ocr_output_lines.
  - apply skipn_dropsFifteenPercent.
  - apply floorPercent_15_le.
  - apply skipn_dropsFifteenPercent.
  - apply floorPercent_15_le.
  - apply Early_output_lines.
Qed.

(** C6.  In each revision the kept lines are a subsequence of the lines of
    the raw text: the raw lines without the 15% prefix, and in the
    markup-aware revision the raw lines that pass the noise filter without
    the 15% prefix of those.  Where no noise filter runs, the lines of the
    output text are exactly the kept lines. *)
Theorem contentLines_subsequence text :
  (Subseq (Ocr.contentLines text) (splitOn 10 text)
   /\ Ocr.contentLines text
      = skipn (floorPercent 15 (List.length (splitOn 10 text))) (splitOn 10 text)
   /\ splitOn 10 (Ocr.filterMainContent text) = Ocr.contentLines text)
  /\ (Subseq (Markup.contentLines text) (splitOn 10 text)
      /\ Markup.contentLines text
         = skipn
             (floorPercent 15 (List.length (filter Markup.keepLine (splitOn 10 text))))
             (filter Markup.keepLine (splitOn 10 text))
      /\ Markup.filterMainContent text = join [10] (Markup.contentLines text))
  /\ (Subseq (Early.contentLines text) (splitOn 10 text)
      /\ Early.contentLines text
         = skipn (floorPercent 15 (List.length (splitOn 10 text))) (splitOn 10 text)
      /\ splitOn 10 (Early.filterMainContent text) = Early.contentLines text).
Proof.
  repeat split.
  - apply Subseq_skipn.
  - apply Ocr_output_lines.
  - apply Subseq_trans with (l2 := filter Markup.keepLine (splitOn 10 text));
      [apply Subseq_skipn | apply Subseq_filter].
  - apply Subseq_skipn.
  - apply Early_output_lines.
Qed.

(** C9.  The output of the content filter does not depend on the
    front-matter indicators [skipPatterns]: whatever list is put in their
    place, the result is the same, and the [j]-th kept line is the line [j]
    places after the dropped prefix (of the raw lines, or in the
    markup-aware revision of the lines that passed the noise filter).  The
    lines ["Project Gutenberg"] and ["Copyright"] match an indicator and pass
    the noise filter; in a seven-line document that has them after the
    prefix they are in the filter's output, and it is the keyword deny-list
    of the extractor that rejects the sentence they end up in. *)
Theorem filterMainContent_ignores_skipPatterns
    (patterns : list regex) (u : str -> char -> str -> str) (text : str) (j : nat) :
  (Ocr.filterMainContentWith patterns text = Ocr.filterMainContent text
   /\ Markup.filterMainContentWith patterns text = Markup.filterMainContent text
   /\ Early.filterMainContentWith patterns text = Early.filterMainContent text)
  /\ (nth_error (Ocr.contentLines text) j
      = nth_error (splitOn 10 text) (Ocr.skipLines text + j)
      /\ nth_error (Markup.contentLines text) j
         = nth_error (filter Markup.keepLine (splitOn 10 text)) (Markup.skipLines text + j)
      /\ nth_error (Early.contentLines text) j
         = nth_error (splitOn 10 text) (Early.skipLines text + j))
  /\ Forall
       (fun line =>
          existsb (fun p => test p line) skipPatterns = true
          /\ Markup.keepLine line = true)
       [js "Project Gutenberg"; js "Copyright"]
  /\ (let l1 := js "The ship sailed at dawn across the quiet sea." in
      let l2 := js "Project Gutenberg" in
      let l3 := js "Copyright" in
      let l4 := js "This eBook is for the use of anyone anywhere." in
      let l5 := js "The crew sang as the wind rose higher." in
      let l6 := js "They reached the harbour before night fell." in
      let document := join [10] [js "Front matter"; l1; l2; l3; l4; l5; l6] in
      let boilerplate := l2 ++ space :: l3 ++ space :: l4 in
      (Ocr.contentLines document = [l1; l2; l3; l4; l5; l6]
       /\ Markup.contentLines document = [l1; l2; l3; l4; l5; l6]
       /\ Early.contentLines document = [l1; l2; l3; l4; l5; l6])
      /\ (map trim (splitSentences (Ocr.cleanedText (Ocr.filterMainContent document)))
          = [l1; boilerplate; l5; l6]
          /\ Ocr.hasExcludedKeyword u boilerplate = true
          /\ Ocr.extractSentences u document = [l1; l5; l6])
      /\ (map trim
            (splitSentences (Markup.cleanedText (Markup.filterMainContent document)))
          = [l1; boilerplate; l5; l6]
          /\ Markup.hasExcludedKeyword u boilerplate = true
          /\ Markup.extractSentences u document = [l1; l5; l6])
      /\ (map trim (splitSentences (Early.collapsed (Early.filterMainContent document)))
          = [l1; boilerplate; l5; l6]
          /\ Early.hasExcludedKeyword u boilerplate = true
          /\ Early.extractSentences u document = [l1; l5; l6])).
Proof.
  split; [repeat split|].
  split; [repeat split; apply nth_error_skipn|].
  split; [repeat constructor|].
  vm_compute. repeat split.
Qed.

(** ** The worked example of the specification *)

(** C8.  On the two-sentence example every revision returns exactly the two
    sentences, whole: each starts with an uppercase letter and ends with a
    full stop, and the input is the first, a space, and the second.  On the
    empty text every revision returns no sentence. *)
Theorem extractSentences_example (u : str -> char -> str -> str) :
  let s1 := js "This is a sufficiently long narrative sentence about adventure." in
  let s2 := js "Another equally long narrative sentence follows here today." in
  let input :=
    js ("This is a sufficiently long narrative sentence about adventure. "
        ++ "Another equally long narrative sentence follows here today.") in
  input = s1 ++ space :: s2
  /\ Forall (fun s => lookaheadUpper s = true /\ last s 0 = 46) [s1; s2]
  /\ Ocr.extractSentences u input = [s1; s2]
  /\ Markup.extractSentences u input = [s1; s2]
  /\ Early.extractSentences u input = [s1; s2]
  /\ Ocr.extractSentences u [] = []
  /\ Markup.extractSentences u [] = []
  /\ Early.extractSentences u [] = [].
Proof. vm_compute. repeat split; repeat constructor. Qed.

(** ** The sentence split *)

Lemma join_cons_cons sep l x r : join sep (l :: x :: r) = l ++ sep ++ join sep (x :: r).
Proof. reflexivity. Qed.

Lemma join_consHead sep c segs :
  segs <> [] -> join sep (consHead c segs) = c :: join sep segs.
Proof. destruct segs as [|x [|y r]]; [congruence | reflexivity | reflexivity]. Qed.

Lemma consHead_not_nil c segs : consHead c segs <> [].
Proof. destruct segs; discriminate. Qed.

Lemma splitLoop_not_nil fuel before s : splitLoop fuel before s <> [].
Proof.
  destruct fuel as [|f]; simpl; [discriminate|].
  destruct s as [|c s']; [discriminate|].
  destruct (separatorAt before (c :: s')) as [[ws rest]|];
    [discriminate | apply consHead_not_nil].
Qed.

Lemma whitespace_not_terminal c : isWhiteSpace c = true -> isTerminal c = false.
Proof. classes. to_prop. lia. Qed.

Lemma upper_not_whitespace c : isUpper c = true -> isWhiteSpace c = false.
Proof. classes. to_prop. lia. Qed.

(** What a match of the separator tells. *)
Lemma separatorAt_Some before s ws rest :
  separatorAt before s = Some (ws, rest) ->
  lookbehindTerminal before = true
  /\ ws <> [] /\ Forall (fun c => isWhiteSpace c = true) ws
  /\ s = ws ++ rest /\ lookaheadUpper rest = true.
Proof.
  unfold separatorAt. destruct (lookbehindTerminal before); [|discriminate].
  pose proof (takeWhile_all isWhiteSpace s) as Hall.
  pose proof (takeWhile_dropWhile isWhiteSpace s) as Happ.
  destruct (takeWhile isWhiteSpace s) as [|w ws'] eqn:E; [discriminate|].
  destruct (lookaheadUpper (dropWhile isWhiteSpace s)) eqn:U; [|discriminate].
  intros H. inversion H; subst. repeat split; auto. discriminate.
Qed.

Lemma separatorAt_upper before s : lookaheadUpper s = true -> separatorAt before s = None.
Proof.
  intros H. unfold separatorAt. destruct (lookbehindTerminal before); [|reflexivity].
  destruct s as [|c s']; [discriminate|]. simpl in *.
  now rewrite (upper_not_whitespace c H).
Qed.

Lemma lookbehind_after_whitespace ws before :
  ws <> [] -> Forall (fun c => isWhiteSpace c = true) ws ->
  lookbehindTerminal (rev ws ++ before) = false.
Proof.
  intros Hne Hall. apply Forall_rev in Hall.
  destruct (rev ws) as [|w l] eqn:E.
  - apply (f_equal (@rev char)) in E. rewrite rev_involutive in E. simpl in E. congruence.
  - inversion Hall; subst. simpl. now apply whitespace_not_terminal.
Qed.

Lemma lookbehind_segment x b :
  lookbehindTerminal (rev x ++ b) = true -> lookbehindTerminal b = false ->
  lookbehindTerminal (rev x) = true.
Proof. destruct (rev x); simpl; [congruence | auto]. Qed.

Lemma splitLoop_endsOk fuel : forall before s, endsOk before (splitLoop fuel before s).
Proof.
  induction fuel as [|f IH]; intros before s; simpl.
  - split; [intros H; now contradiction H | constructor].
  - destruct s as [|c s']; [split; [intros H; now contradiction H | constructor]|].
    destruct (separatorAt before (c :: s')) as [[ws rest]|] eqn:E.
    + apply separatorAt_Some in E. destruct E as [Hb [Hne [Hws [_ _]]]].
      specialize (IH (rev ws ++ before) rest).
      pose proof (splitLoop_not_nil f (rev ws ++ before) rest) as Hnn.
      destruct (splitLoop f (rev ws ++ before) rest) as [|x r]; [congruence|].
      split; [intros _; exact Hb|].
      destruct IH as [Hx Hr]. destruct r as [|y r']; [constructor|].
      change (removelast (x :: y :: r')) with (x :: removelast (y :: r')).
      constructor; [|exact Hr].
      apply lookbehind_segment with (b := rev ws ++ before);
        [apply Hx; discriminate | now apply lookbehind_after_whitespace].
    + specialize (IH (c :: before) s').
      pose proof (splitLoop_not_nil f (c :: before) s') as Hnn.
      destruct (splitLoop f (c :: before) s') as [|x r]; [congruence|].
      simpl. destruct IH as [Hx Hr]. split; [|exact Hr].
      intros Hne. rewrite <- app_assoc. simpl. now apply Hx.
Qed.

Lemma splitLoop_head_upper fuel before s :
  lookaheadUpper s = true ->
  lookaheadUpper (hd [] (splitLoop fuel before s)) = true.
Proof.
  intros H. destruct fuel as [|f]; simpl; [assumption|].
  destruct s as [|c s']; [discriminate|].
  rewrite (separatorAt_upper before (c :: s') H).
  destruct (splitLoop f (c :: before) s'); exact H.
Qed.

Lemma splitLoop_tail_upper fuel : forall before s,
  Forall (fun seg => lookaheadUpper seg = true) (tl (splitLoop fuel before s)).
Proof.
  induction fuel as [|f IH]; intros before s; simpl; [constructor|].
  destruct s as [|c s']; [constructor|].
  destruct (separatorAt before (c :: s')) as [[ws rest]|] eqn:E.
  - apply separatorAt_Some in E. destruct E as [_ [_ [_ [_ Hu]]]].
    pose proof (splitLoop_head_upper f (rev ws ++ before) rest Hu) as Hh.
    specialize (IH (rev ws ++ before) rest). simpl.
    destruct (splitLoop f (rev ws ++ before) rest) as [|x r]; [constructor|].
    constructor; assumption.
  - specialize (IH (c :: before) s').
    destruct (splitLoop f (c :: before) s') as [|x r]; [constructor | exact IH].
Qed.

Lemma singleSpaced_tail c s : singleSpaced (c :: s) = true -> singleSpaced s = true.
Proof. simpl. intros H. apply andb_true_iff in H. tauto. Qed.

(** In a single-spaced text the separator is one space. *)
Lemma separatorAt_singleSpaced before c s ws rest :
  singleSpaced (c :: s) = true ->
  separatorAt before (c :: s) = Some (ws, rest) ->
  c = space /\ ws = [space] /\ rest = s.
Proof.
  intros Hs E. unfold separatorAt in E.
  destruct (lookbehindTerminal before); [|discriminate].
  simpl in Hs, E. destruct (isWhiteSpace c) eqn:W; [|discriminate].
  apply andb_true_iff in Hs. destruct Hs as [Hc _].
  apply andb_true_iff in Hc. destruct Hc as [Hc Hn].
  apply N.eqb_eq in Hc. apply negb_true_iff in Hn. subst c.
  assert (takeWhile isWhiteSpace s = [] /\ dropWhile isWhiteSpace s = s) as [T D].
  { destruct s as [|d s']; [auto|]. simpl in *. rewrite Hn. auto. }
  rewrite T, D in E. destruct (lookaheadUpper s); [|discriminate].
  inversion E; subst. auto.
Qed.

(** Joining the segments of a single-spaced text with single spaces gives
    the text back. *)
Lemma splitLoop_join fuel : forall before s,
  (List.length s <= fuel)%nat -> singleSpaced s = true ->
  join [space] (splitLoop fuel before s) = s.
Proof.
  induction fuel as [|f IH]; intros before s Hlen Hs.
  - destruct s; [reflexivity | simpl in Hlen; lia].
  - destruct s as [|c s']; [reflexivity|]. simpl.
    simpl in Hlen. pose proof (singleSpaced_tail c s' Hs) as Hs'.
    destruct (separatorAt before (c :: s')) as [[ws rest]|] eqn:E.
    + destruct (separatorAt_singleSpaced before c s' ws rest Hs E) as [-> [-> ->]].
      pose proof (splitLoop_not_nil f (rev [space] ++ before) s') as Hnn.
      specialize (IH (rev [space] ++ before) s').
      destruct (splitLoop f (rev [space] ++ before) s') as [|x r]; [congruence|].
      rewrite join_cons_cons. simpl. f_equal. apply IH; [lia | assumption].
    + rewrite join_consHead by apply splitLoop_not_nil.
      f_equal. apply IH; [lia | assumption].
Qed.

Lemma last_consHead c segs :
  segs <> [] -> last segs [] <> [] -> last (consHead c segs) [] <> [].
Proof.
  destruct segs as [|x [|y r]]; [congruence | simpl; discriminate | simpl; auto].
Qed.

(** A text that is not empty has a last segment that is not empty. *)
Lemma splitLoop_last fuel : forall before s,
  s <> [] -> last (splitLoop fuel before s) [] <> [].
Proof.
  induction fuel as [|f IH]; intros before s Hs; [exact Hs|].
  destruct s as [|c s']; [congruence|]. simpl.
  destruct (separatorAt before (c :: s')) as [[ws rest]|] eqn:E.
  - apply separatorAt_Some in E. destruct E as [_ [_ [_ [_ Hu]]]].
    pose proof (splitLoop_not_nil f (rev ws ++ before) rest) as Hnn.
    assert (rest <> []) as Hr by (destruct rest; [discriminate | discriminate]).
    specialize (IH (rev ws ++ before) rest Hr).
    destruct (splitLoop f (rev ws ++ before) rest) as [|x r]; [congruence | exact IH].
  - destruct s' as [|d s''].
    + destruct f; discriminate.
    + apply last_consHead; [apply splitLoop_not_nil | apply IH; discriminate].
Qed.

Lemma join_last sep segs : segs <> [] -> exists pre, join sep segs = pre ++ last segs [].
Proof.
  induction segs as [|x r IH]; intros Hne; [congruence|].
  destruct r as [|y r'].
  - exists []. reflexivity.
  - destruct IH as [pre Hpre]; [discriminate|].
    exists (x ++ sep ++ pre). rewrite join_cons_cons, Hpre.
    change (last (x :: y :: r') []) with (last (y :: r') []).
    now rewrite <- !app_assoc.
Qed.

Lemma removelast_ends segs :
  endsOk [] segs ->
  Forall (fun seg => lookbehindTerminal (rev seg) = true) (removelast segs).
Proof.
  destruct segs as [|x r]; [constructor|]. intros [Hx Hr].
  destruct r as [|y r']; [constructor|].
  change (removelast (x :: y :: r')) with (x :: removelast (y :: r')).
  constructor; [|exact Hr]. rewrite app_nil_r in Hx. apply Hx. discriminate.
Qed.

(** C7.  For a normalized text (whitespace collapsed to single spaces,
    trimmed) the split gives segments such that: joined with single spaces
    they are the text again; every segment but the last ends with [.], [!]
    or [?]; every segment but the first starts with an uppercase letter; the
    last segment is the tail of the text, and it is not empty when the text
    is not, so that an unterminated rest is kept. *)
Theorem splitSentences_normalized text :
  normalized text = true ->
  join [space] (splitSentences text) = text
  /\ Forall (fun seg => lookbehindTerminal (rev seg) = true)
       (removelast (splitSentences text))
  /\ Forall (fun seg => lookaheadUpper seg = true) (tl (splitSentences text))
  /\ (exists pre, text = pre ++ last (splitSentences text) [])
  /\ (text <> [] -> last (splitSentences text) [] <> []).
Proof.
  intros Hn. unfold normalized in Hn.
  apply andb_true_iff in Hn. destruct Hn as [Hn _].
  apply andb_true_iff in Hn. destruct Hn as [Hs _].
  assert (join [space] (splitSentences text) = text) as Hj
    by (apply splitLoop_join; [apply Nat.le_refl | exact Hs]).
  repeat split.
  - exact Hj.
  - apply removelast_ends, splitLoop_endsOk.
  - apply splitLoop_tail_upper.
  - destruct (join_last [space] (splitSentences text)) as [pre Hpre];
      [apply splitLoop_not_nil|].
    exists pre. now rewrite <- Hpre.
  - apply splitLoop_last.
Qed.

(** The cleaned text of a raw passage with line breaks, runs of blanks and
    punctuation: three segments, the last one an unterminated rest. *)
Lemma splitSentences_normalized_witness :
  let text :=
    Ocr.cleanedText
      (join [10]
         [js "  Hello   there.  World, is (big)!"; js "and small?  Yes. no one answered "]) in
  text = js "Hello there. World is big ! and small? Yes. no one answered"
  /\ splitSentences text
     = [js "Hello there."; js "World is big ! and small?"; js "Yes. no one answered"]
  /\ (join [space] (splitSentences text) = text
      /\ Forall (fun seg => lookbehindTerminal (rev seg) = true)
           (removelast (splitSentences text))
      /\ Forall (fun seg => lookaheadUpper seg = true) (tl (splitSentences text))
      /\ (exists pre, text = pre ++ last (splitSentences text) [])
      /\ (text <> [] -> last (splitSentences text) [] <> [])).
Proof.
  intros text. split; [|split].
  - vm_compute. reflexivity.
  - vm_compute. reflexivity.
  - apply (splitSentences_normalized text). vm_compute. reflexivity.
Defined.

(** The split loop never runs out of fuel. *)
Lemma separatorAt_shorter before s ws rest :
  separatorAt before s = Some (ws, rest) -> (List.length rest < List.length s)%nat.
Proof.
  intros H. apply separatorAt_Some in H. destruct H as [_ [Hne [_ [-> _]]]].
  rewrite length_app. destruct ws; [congruence | simpl; lia].
Qed.

Lemma splitLoop_fuel n : forall m before s,
  (List.length s <= n)%nat -> (List.length s <= m)%nat ->
  splitLoop n before s = splitLoop m before s.
Proof.
  induction n as [|n IH]; intros m before s Hn Hm.
  - destruct s; [|simpl in Hn; lia]. destruct m; reflexivity.
  - destruct m as [|m]; [destruct s; [reflexivity | simpl in Hm; lia]|].
    destruct s as [|c s']; [reflexivity|]. simpl. simpl in Hn, Hm.
    destruct (separatorAt before (c :: s')) as [[ws rest]|] eqn:E.
    + apply separatorAt_shorter in E. simpl in E. f_equal. apply IH; lia.
    + f_equal. apply IH; lia.
Qed.

(** The split as the loop of the runtime, without fuel. *)
Lemma splitLoop_step before c s :
  splitLoop (List.length (c :: s)) before (c :: s)
  = match separatorAt before (c :: s) with
    | Some (ws, rest) => [] :: splitLoop (List.length rest) (rev ws ++ before) rest
    | None => consHead c (splitLoop (List.length s) (c :: before) s)
    end.
Proof.
  simpl. destruct (separatorAt before (c :: s)) as [[ws rest]|] eqn:E; [|reflexivity].
  apply separatorAt_shorter in E. simpl in E. f_equal. apply splitLoop_fuel; lia.
Qed.

(** ** What the OCR-cleaning extractors return *)

Lemma replaceRuns_singleSpaced s : forall inRun,
  singleSpaced (replaceRunsFrom isWhiteSpace [space] inRun s) = true
  /\ (inRun = true -> startsWs (replaceRunsFrom isWhiteSpace [space] inRun s) = false).
Proof.
  induction s as [|c s IH]; intros inRun; simpl; [auto|].
  destruct (isWhiteSpace c) eqn:W.
  - destruct (IH true) as [H1 H2]. destruct inRun; simpl.
    + auto.
    + rewrite H1, (H2 eq_refl). split; [reflexivity | discriminate].
  - destruct (IH false) as [H1 _]. simpl. rewrite W, H1. auto.
Qed.

Lemma singleSpaced_app_r a b : singleSpaced (a ++ b) = true -> singleSpaced b = true.
Proof.
  induction a as [|c a IH]; simpl; [auto|].
  intros H. apply andb_true_iff in H. tauto.
Qed.

Lemma singleSpaced_app_l a b : singleSpaced (a ++ b) = true -> singleSpaced a = true.
Proof.
  induction a as [|c a IH]; simpl; [auto|].
  intros H. apply andb_true_iff in H. destruct H as [Hc Ha].
  rewrite (IH Ha), andb_true_r.
  destruct (isWhiteSpace c); [|reflexivity].
  apply andb_true_iff in Hc. destruct Hc as [Hc Hn]. rewrite Hc. simpl.
  destruct a as [|d a']; [reflexivity | exact Hn].
Qed.

Lemma singleSpaced_piece pre seg post :
  singleSpaced (pre ++ seg ++ post) = true -> singleSpaced seg = true.
Proof. intros H. apply singleSpaced_app_r in H. now apply singleSpaced_app_l in H. Qed.

Lemma forallb_piece (p : char -> bool) pre seg post :
  forallb p (pre ++ seg ++ post) = true -> forallb p seg = true.
Proof.
  rewrite !forallb_app. intros H.
  apply andb_true_iff in H. destruct H as [_ H].
  apply andb_true_iff in H. tauto.
Qed.

Lemma singleSpaced_noDoubleSpace s : singleSpaced s = true -> noDoubleSpace s = true.
Proof.
  induction s as [|a s IH]; [reflexivity|].
  intros H. pose proof (singleSpaced_tail a s H) as Ht.
  simpl in H. apply andb_true_iff in H. destruct H as [Ha _].
  destruct s as [|b s']; [reflexivity|].
  change (noDoubleSpace (a :: b :: s'))
    with (negb ((a =? 32) && (b =? 32)) && noDoubleSpace (b :: s')).
  rewrite (IH Ht), andb_true_r.
  destruct (N.eqb_spec a 32) as [->|]; [|reflexivity].
  destruct (N.eqb_spec b 32) as [->|]; [|reflexivity].
  simpl in Ha. discriminate.
Qed.

Lemma replaceEach_units s :
  forallb (fun c => isWhiteSpace c || sentenceUnit c) (replaceEach isSpecial space s) = true.
Proof.
  induction s as [|c s IH]; simpl; [reflexivity|].
  rewrite IH, andb_true_r. unfold isSpecial, sentenceUnit.
  destruct (isWord c) eqn:Hw, (isWhiteSpace c) eqn:Hs, (isTerminal c) eqn:Ht;
    simpl; rewrite ?Hw, ?Hs, ?Ht; simpl; try reflexivity;
    rewrite ?orb_true_r; reflexivity.
Qed.

Lemma replaceRuns_units s : forall inRun,
  forallb (fun c => isWhiteSpace c || sentenceUnit c) s = true ->
  forallb sentenceUnit (replaceRunsFrom isWhiteSpace [space] inRun s) = true.
Proof.
  induction s as [|c s IH]; intros inRun H; simpl; [reflexivity|].
  simpl in H. apply andb_true_iff in H. destruct H as [Hc Hs].
  destruct (isWhiteSpace c) eqn:W.
  - rewrite forallb_app, (IH true Hs), andb_true_r. destruct inRun; reflexivity.
  - simpl in Hc. simpl. now rewrite Hc, (IH false Hs).
Qed.

(** The cleaned text of the two later extractors is normalized and made of
    sentence units only. *)
Lemma ocrClean_normalized m : normalized (ocrClean m) = true.
Proof.
  unfold normalized, ocrClean.
  rewrite trim_startsWs, trim_endsWs. simpl. rewrite !andb_true_r.
  match goal with |- singleSpaced (trim ?x) = true => set (y := x) end.
  destruct (trim_split y) as [a [b Hab]].
  apply singleSpaced_piece with (pre := a) (post := b). rewrite <- Hab.
  apply replaceRuns_singleSpaced.
Qed.

Lemma ocrClean_units m : forallb sentenceUnit (ocrClean m) = true.
Proof.
  unfold ocrClean.
  match goal with |- forallb _ (trim ?x) = true => set (y := x) end.
  destruct (trim_split y) as [a [b Hab]].
  apply forallb_piece with (pre := a) (post := b). rewrite <- Hab.
  apply replaceRuns_units, replaceEach_units.
Qed.

Lemma splitLoop_segmentsOf fuel : forall before s, segmentsOf s (splitLoop fuel before s).
Proof.
  induction fuel as [|f IH]; intros before s; simpl.
  - split; [exists []; now rewrite app_nil_r | constructor].
  - destruct s as [|c s']; [split; [now exists [] | constructor]|].
    destruct (separatorAt before (c :: s')) as [[ws rest]|] eqn:E.
    + apply separatorAt_Some in E. destruct E as [_ [_ [_ [Hs _]]]].
      specialize (IH (rev ws ++ before) rest).
      destruct (splitLoop f (rev ws ++ before) rest) as [|x r]; [contradiction|].
      destruct IH as [[post Hx] Hr]. split; [now exists (c :: s')|].
      constructor.
      * exists ws, post. now rewrite Hs, Hx.
      * eapply Forall_impl; [|exact Hr]. intros seg [pre [post' Hseg]].
        exists (ws ++ pre), post'. now rewrite Hs, Hseg, <- app_assoc.
    + specialize (IH (c :: before) s').
      destruct (splitLoop f (c :: before) s') as [|x r]; [contradiction|].
      destruct IH as [[post Hx] Hr]. simpl. split.
      * exists post. now rewrite Hx.
      * eapply Forall_impl; [|exact Hr]. intros seg [pre [post' Hseg]].
        exists (c :: pre), post'. now rewrite Hseg.
Qed.

Lemma splitSentences_piece s seg :
  In seg (splitSentences s) -> exists pre post, s = pre ++ seg ++ post.
Proof.
  intros Hin. pose proof (splitLoop_segmentsOf (List.length s) [] s) as H.
  unfold splitSentences in Hin.
  destruct (splitLoop (List.length s) [] s) as [|x r]; [contradiction|].
  destruct H as [[post Hx] Hr]. destruct Hin as [<-|Hin].
  - now exists [], post.
  - rewrite Forall_forall in Hr. now apply Hr.
Qed.

Lemma sentenceUnit_no_symbol c :
  sentenceUnit c = true -> c <> 44 /\ c <> 39 /\ c <> 34.
Proof. unfold sentenceUnit. classes. to_prop. lia. Qed.

Lemma units_no_symbol s :
  forallb sentenceUnit s = true -> ~ In 44 s /\ ~ In 39 s /\ ~ In 34 s.
Proof.
  intros H. rewrite forallb_forall in H.
  repeat split; intros Hin; apply H in Hin; apply sentenceUnit_no_symbol in Hin; lia.
Qed.

Lemma cleaned_sentences (acc : str -> bool) m :
  Forall
    (fun s => cleanSentence s = true /\ ~ In 44 s /\ ~ In 39 s /\ ~ In 34 s)
    (filter acc (map trim (splitSentences (ocrClean m)))).
Proof.
  apply Forall_forall. intros s Hs.
  apply filter_In in Hs. destruct Hs as [Hin _].
  apply in_map_iff in Hin. destruct Hin as [seg [<- Hseg]].
  apply splitSentences_piece in Hseg. destruct Hseg as [pre [post Hc]].
  destruct (trim_split seg) as [a [b Hab]].
  pose proof (ocrClean_units m) as Hu. rewrite Hc in Hu.
  apply forallb_piece in Hu. rewrite Hab in Hu. apply forallb_piece in Hu.
  pose proof (ocrClean_normalized m) as Hn. unfold normalized in Hn.
  apply andb_true_iff in Hn. destruct Hn as [Hn _].
  apply andb_true_iff in Hn. destruct Hn as [Hn _].
  rewrite Hc in Hn. apply singleSpaced_piece in Hn.
  rewrite Hab in Hn. apply singleSpaced_piece in Hn.
  split; [|now apply units_no_symbol].
  unfold cleanSentence.
  now rewrite Hu, trim_startsWs, trim_endsWs, (singleSpaced_noDoubleSpace _ Hn).
Qed.

(** C10.  In the two OCR-cleaning revisions every returned sentence consists
    of ASCII word characters, single spaces and [.!?] only, has no
    whitespace at either end and no two spaces side by side; in particular
    it holds no comma, apostrophe or double quote. *)
Theorem extractSentences_clean_sentences u t :
  Forall
    (fun s => cleanSentence s = true /\ ~ In 44 s /\ ~ In 39 s /\ ~ In 34 s)
    (Ocr.extractSentences u t)
  /\ Forall
       (fun s => cleanSentence s = true /\ ~ In 44 s /\ ~ In 39 s /\ ~ In 34 s)
       (Markup.extractSentences u t).
Proof. split; apply cleaned_sentences. Qed.

(** ** The pattern matcher on literals and on sample lines *)

(** On a literal the matcher is the prefix test, and [test] is [includes]. *)
Lemma exec_literal (l : str) : forall b s,
  exec (Seq (map (fun p => Cls (N.eqb p)) l)) b s (fun _ _ => true) = startsWith l s.
Proof.
  induction l as [|p l IH]; intros b s; [reflexivity|].
  destruct s as [|c s]; [reflexivity|]. simpl.
  destruct (p =? c); [apply IH | reflexivity].
Qed.

Lemma test_literal (l : str) (s : str) :
  test (Seq (map (fun p => Cls (N.eqb p)) l)) s = includes s l.
Proof.
  unfold test. generalize true.
  induction s as [|c s IH]; intros b; simpl; rewrite exec_literal.
  - destruct (startsWith l []); reflexivity.
  - destruct (startsWith l (c :: s)); [reflexivity | apply IH].
Qed.

(** The noise filter of the markup-aware revision on typical lines: style
    rules, tags, script statements and vendor prefixes are dropped, prose
    and license lines are kept. *)
Lemma keepLine_examples :
  map Markup.keepLine
    (map js
       [ ".nav-menu { display: flex; margin: 10px; }"; "#header"; ".btn primary {";
         "color: red"; "Margin notes"; "div.content"; "<div class=x>"; "text </p>";
         "{ a }"; "Shadow DOM tree"; "styles for print"; "-webkit-box";
         "var = 1"; "function ("; "width: 12px"; "fill: #fff"; "bg: rgba(0,0,0)";
         "{}();"; "12 {" ]%string)
  = repeat false 19
  /\ map Markup.keepLine
       (map js
          [ ""; "It was a dark and stormy night."; "Project Gutenberg"; "Copyright";
            "var x = 1"; "a width of 12px."; "The colour #12 was used." ]%string)
     = repeat true 7.
Proof. vm_compute. split; reflexivity. Qed.

(** * Further properties of the route *)

(** ** The content filter: tails and short documents *)

Lemma join_app sep a b :
  a <> [] -> b <> [] -> join sep (a ++ b) = join sep a ++ sep ++ join sep b.
Proof.
  induction a as [|x a IH]; intros Ha Hb; [congruence|].
  destruct a as [|y a'].
  - simpl. destruct b; [congruence | reflexivity].
  - change ((x :: y :: a') ++ b) with (x :: (y :: a') ++ b).
    change ((y :: a') ++ b) with (y :: a' ++ b) at 1.
    rewrite join_cons_cons. change (y :: a' ++ b) with ((y :: a') ++ b).
    rewrite IH by (assumption || discriminate).
    rewrite join_cons_cons. now rewrite <- !app_assoc.
Qed.

Lemma join_skipn_suffix (k : nat) (ls : list str) :
  exists pre, join [10] ls = pre ++ join [10] (skipn k ls).
Proof.
  destruct (skipn k ls) as [|x r] eqn:E.
  - exists (join [10] ls). now rewrite app_nil_r.
  - destruct (firstn k ls) as [|y f] eqn:F.
    + exists []. rewrite <- (firstn_skipn k ls), F, E. reflexivity.
    + exists (join [10] (y :: f) ++ [10]).
      rewrite <- (firstn_skipn k ls) at 1. rewrite F, E.
      rewrite join_app by discriminate. now rewrite <- app_assoc.
Qed.

(** X1.  Without a noise filter the output of the content filter is a tail
    of the text: nothing is inserted, reordered or cut inside a line. *)
Theorem filterMainContent_is_tail text :
  (exists pre, text = pre ++ Ocr.filterMainContent text)
  /\ (exists pre, text = pre ++ Early.filterMainContent text).
Proof.
  assert (exists pre, text = pre ++ Ocr.filterMainContent text) as H.
  { destruct (join_skipn_suffix (Ocr.skipLines text) (Ocr.lines text)) as [pre Hpre].
    exists pre. unfold Ocr.lines in Hpre at 1. now rewrite join_splitOn in Hpre. }
  split; exact H.
Qed.

Lemma floorPercent_15_small n : (n < 7)%nat -> floorPercent 15 n = 0%nat.
Proof.
  intros H. unfold floorPercent.
  assert (15 * N.of_nat n / 100 = 0) as E by (apply N.div_small; lia).
  now rewrite E.
Qed.

(** X2.  A text of fewer than seven lines loses nothing to the 15% rule: the
    two plain filters return it unchanged, and the markup-aware one returns
    the lines that pass the noise filter. *)
Theorem filterMainContent_short_text text :
  (List.length (Ocr.lines text) < 7)%nat ->
  Ocr.filterMainContent text = text
  /\ Early.filterMainContent text = text
  /\ Markup.contentLines text = filter Markup.keepLine (Ocr.lines text).
Proof.
  intros H.
  assert (Ocr.filterMainContent text = text) as E.
  { unfold Ocr.filterMainContent, Ocr.filterMainContentWith, Ocr.contentLines,
      Ocr.skipLines. rewrite floorPercent_15_small by exact H.
    apply join_splitOn. }
  repeat split; try exact E.
  unfold Markup.contentLines, Markup.skipLines, Markup.lines.
  rewrite floorPercent_15_small; [reflexivity|].
  eapply Nat.le_lt_trans; [apply filter_length_le | exact H].
Qed.

Lemma filterMainContent_short_text_witness :
  let text := join [10] [js "Title"; js "<b>"; js "It was late."; js ""; js "The end."] in
  Ocr.filterMainContent text = text
  /\ Early.filterMainContent text = text
  /\ Markup.contentLines text = filter Markup.keepLine (Ocr.lines text).
Proof.
  intros text. apply (filterMainContent_short_text text). vm_compute. lia.
Defined.


(** ** The sentence split: where it cuts and what the trim does *)

Lemma separatorAt_no_upper before s :
  forallb (fun c => negb (isUpper c)) s = true -> separatorAt before s = None.
Proof.
  intros H. destruct (separatorAt before s) as [[ws rest]|] eqn:E; [|reflexivity].
  apply separatorAt_Some in E. destruct E as [_ [_ [_ [Hs Hu]]]].
  rewrite Hs, forallb_app in H. apply andb_true_iff in H. destruct H as [_ H].
  destruct rest as [|c r]; [discriminate|]. simpl in H, Hu. rewrite Hu in H. discriminate.
Qed.

Lemma splitLoop_no_upper fuel : forall before s,
  forallb (fun c => negb (isUpper c)) s = true -> splitLoop fuel before s = [s].
Proof.
  induction fuel as [|f IH]; intros before s H; [reflexivity|].
  destruct s as [|c s']; [reflexivity|]. simpl.
  rewrite (separatorAt_no_upper before (c :: s') H).
  simpl in H. apply andb_true_iff in H. destruct H as [_ H].
  now rewrite IH.
Qed.

Lemma splitLoop_no_terminal fuel : forall before s,
  lookbehindTerminal before = false ->
  forallb (fun c => negb (isTerminal c)) s = true -> splitLoop fuel before s = [s].
Proof.
  induction fuel as [|f IH]; intros before s Hb H; [reflexivity|].
  destruct s as [|c s']; [reflexivity|]. simpl.
  unfold separatorAt. rewrite Hb.
  simpl in H. apply andb_true_iff in H. destruct H as [Hc H].
  rewrite IH; [reflexivity | simpl; now apply negb_true_iff in Hc | exact H].
Qed.

(** X4.  The split never cuts a text that has no [.], [!] or [?], nor one
    that has no uppercase letter: the text comes back as the only segment. *)
Theorem splitSentences_single_segment text :
  forallb (fun c => negb (isTerminal c)) text = true
  \/ forallb (fun c => negb (isUpper c)) text = true ->
  splitSentences text = [text].
Proof.
  intros [H|H].
  - now apply splitLoop_no_terminal.
  - now apply splitLoop_no_upper.
Qed.

Lemma splitSentences_single_segment_witness :
  splitSentences (js "no capital follows. so nothing is cut! really? yes.")
  = [js "no capital follows. so nothing is cut! really? yes."]
  /\ splitSentences (js "Chapter One and Chapter Two") = [js "Chapter One and Chapter Two"].
Proof.
  split; apply splitSentences_single_segment; [right | left]; reflexivity.
Defined.

Lemma collapsed_singleSpaced m : singleSpaced (Early.collapsed m) = true.
Proof. unfold Early.collapsed. apply replaceRuns_singleSpaced. Qed.

Lemma ocrClean_singleSpaced m : singleSpaced (ocrClean m) = true.
Proof.
  pose proof (ocrClean_normalized m) as H. unfold normalized in H.
  apply andb_true_iff in H. destruct H as [H _].
  apply andb_true_iff in H. tauto.
Qed.

(** X5.  In every revision the candidate segments, joined by single spaces,
    are the cleaned text again: cleaning followed by splitting loses no unit
    and repeats none, also in the first revision, whose text is not
    trimmed. *)
Theorem candidates_rejoin mainContent :
  join [space] (splitSentences (Ocr.cleanedText mainContent)) = Ocr.cleanedText mainContent
  /\ join [space] (splitSentences (Markup.cleanedText mainContent))
     = Markup.cleanedText mainContent
  /\ join [space] (splitSentences (Early.collapsed mainContent))
     = Early.collapsed mainContent.
Proof.
  repeat split; apply splitLoop_join; try apply Nat.le_refl;
    try apply ocrClean_singleSpaced; apply collapsed_singleSpaced.
Qed.

Lemma endsWs_app_r a b : b <> [] -> endsWs (a ++ b) = endsWs b.
Proof.
  intros Hb. unfold endsWs. rewrite rev_app_distr.
  destruct (rev b) as [|c r] eqn:E; [|reflexivity].
  apply (f_equal (@rev char)) in E. rewrite rev_involutive in E. simpl in E. congruence.
Qed.

Lemma Forall_removelast_last (A : Type) (P : A -> Prop) (l : list A) (d : A) :
  l <> [] -> Forall P (removelast l) -> P (last l d) -> Forall P l.
Proof.
  intros Hne Hr Hl. rewrite (app_removelast_last d Hne).
  apply Forall_app. split; [exact Hr | constructor; [exact Hl | constructor]].
Qed.

Lemma terminal_head_not_whitespace l : lookbehindTerminal l = true -> startsWs l = false.
Proof.
  destruct l as [|c r]; [reflexivity|]. simpl. intros Ht.
  destruct (isWhiteSpace c) eqn:W; [|reflexivity].
  apply whitespace_not_terminal in W. congruence.
Qed.

(** The segments of a normalized text have no whitespace at either end. *)
Lemma normalized_segments_trimmed text :
  normalized text = true ->
  Forall (fun seg => startsWs seg = false /\ endsWs seg = false) (splitSentences text).
Proof.
  intros Hn. unfold normalized in Hn.
  apply andb_true_iff in Hn. destruct Hn as [Hn He].
  apply andb_true_iff in Hn. destruct Hn as [Hss Hs].
  apply negb_true_iff in Hs, He.
  pose proof (splitLoop_join (List.length text) [] text (Nat.le_refl _) Hss) as Hj.
  fold (splitSentences text) in Hj.
  assert (Forall (fun seg => startsWs seg = false) (splitSentences text)) as Hstart.
  { pose proof (splitLoop_segmentsOf (List.length text) [] text) as Hseg.
    pose proof (splitLoop_tail_upper (List.length text) [] text) as Hup.
    unfold splitSentences.
    destruct (splitLoop (List.length text) [] text) as [|x r]; [constructor|].
    destruct Hseg as [[post Hx] _]. constructor.
    - destruct x as [|c x']; [reflexivity|]. rewrite Hx in Hs. exact Hs.
    - simpl in Hup. eapply Forall_impl; [|exact Hup].
      intros seg Hu. destruct seg as [|c seg']; [discriminate|].
      change (isUpper c = true) in Hu. change (isWhiteSpace c = false).
      now apply upper_not_whitespace. }
  assert (Forall (fun seg => endsWs seg = false) (splitSentences text)) as Hend.
  { apply Forall_removelast_last with (d := []).
    - apply splitLoop_not_nil.
    - pose proof (removelast_ends _ (splitLoop_endsOk (List.length text) [] text)) as Hr.
      eapply Forall_impl; [|exact Hr].
      intros seg Ht. now apply terminal_head_not_whitespace.
    - destruct (join_last [space] (splitSentences text)) as [pre Hpre];
        [apply splitLoop_not_nil|].
      rewrite Hj in Hpre.
      destruct (last (splitSentences text) []) as [|c l] eqn:El; [reflexivity|].
      rewrite Hpre, endsWs_app_r in He by discriminate. exact He. }
  rewrite Forall_forall in *. intros seg Hin. split; auto.
Qed.

Lemma map_trim_id segs :
  Forall (fun seg => startsWs seg = false /\ endsWs seg = false) segs ->
  map trim segs = segs.
Proof.
  induction 1 as [|x l [H1 H2] _ IH]; [reflexivity|].
  simpl. now rewrite trim_id, IH.
Qed.

(** X6.  In the two OCR-cleaning revisions the [trim] applied to each
    segment changes nothing, because the text is trimmed before the split
    and a cut leaves a terminal unit on its left and an uppercase letter on
    its right: the result is the split of the cleaned text, filtered. *)
Theorem trim_after_split_is_identity u text :
  Ocr.extractSentences u text
  = filter (Ocr.accept u) (splitSentences (Ocr.cleanedText (Ocr.filterMainContent text)))
  /\ Markup.extractSentences u text
     = filter (Markup.accept u)
         (splitSentences (Markup.cleanedText (Markup.filterMainContent text))).
Proof.
  unfold Ocr.extractSentences, Markup.extractSentences, Ocr.cleanedText,
    Markup.cleanedText.
  split; rewrite map_trim_id; try reflexivity;
    apply normalized_segments_trimmed, ocrClean_normalized.
Qed.

(** ** The sentences: pieces of the cleaned text *)

Lemma isPiece_trans a b c : isPiece a b -> isPiece b c -> isPiece a c.
Proof.
  intros [p1 [q1 H1]] [p2 [q2 H2]]. exists (p2 ++ p1), (q1 ++ q2).
  rewrite H2, H1. now rewrite <- !app_assoc.
Qed.

Lemma isPiece_length a b : isPiece a b -> (List.length a <= List.length b)%nat.
Proof. intros [p [q H]]. rewrite H, !length_app. lia. Qed.

Lemma candidates_are_pieces (acc : str -> bool) cleaned :
  Forall (fun s => isPiece s cleaned) (filter acc (map trim (splitSentences cleaned))).
Proof.
  apply Forall_forall. intros s Hs.
  apply filter_In in Hs. destruct Hs as [Hin _].
  apply in_map_iff in Hin. destruct Hin as [seg [<- Hseg]].
  apply isPiece_trans with (b := seg).
  - destruct (trim_split seg) as [a [b Hab]]. now exists a, b.
  - now apply splitSentences_piece.
Qed.

(** X7.  Every returned sentence is a contiguous piece of the cleaned text
    of its revision: the extractor selects, it never rewrites or joins. *)
Theorem sentences_are_pieces u text :
  Forall (fun s => isPiece s (Ocr.cleanedText (Ocr.filterMainContent text)))
    (Ocr.extractSentences u text)
  /\ Forall (fun s => isPiece s (Markup.cleanedText (Markup.filterMainContent text)))
       (Markup.extractSentences u text)
  /\ Forall (fun s => isPiece s (Early.collapsed (Early.filterMainContent text)))
       (Early.extractSentences u text).
Proof. repeat split; apply candidates_are_pieces. Qed.

Lemma replaceRuns_length p by_ s : forall inRun,
  (List.length by_ <= 1)%nat ->
  (List.length (replaceRunsFrom p by_ inRun s) <= List.length s)%nat.
Proof.
  induction s as [|c s IH]; intros inRun Hb; simpl; [lia|].
  destruct (p c).
  - rewrite length_app. specialize (IH true Hb). destruct inRun; simpl; lia.
  - simpl. specialize (IH false Hb). lia.
Qed.

Lemma trim_length s : (List.length (trim s) <= List.length s)%nat.
Proof. apply isPiece_length. destruct (trim_split s) as [a [b H]]. now exists a, b. Qed.

Lemma ocrClean_length m : (List.length (ocrClean m) <= List.length m)%nat.
Proof.
  unfold ocrClean. eapply Nat.le_trans; [apply trim_length|].
  eapply Nat.le_trans; [apply replaceRuns_length; simpl; lia|].
  unfold replaceEach. rewrite length_map.
  eapply Nat.le_trans; [apply replaceRuns_length; simpl; lia|].
  apply replaceRuns_length. simpl. lia.
Qed.

Lemma collapsed_length m : (List.length (Early.collapsed m) <= List.length m)%nat.
Proof.
  unfold Early.collapsed.
  eapply Nat.le_trans; [apply replaceRuns_length; simpl; lia|].
  apply replaceRuns_length. simpl. lia.
Qed.

Lemma Subseq_not_nil (A : Type) (a b : list A) : Subseq a b -> a <> [] -> b <> [].
Proof. intros H Ha. destruct H; [congruence | discriminate | discriminate]. Qed.

Lemma join_length_cons sep x l :
  List.length (join sep (x :: l))
  = (List.length x
     + match l with [] => 0 | _ :: _ => List.length sep + List.length (join sep l) end)%nat.
Proof.
  destruct l as [|y l']; [simpl; lia|].
  rewrite join_cons_cons, !length_app. reflexivity.
Qed.

Lemma join_length_Subseq sep (a b : list str) :
  Subseq a b -> (List.length (join sep a) <= List.length (join sep b))%nat.
Proof.
  induction 1 as [|x l1 l2 H IH|x l1 l2 H IH]; [lia| |].
  - rewrite (join_length_cons sep x l2). destruct l2; [|lia].
    inversion H; subst. simpl. lia.
  - rewrite !join_length_cons. destruct l1 as [|y l1'].
    + destruct l2; lia.
    + pose proof (Subseq_not_nil _ _ _ H) as Hn.
      destruct l2; [exfalso; apply Hn; [discriminate | reflexivity] | lia].
Qed.

Lemma filterMainContent_length text :
  (List.length (Ocr.filterMainContent text) <= List.length text)%nat
  /\ (List.length (Markup.filterMainContent text) <= List.length text)%nat
  /\ (List.length (Early.filterMainContent text) <= List.length text)%nat.
Proof.
  assert (forall ls, Subseq ls (splitOn 10 text) ->
                     (List.length (join [10%N] ls) <= List.length text)%nat) as H.
  { intros ls Hs. rewrite <- (join_splitOn text) at 1. now apply join_length_Subseq. }
  repeat split; apply H.
  - apply Subseq_skipn.
  - apply Subseq_trans with (l2 := filter Markup.keepLine (splitOn 10 text));
      [apply Subseq_skipn | apply Subseq_filter].
  - apply Subseq_skipn.
Qed.

Lemma sentences_not_longer u text :
  Forall (fun s => (List.length s <= List.length text)%nat) (Ocr.extractSentences u text)
  /\ Forall (fun s => (List.length s <= List.length text)%nat)
       (Markup.extractSentences u text)
  /\ Forall (fun s => (List.length s <= List.length text)%nat)
       (Early.extractSentences u text).
Proof.
  destruct (filterMainContent_length text) as [L1 [L2 L3]].
  repeat split; (eapply Forall_impl; [|apply candidates_are_pieces]);
    intros s Hs; apply isPiece_length in Hs;
    (eapply Nat.le_trans; [exact Hs|]);
    (eapply Nat.le_trans; [apply ocrClean_length || apply collapsed_length|]);
    assumption.
Qed.

Lemma Forall_absurd_nil (A : Type) (P Q : A -> Prop) (l : list A) :
  Forall P l -> Forall Q l -> (forall x, P x -> Q x -> False) -> l = [].
Proof.
  intros HP HQ H. destruct l as [|x l]; [reflexivity|].
  inversion HP; inversion HQ; subst. exfalso. eauto.
Qed.

(** X8.  A text shorter than the shortest admissible sentence gives no
    sentence: cleaning never lengthens a text and a sentence is a piece of
    the cleaned text. *)
Theorem short_text_gives_nothing u text :
  (List.length text < 15)%nat ->
  Ocr.extractSentences u text = []
  /\ Markup.extractSentences u text = []
  /\ Early.extractSentences u text = [].
Proof.
  intros Hlen. destruct (sentences_not_longer u text) as [S1 [S2 S3]].
  repeat split.
  - apply (Forall_absurd_nil _ _ _ _ S1 (filter_map_trim_Forall (Ocr.accept u) _ _
             (fun s Ha _ => proj1 (Ocr_accept_sound u s Ha)))).
    intros s H1 H2. lia.
  - apply (Forall_absurd_nil _ _ _ _ S2 (filter_map_trim_Forall (Markup.accept u) _ _
             (fun s Ha _ => proj1 (Markup_accept_sound u s Ha)))).
    intros s H1 H2. lia.
  - apply (Forall_absurd_nil _ _ _ _ S3 (filter_map_trim_Forall (Early.accept u) _ _
             (fun s Ha _ => proj1 (Early_accept_sound u s Ha)))).
    intros s H1 H2. lia.
Qed.

Lemma short_text_gives_nothing_witness :
  let u : str -> char -> str -> str := fun _ c _ => [c] in
  let text := js "Too short. Yes" in
  Ocr.extractSentences u text = []
  /\ Markup.extractSentences u text = []
  /\ Early.extractSentences u text = [].
Proof.
  intros u text. apply (short_text_gives_nothing u text). vm_compute. lia.
Defined.

(** X9.  The sentences of the first revision have their whitespace
    collapsed: every whitespace unit is a single space between two other
    units, so no line break, tab or double space is returned. *)
Theorem Early_sentences_single_spaced u text :
  Forall
    (fun s => singleSpaced s = true /\ startsWs s = false /\ endsWs s = false
              /\ noDoubleSpace s = true)
    (Early.extractSentences u text).
Proof.
  apply Forall_forall. intros s Hs.
  pose proof (candidates_are_pieces (Early.accept u)
                (Early.collapsed (Early.filterMainContent text))) as Hp.
  rewrite Forall_forall in Hp. destruct (Hp s Hs) as [pre [post Hc]].
  pose proof (collapsed_singleSpaced (Early.filterMainContent text)) as Hss.
  rewrite Hc in Hss. apply singleSpaced_piece in Hss.
  apply filter_In in Hs. destruct Hs as [Hin _].
  apply in_map_iff in Hin. destruct Hin as [seg [<- _]].
  repeat split; auto using trim_startsWs, trim_endsWs, singleSpaced_noDoubleSpace.
Qed.

(** ** The markup-aware sentence filter: full stops and tests that never fire *)

Lemma Markup_accept_tests u s :
  Markup.accept u s = true ->
  Markup.hasExcludedKeyword u s = false
  /\ test Markup.selectorChain s = false
  /\ test Markup.styleToken s = false
  /\ test Markup.braceBlock s = false
  /\ test Markup.displayValue s = false
  /\ (includes s (js ".") && Nat.ltb 5 (List.length (splitOn 46 s))) = false.
Proof.
  unfold Markup.accept.
  destruct (_ || _); [discriminate|].
  destruct (Markup.hasExcludedKeyword u s); [discriminate|].
  destruct (test Markup.selectorChain s); [discriminate|].
  destruct (test Markup.styleToken s); [discriminate|].
  destruct (test Markup.braceBlock s); [discriminate|].
  destruct (test Markup.displayValue s); [discriminate|].
  destruct (includes s (js ".") && _); [discriminate|].
  intros _. repeat split.
Qed.

(** [s.split('.')] has one part more than [s] has full stops. *)
Lemma splitOn_length_count sep s :
  List.length (splitOn sep s) = S (countUnit sep s).
Proof.
  unfold countUnit. induction s as [|c s IH]; [reflexivity|]. simpl.
  rewrite (N.eqb_sym sep c). destruct (c =? sep).
  - simpl. now rewrite IH.
  - pose proof (splitOn_not_nil sep s) as Hn.
    destruct (splitOn sep s); [congruence | exact IH].
Qed.

Lemma includes_unit_false c s : includes s [c] = false -> countUnit c s = 0%nat.
Proof.
  unfold countUnit. induction s as [|x s IH]; [reflexivity|]. simpl.
  destruct (c =? x); [discriminate | exact IH].
Qed.

(** X10.  A sentence returned by the markup-aware revision has at most four
    full stops. *)
Theorem Markup_sentences_few_full_stops u text :
  Forall (fun s => (fullStops s <= 4)%nat) (Markup.extractSentences u text).
Proof.
  apply filter_map_trim_Forall. intros s Ha _.
  apply Markup_accept_tests in Ha. destruct Ha as [_ [_ [_ [_ [_ Hd]]]]].
  unfold fullStops. apply andb_false_iff in Hd. destruct Hd as [Hd|Hd].
  - change (js ".") with [46] in Hd. apply includes_unit_false in Hd.
    rewrite Hd. lia.
  - rewrite splitOn_length_count in Hd. apply Nat.ltb_ge in Hd. lia.
Qed.

Lemma exec_Cat_Cat_Cls p q r b s k :
  exec (Cat (Cat (Cls p) q) r) b s k
  = match s with
    | [] => false
    | c :: s' => if p c then exec q false s' (fun b' s'' => exec r b' s'' k) else false
    end.
Proof. destruct s; reflexivity. Qed.

Lemma searchFrom_step r b s :
  searchFrom r b s
  = if exec r b s (fun _ _ => true) then true
    else match s with
         | [] => false
         | _ :: s' => searchFrom r false s'
         end.
Proof. destruct s; reflexivity. Qed.

Lemma search_needs_first_unit p q r s : forall b,
  forallb (fun c => negb (p c)) s = true ->
  searchFrom (Cat (Cat (Cls p) q) r) b s = false.
Proof.
  induction s as [|c s IH]; intros b H; rewrite searchFrom_step, exec_Cat_Cat_Cls.
  - reflexivity.
  - simpl in H. apply andb_true_iff in H. destruct H as [Hc H].
    apply negb_true_iff in Hc. rewrite Hc. now apply IH.
Qed.

Lemma exec_ci_literal (l : str) : forall b s k,
  exec (fold_right Cat Eps (map (fun p => Cls (fun c => asciiLower c =? asciiLower p)) l))
    b s k = true ->
  startsWithCI l s = true.
Proof.
  induction l as [|p l IH]; intros b s k H; [reflexivity|].
  destruct s as [|c s]; [discriminate|]. simpl in H |- *.
  rewrite (N.eqb_sym (asciiLower p) (asciiLower c)).
  destruct (asciiLower c =? asciiLower p); [|discriminate]. eapply IH. exact H.
Qed.

Lemma search_ci_literal (l : str) r s : forall b,
  searchFrom
    (Cat (fold_right Cat Eps (map (fun p => Cls (fun c => asciiLower c =? asciiLower p)) l)) r)
    b s = true ->
  includesCI s l = true.
Proof.
  induction s as [|c s IH]; intros b H; rewrite searchFrom_step in H.
  - destruct (exec _ b [] _) eqn:E; [|discriminate].
    change (exec _ b [] _)
      with (exec
              (fold_right Cat Eps
                 (map (fun p => Cls (fun c => asciiLower c =? asciiLower p)) l))
              b [] (fun b' s' => exec r b' s' (fun _ _ => true))) in E.
    apply exec_ci_literal in E. simpl. now rewrite E.
  - destruct (exec _ b (c :: s) _) eqn:E.
    + change (exec _ b (c :: s) _)
        with (exec
                (fold_right Cat Eps
                   (map (fun p => Cls (fun c => asciiLower c =? asciiLower p)) l))
                b (c :: s) (fun b' s' => exec r b' s' (fun _ _ => true))) in E.
      apply exec_ci_literal in E. simpl includesCI. now rewrite E.
    + apply IH in H. simpl includesCI.
      destruct (startsWithCI l (c :: s)); [reflexivity | exact H].
Qed.

(** X11.  Two tests of the markup-aware sentence filter never reject a
    candidate: the brace-block test, because braces are replaced by spaces
    before the split, and the [display] test, because it is only reached
    by sentences that the deny-list, which holds ["display"], let pass. *)
Theorem Markup_tests_that_never_fire u mainContent :
  Forall
    (fun s =>
       test Markup.braceBlock s = false
       /\ (Markup.hasExcludedKeyword u s = false -> test Markup.displayValue s = false))
    (map trim (splitSentences (Markup.cleanedText mainContent))).
Proof.
  apply Forall_forall. intros s Hs. split.
  - pose proof (cleaned_sentences (fun _ => true) mainContent) as Hc.
    rewrite Forall_forall in Hc.
    assert (In s (filter (fun _ => true) (map trim (splitSentences (ocrClean mainContent)))))
      as Hin by (apply filter_In; split; [exact Hs | reflexivity]).
    destruct (Hc s Hin) as [Hclean _]. unfold cleanSentence in Hclean.
    apply andb_true_iff in Hclean. destruct Hclean as [Hclean _].
    apply andb_true_iff in Hclean. destruct Hclean as [Hclean _].
    apply andb_true_iff in Hclean. destruct Hclean as [Hu _].
    unfold test.
    change Markup.braceBlock
      with (Cat (Cat (Cls (N.eqb 123)) Eps)
              (Cat (Star Any) (Cat (Cat (Cls (N.eqb 125)) Eps) Eps))).
    apply search_needs_first_unit.
    rewrite forallb_forall in *. intros c Hc'. specialize (Hu c Hc').
    apply negb_true_iff. apply N.eqb_neq. intros <-. discriminate.
  - intros Hk. destruct (test Markup.displayValue s) eqn:E; [|reflexivity].
    apply search_ci_literal in E.
    apply (deny_list_sound u Markup.excludeKeywords s eq_refl) in Hk.
    rewrite Forall_forall in Hk.
    assert (In (js "display") Markup.excludeKeywords) as Hin by (vm_compute; tauto).
    destruct (Hk _ Hin) as [_ Hci]. congruence.
Qed.

(** ** Texts without letters *)

Lemma splitOn_lines_forallb (q : char -> bool) s :
  forallb q s = true -> Forall (fun l => forallb q l = true) (splitOn 10 s).
Proof.
  induction s as [|c s IH]; intros H; simpl; [repeat constructor|].
  simpl in H. apply andb_true_iff in H. destruct H as [Hc H]. specialize (IH H).
  destruct (c =? 10); [constructor; [reflexivity | exact IH]|].
  destruct (splitOn 10 s) as [|l ls]; simpl.
  - constructor; [simpl; now rewrite Hc | constructor].
  - inversion IH; subst. constructor; [simpl; now rewrite Hc | assumption].
Qed.

Lemma Subseq_Forall (A : Type) (P : A -> Prop) (a b : list A) :
  Subseq a b -> Forall P b -> Forall P a.
Proof.
  induction 1 as [|x l1 l2 Hs IH|x l1 l2 Hs IH]; intros Hb;
    [constructor | |]; inversion Hb; subst; auto.
Qed.

Lemma join_forallb (q : char -> bool) ls :
  q 10 = true -> Forall (fun l => forallb q l = true) ls ->
  forallb q (join [10] ls) = true.
Proof.
  intros Hq. induction 1 as [|x l Hx _ IH]; [reflexivity|].
  destruct l as [|y l']; [exact Hx|].
  rewrite join_cons_cons, forallb_app, Hx.
  change ([10] ++ join [10] (y :: l')) with (10 :: join [10] (y :: l')).
  simpl forallb. simpl in IH. now rewrite Hq, IH.
Qed.

Lemma replaceRuns_forallb (q p : char -> bool) s : forall inRun,
  q space = true -> forallb q s = true ->
  forallb q (replaceRunsFrom p [space] inRun s) = true.
Proof.
  induction s as [|c s IH]; intros inRun Hq H; simpl; [reflexivity|].
  simpl in H. apply andb_true_iff in H. destruct H as [Hc H].
  destruct (p c).
  - rewrite forallb_app, IH by assumption. destruct inRun; simpl; now rewrite ?Hq.
  - simpl. now rewrite Hc, IH.
Qed.

Lemma replaceEach_forallb (q p : char -> bool) s :
  q space = true -> forallb q s = true -> forallb q (replaceEach p space s) = true.
Proof.
  intros Hq. induction s as [|c s IH]; intros H; simpl; [reflexivity|].
  simpl in H. apply andb_true_iff in H. destruct H as [Hc H].
  rewrite (IH H), andb_true_r. destruct (p c); assumption.
Qed.

Lemma trim_forallb (q : char -> bool) s : forallb q s = true -> forallb q (trim s) = true.
Proof.
  intros H. destruct (trim_split s) as [a [b Hab]]. rewrite Hab in H.
  now apply forallb_piece in H.
Qed.

Lemma hasLetterRun_letter s : hasLetterRun s = true -> existsb isLetter s = true.
Proof.
  induction s as [|a s IH]; [discriminate|].
  destruct s as [|b [|c s']]; try discriminate.
  change (hasLetterRun (a :: b :: c :: s'))
    with ((isLetter a && isLetter b && isLetter c) || hasLetterRun (b :: c :: s')).
  intros H. apply orb_true_iff in H. destruct H as [H|H].
  - apply andb_true_iff in H. destruct H as [H _].
    apply andb_true_iff in H. destruct H as [H _]. simpl. now rewrite H.
  - change (existsb isLetter (a :: b :: c :: s'))
      with (isLetter a || existsb isLetter (b :: c :: s')).
    rewrite (IH H). apply orb_true_r.
Qed.

Lemma no_letter_no_run s :
  forallb (fun c => negb (isLetter c)) s = true -> hasLetterRun s = false.
Proof.
  intros H. destruct (hasLetterRun s) eqn:E; [|reflexivity].
  apply hasLetterRun_letter in E. apply existsb_exists in E.
  destruct E as [c [Hin Hc]]. rewrite forallb_forall in H.
  specialize (H c Hin). rewrite Hc in H. discriminate.
Qed.

Lemma filter_none (A : Type) (f : A -> bool) (l : list A) :
  (forall x, In x l -> f x = false) -> filter f l = [].
Proof.
  induction l as [|x l IH]; intros H; [reflexivity|]. simpl.
  rewrite (H x (or_introl eq_refl)). apply IH. intros y Hy. apply H. now right.
Qed.

Lemma candidates_forallb (q : char -> bool) cleaned s :
  forallb q cleaned = true -> In s (map trim (splitSentences cleaned)) ->
  forallb q s = true.
Proof.
  intros H Hin. apply in_map_iff in Hin. destruct Hin as [seg [<- Hseg]].
  apply trim_forallb. apply splitSentences_piece in Hseg.
  destruct Hseg as [pre [post Hc]]. rewrite Hc in H. now apply forallb_piece in H.
Qed.

(** X12.  A text without a single ASCII letter (digits, punctuation,
    whitespace, any other script) gives no sentence in any revision. *)
Theorem text_without_letters_gives_nothing u text :
  forallb (fun c => negb (isLetter c)) text = true ->
  Ocr.extractSentences u text = []
  /\ Markup.extractSentences u text = []
  /\ Early.extractSentences u text = [].
Proof.
  intros H. set (q := fun c => negb (isLetter c)) in *.
  assert (forall ls, Subseq ls (splitOn 10 text) -> forallb q (join [10] ls) = true) as Hj.
  { intros ls Hs. apply join_forallb; [reflexivity|].
    eapply Subseq_Forall; [exact Hs|]. now apply splitOn_lines_forallb. }
  assert (forall m, forallb q m = true -> forallb q (ocrClean m) = true) as Hc.
  { intros m Hm. unfold ocrClean. apply trim_forallb.
    apply replaceRuns_forallb; [reflexivity|].
    apply replaceEach_forallb; [reflexivity|].
    apply replaceRuns_forallb; [reflexivity|].
    now apply replaceRuns_forallb. }
  assert (forall m, forallb q m = true -> forallb q (Early.collapsed m) = true) as He.
  { intros m Hm. unfold Early.collapsed.
    apply replaceRuns_forallb; [reflexivity|]. now apply replaceRuns_forallb. }
  repeat split; apply filter_none; intros s Hs.
  - assert (hasLetterRun s = false) as Hr.
    { apply no_letter_no_run. eapply candidates_forallb; [|exact Hs].
      apply Hc, Hj, Subseq_skipn. }
    destruct (Ocr.accept u s) eqn:E; [|reflexivity].
    apply Ocr_accept_sound in E. destruct E as [_ [_ [E _]]]. congruence.
  - assert (hasLetterRun s = false) as Hr.
    { apply no_letter_no_run. eapply candidates_forallb; [|exact Hs].
      apply Hc, Hj.
      apply Subseq_trans with (l2 := filter Markup.keepLine (splitOn 10 text));
        [apply Subseq_skipn | apply Subseq_filter]. }
    destruct (Markup.accept u s) eqn:E; [|reflexivity].
    apply Markup_accept_sound in E. destruct E as [_ [_ [E _]]]. congruence.
  - assert (hasLetterRun s = false) as Hr.
    { apply no_letter_no_run. eapply candidates_forallb; [|exact Hs].
      apply He, Hj, Subseq_skipn. }
    destruct (Early.accept u s) eqn:E; [|reflexivity].
    apply Early_accept_sound in E. destruct E as [_ [_ E]]. congruence.
Qed.

Lemma text_without_letters_gives_nothing_witness :
  let u : str -> char -> str -> str := fun _ c _ => [c] in
  let text := js "1914-1918: 12,500 (1) ... 42! 3.14159? 2 + 2 = 4. 1999." in
  Ocr.extractSentences u text = []
  /\ Markup.extractSentences u text = []
  /\ Early.extractSentences u text = [].
Proof.
  intros u text. apply (text_without_letters_gives_nothing u text). reflexivity.
Defined.

(** ** The cleaning chains and the language gates *)

Lemma replaceRunsFrom_forallb (q p : char -> bool) by_ s : forall inRun,
  forallb q by_ = true -> forallb q s = true ->
  forallb q (replaceRunsFrom p by_ inRun s) = true.
Proof.
  induction s as [|c s IH]; intros inRun Hq H; simpl; [reflexivity|].
  simpl in H. apply andb_true_iff in H. destruct H as [Hc H].
  destruct (p c).
  - rewrite forallb_app, IH by assumption. destruct inRun; simpl; now rewrite ?Hq.
  - simpl. now rewrite Hc, IH.
Qed.

Lemma replaceRuns_removes (p : char -> bool) s : forall inRun,
  forallb (fun c => negb (p c)) (replaceRunsFrom p [] inRun s) = true.
Proof.
  induction s as [|c s IH]; intros inRun; simpl; [reflexivity|].
  destruct (p c) eqn:E.
  - destruct inRun; simpl; apply IH.
  - simpl. now rewrite E, IH.
Qed.

Lemma replaceRuns_whitespace_forallb (q : char -> bool) s : forall inRun,
  q space = true ->
  forallb (fun c => isWhiteSpace c || q c) s = true ->
  forallb q (replaceRunsFrom isWhiteSpace [space] inRun s) = true.
Proof.
  induction s as [|c s IH]; intros inRun Hq H; simpl; [reflexivity|].
  simpl in H. apply andb_true_iff in H. destruct H as [Hc Hs].
  destruct (isWhiteSpace c) eqn:W.
  - rewrite forallb_app, (IH true Hq Hs), andb_true_r.
    destruct inRun; simpl; now rewrite ?Hq.
  - simpl in Hc. simpl. now rewrite Hc, (IH false Hq Hs).
Qed.

Lemma gateClean_units t : forallb gateUnit (gateClean t) = true.
Proof.
  unfold gateClean. apply trim_forallb.
  apply replaceRuns_whitespace_forallb; [reflexivity|].
  pose proof (replaceRuns_removes isDigit t false) as Hd.
  unfold replaceRuns. induction (replaceRunsFrom isDigit [] false t) as [|c s IH];
    [reflexivity|].
  simpl in Hd. apply andb_true_iff in Hd. destruct Hd as [Hc Hs].
  simpl. rewrite (IH Hs), andb_true_r. apply negb_true_iff in Hc.
  unfold gateUnit, isWord in *.
  destruct (isLetter c) eqn:Hl, (isWhiteSpace c) eqn:Hw, (c =? 95) eqn:Hu;
    simpl; rewrite ?Hc, ?Hl, ?Hw, ?Hu; simpl; try rewrite ?Hl, ?Hw, ?Hu;
    simpl; rewrite ?orb_true_r; reflexivity.
Qed.

Lemma gateClean_normalized t : normalized (gateClean t) = true.
Proof.
  unfold normalized, gateClean.
  rewrite trim_startsWs, trim_endsWs. simpl. rewrite !andb_true_r.
  match goal with |- singleSpaced (trim ?x) = true => set (y := x) end.
  destruct (trim_split y) as [a [b Hab]].
  apply singleSpaced_piece with (pre := a) (post := b). rewrite <- Hab.
  apply replaceRuns_singleSpaced.
Qed.

(** X13.  What a language gate counts on is made of ASCII letters,
    underscores and single spaces only, with no space at either end: digits
    are removed, and every other unit becomes a separator. *)
Theorem gate_cleaned_text_units fullText :
  (forallb gateUnit (Ocr.GET.cleanedText fullText) = true
   /\ normalized (Ocr.GET.cleanedText fullText) = true)
  /\ (forallb gateUnit (Markup.GET.cleanedText fullText) = true
      /\ normalized (Markup.GET.cleanedText fullText) = true).
Proof.
  repeat split; (apply gateClean_units || apply gateClean_normalized).
Qed.

Lemma replaceRuns_none (p : char -> bool) by_ s : forall inRun,
  forallb (fun c => negb (p c)) s = true -> replaceRunsFrom p by_ inRun s = s.
Proof.
  induction s as [|c s IH]; intros inRun H; simpl; [reflexivity|].
  simpl in H. apply andb_true_iff in H. destruct H as [Hc H].
  apply negb_true_iff in Hc. rewrite Hc. now rewrite IH.
Qed.

Lemma replaceRuns_singleSpaced_id s : forall inRun,
  singleSpaced s = true -> (inRun = true -> startsWs s = false) ->
  replaceRunsFrom isWhiteSpace [space] inRun s = s.
Proof.
  induction s as [|c s IH]; intros inRun Hs Hr; [reflexivity|].
  simpl in Hs. apply andb_true_iff in Hs. destruct Hs as [Hc Hs].
  simpl. destruct (isWhiteSpace c) eqn:W.
  - apply andb_true_iff in Hc. destruct Hc as [Hc Hn].
    apply N.eqb_eq in Hc. apply negb_true_iff in Hn. subst c.
    destruct inRun.
    + specialize (Hr eq_refl). simpl in Hr. rewrite W in Hr. discriminate.
    + simpl. f_equal. apply IH; auto.
  - f_equal. apply IH; [exact Hs | discriminate].
Qed.

Lemma replaceEach_none (p : char -> bool) s :
  forallb (fun c => negb (p c)) s = true -> replaceEach p space s = s.
Proof.
  induction s as [|c s IH]; intros H; simpl; [reflexivity|].
  simpl in H. apply andb_true_iff in H. destruct H as [Hc H].
  apply negb_true_iff in Hc. now rewrite Hc, IH.
Qed.

Lemma forallb_impl (p q : char -> bool) s :
  (forall c, p c = true -> q c = true) -> forallb p s = true -> forallb q s = true.
Proof.
  intros Hpq H. rewrite forallb_forall in *. auto.
Qed.

Lemma normalized_parts s :
  normalized s = true -> singleSpaced s = true /\ startsWs s = false /\ endsWs s = false.
Proof.
  unfold normalized. intros H.
  apply andb_true_iff in H. destruct H as [H He].
  apply andb_true_iff in H. destruct H as [Hs Hb].
  apply negb_true_iff in Hb, He. auto.
Qed.

(** X14.  Both cleaning chains are idempotent: cleaning a cleaned text
    changes nothing. *)
Theorem cleaning_is_idempotent t :
  ocrClean (ocrClean t) = ocrClean t /\ gateClean (gateClean t) = gateClean t.
Proof.
  split.
  - pose proof (ocrClean_units t) as Hu.
    destruct (normalized_parts _ (ocrClean_normalized t)) as [Hs [Hb He]].
    set (c := ocrClean t) in *. unfold ocrClean at 1. unfold replaceRuns.
    rewrite (replaceRuns_none isNewline [space] c false);
      [|eapply forallb_impl; [|exact Hu]; intros x Hx; unfold sentenceUnit in Hx;
        classes; to_prop; lia].
    rewrite (replaceRuns_singleSpaced_id c false Hs) by discriminate.
    rewrite (replaceEach_none isSpecial c);
      [|eapply forallb_impl; [|exact Hu]; intros x Hx; unfold isSpecial, sentenceUnit in *;
        rewrite negb_involutive;
        destruct (isWord x), (isTerminal x), (N.eqb_spec x 32); subst; simpl in *;
        try reflexivity; try discriminate; rewrite ?orb_true_r; reflexivity].
    rewrite (replaceRuns_singleSpaced_id c false Hs) by discriminate.
    now apply trim_id.
  - pose proof (gateClean_units t) as Hu.
    destruct (normalized_parts _ (gateClean_normalized t)) as [Hs [Hb He]].
    set (c := gateClean t) in *. unfold gateClean at 1. unfold replaceRuns.
    rewrite (replaceRuns_none isDigit [] c false);
      [|eapply forallb_impl; [|exact Hu]; intros x Hx; unfold gateUnit in Hx;
        classes; to_prop; lia].
    rewrite (replaceEach_none (fun x => negb (isWord x || isWhiteSpace x)) c);
      [|eapply forallb_impl; [|exact Hu]; intros x Hx; unfold gateUnit, isWord in *;
        rewrite negb_involutive;
        destruct (isLetter x), (x =? 95), (N.eqb_spec x 32); subst; simpl in *;
        try reflexivity; try discriminate; rewrite ?orb_true_r; reflexivity].
    rewrite (replaceRuns_singleSpaced_id c false Hs) by discriminate.
    now apply trim_id.
Qed.

Lemma gateClean_length t : (List.length (gateClean t) <= List.length t)%nat.
Proof.
  unfold gateClean. eapply Nat.le_trans; [apply trim_length|].
  eapply Nat.le_trans; [apply replaceRuns_length; simpl; lia|].
  unfold replaceEach. rewrite length_map. apply replaceRuns_length. simpl. lia.
Qed.

Lemma slice_length a b s : (List.length (slice a b s) <= b - a)%nat.
Proof. unfold slice. rewrite length_firstn. lia. Qed.

(** X15.  The sampled gate judges no document of at most 1000 units: its
    sample has at most 100 units, and the checks are skipped. *)
Theorem strict_gate_passes_short_documents u fullText :
  (List.length fullText <= 1000)%nat ->
  Markup.GET.isLikelyEnglish u fullText = true.
Proof.
  intros H. unfold Markup.GET.isLikelyEnglish.
  assert (List.length (Markup.GET.cleanedText fullText) <= 100)%nat as Hl.
  { unfold Markup.GET.cleanedText, Markup.GET.sampleText.
    eapply Nat.le_trans; [apply gateClean_length|].
    eapply Nat.le_trans; [apply slice_length|].
    unfold floorPercent.
    assert (30 * N.of_nat (List.length fullText) / 100
            <= 20 * N.of_nat (List.length fullText) / 100 + 100) as Hd.
    { assert (N.of_nat (List.length fullText) <= 1000) as Hn by lia.
      generalize dependent (N.of_nat (List.length fullText)). intros n Hn.
      assert (100 <> 0) as H100 by lia.
      pose proof (N.div_mod (30 * n) 100 H100) as D3.
      pose proof (N.mod_lt (30 * n) 100 H100) as M3.
      pose proof (N.div_mod (20 * n) 100 H100) as D2.
      pose proof (N.mod_lt (20 * n) 100 H100) as M2.
      generalize dependent (30 * n / 100). generalize dependent ((30 * n) mod 100).
      generalize dependent (20 * n / 100). generalize dependent ((20 * n) mod 100).
      intros. lia. }
    lia. }
  apply Nat.ltb_ge in Hl. now rewrite Hl.
Qed.

(** A document of 1000 units of digits and symbols, with no letter and no
    function word. *)
Lemma strict_gate_passes_short_documents_witness :
  let u : str -> char -> str -> str := fun _ c _ => [c] in
  let fullText := repeat 49 500 ++ repeat 95 500 in
  Markup.GET.englishWordCount u fullText = 0%nat
  /\ countLetters (Markup.GET.cleanedText fullText) = 0%nat
  /\ Markup.GET.isLikelyEnglish u fullText = true.
Proof.
  intros u fullText. split; [vm_compute; reflexivity|]. split; [vm_compute; reflexivity|].
  apply strict_gate_passes_short_documents. vm_compute. lia.
Defined.

(** In a single-spaced text of letters and spaces, every space but a
    leading one is paid for by the letter in front of it. *)
Lemma spaces_le_letters s :
  singleSpaced s = true ->
  forallb (fun c => isLetter c || (c =? 32)) s = true ->
  (countUnit space s <= countLetters s + (if startsWs s then 1 else 0))%nat
  /\ List.length s = (countLetters s + countUnit space s)%nat.
Proof.
  unfold countUnit, countLetters, space.
  induction s as [|c s IH]; intros Hs Hu; [simpl; lia|].
  simpl in Hs, Hu.
  apply andb_true_iff in Hs. destruct Hs as [Hc Hs].
  apply andb_true_iff in Hu. destruct Hu as [Hcu Hu].
  destruct (IH Hs Hu) as [IH1 IH2]. clear IH.
  cbn [filter startsWs]. destruct (N.eqb_spec 32 c) as [<-|Hne].
  - change (isLetter 32) with false. change (isWhiteSpace 32) with true in *.
    cbn [List.length]. apply andb_true_iff in Hc. destruct Hc as [_ Hc].
    apply negb_true_iff in Hc. rewrite Hc in IH1. lia.
  - assert (isLetter c = true) as Hl.
    { apply orb_true_iff in Hcu. destruct Hcu as [Hl|Hl]; [exact Hl|].
      apply N.eqb_eq in Hl. congruence. }
    rewrite Hl. cbn [List.length].
    assert (isWhiteSpace c = false) as Hw.
    { revert Hl. clear. intros H. destruct (isWhiteSpace c) eqn:E; [|reflexivity].
      exfalso. revert H E. classes. intros H E. to_prop. lia. }
    rewrite Hw. destruct (startsWs s); lia.
Qed.

(** X16.  The whole-text gate lets every document without an underscore
    through, whatever its language or script: once digits are removed and
    all other units turned into separators, only letters and single spaces
    are left, and the letters are at least half of them. *)
Theorem lenient_gate_passes_without_underscore fullText :
  forallb (fun c => negb (c =? 95)) fullText = true ->
  Ocr.GET.isLikelyEnglish fullText = true.
Proof.
  intros H. unfold Ocr.GET.isLikelyEnglish, Ocr.GET.cleanedText.
  assert (forallb (fun c => negb (c =? 95)) (gateClean fullText) = true) as Hn.
  { unfold gateClean. apply trim_forallb.
    apply replaceRunsFrom_forallb; [reflexivity|].
    apply replaceEach_forallb; [reflexivity|].
    now apply replaceRunsFrom_forallb. }
  pose proof (gateClean_units fullText) as Hu.
  destruct (normalized_parts _ (gateClean_normalized fullText)) as [Hs [Hb _]].
  assert (forallb (fun c => isLetter c || (c =? 32)) (gateClean fullText) = true) as Hls.
  { rewrite forallb_forall in *. intros c Hc. specialize (Hn c Hc). specialize (Hu c Hc).
    apply negb_true_iff in Hn. unfold gateUnit in Hu. rewrite Hn in Hu.
    now rewrite orb_false_r in Hu. }
  destruct (spaces_le_letters _ Hs Hls) as [H1 H2]. rewrite Hb in H1.
  destruct (Nat.ltb 100 (List.length (gateClean fullText))); [|reflexivity].
  unfold ratioLt. destruct (List.length (gateClean fullText)) eqn:El; [reflexivity|].
  rewrite <- El.
  destruct (N.ltb_spec (10 * N.of_nat (countLetters (gateClean fullText)))
              (3 * N.of_nat (List.length (gateClean fullText)))); [lia | reflexivity].
Qed.

(** A page of Cyrillic text with digits and punctuation. *)
Lemma lenient_gate_passes_without_underscore_witness :
  let fullText :=
    List.concat (repeat ([1055; 1088; 1080; 1074; 1077; 1090; 44; 32; 1084; 1080; 1088; 33; 32]
                         ++ js "12 ") 40) in
  (100 < List.length fullText)%nat
  /\ countLetters fullText = 0%nat
  /\ Ocr.GET.isLikelyEnglish fullText = true.
Proof.
  intros fullText. split; [vm_compute; lia|]. split; [vm_compute; reflexivity|].
  apply lenient_gate_passes_without_underscore. vm_compute. reflexivity.
Defined.


(** ** Random picks *)

Lemma getRandomItems_length_le {T} (sorted : list T -> list T) array count :
  (List.length (getRandomItems sorted array count) <= count)%nat.
Proof. unfold getRandomItems. apply firstn_le_length. Qed.

Lemma getRandomItems_length {T} (sorted : list T -> list T) array count :
  rearranges sorted ->
  List.length (getRandomItems sorted array count)
  = Nat.min count (List.length array).
Proof.
  intros H. unfold getRandomItems.
  now rewrite length_firstn, <- (Permutation_length (H array)).
Qed.

Lemma getRandomItems_In {T} (sorted : list T -> list T) array count x :
  rearranges sorted -> In x (getRandomItems sorted array count) -> In x array.
Proof.
  intros H Hx. unfold getRandomItems in Hx.
  eapply Permutation_in; [symmetry; apply (H array)|].
  rewrite <- (firstn_skipn count (sorted array)). apply in_or_app. now left.
Qed.

Lemma rearranges_rev {T} : rearranges (@rev T).
Proof. intros l. apply Permutation_rev. Qed.

(** X17.  [getRandomItems] returns [min(count, array.length)] items, and they
    are items of the array counted with their multiplicity: the array is a
    rearrangement of the items returned and the items left out.  When
    [count] reaches the length, the result is a rearrangement of the whole
    array. *)
Theorem getRandomItems_sample {T} (sorted : list T -> list T) array count :
  rearranges sorted ->
  List.length (getRandomItems sorted array count) = Nat.min count (List.length array)
  /\ (exists rest, Permutation array (getRandomItems sorted array count ++ rest))
  /\ ((List.length array <= count)%nat ->
      Permutation array (getRandomItems sorted array count)).
Proof.
  intros H. split; [now apply getRandomItems_length|]. split.
  - exists (skipn count (sorted array)). unfold getRandomItems.
    rewrite firstn_skipn. apply H.
  - intros Hc. unfold getRandomItems. rewrite firstn_all2; [apply H|].
    now rewrite <- (Permutation_length (H array)).
Qed.

Lemma getRandomItems_sample_witness :
  rearranges (@rev nat)
  /\ List.length (getRandomItems (@rev nat) [1; 2; 3]%nat 2) = 2%nat.
Proof.
  split; [apply rearranges_rev|].
  exact (proj1 (getRandomItems_sample (@rev nat) [1; 2; 3]%nat 2 rearranges_rev)).
Defined.

(** [Math.floor(Math.random() * n)] is an index below [n]: the product is
    rounded to a double, and the rounding never reaches [n]. *)
Lemma randomBelow_lt x n :
  unitInterval x -> (0 < n)%nat -> (randomBelow x n < n)%nat.
Proof.
  destruct x as [m e].
  unfold unitInterval, randomBelow, doubleFloor, doubleMul. cbn [fst snd].
  intros (Hm & _ & He) Hn.
  remember (N.of_nat n) as k eqn:Hk.
  assert (0 < k) as Hk0 by lia.
  enough (roundNearestEven (k * m) / 2 ^ e < k) by lia.
  apply N.Div0.div_lt_upper_bound.
  assert (2 ^ 53 <= 2 ^ e) as Hpow by (apply N.pow_le_mono_r; lia).
  enough (roundNearestEven (k * m) < 2 ^ 53 * k) by nia.
  destruct (roundNearestEven_spec (k * m)) as [_ [Hup _]].
  destruct (size_bounds (k * m)) as [_ [Hge _]].
  change (2 ^ 53) with 9007199254740992 in *.
  assert (k * m <= k * 9007199254740991) as Hp by (apply N.mul_le_mono_l; lia).
  remember (2 ^ (N.size (k * m) - 53)) as S eqn:HS.
  remember (roundNearestEven (k * m)) as R eqn:HR.
  remember (k * m) as P eqn:HP.
  destruct Hge as [->|Hge]; lia.
Qed.

Lemma estimatedPages_ceiling c :
  (c <= 20 * estimatedPages c < c + 20)%nat.
Proof.
  unfold estimatedPages.
  pose proof (Nat.div_mod (c + 19) 20 ltac:(lia)) as Hd.
  pose proof (Nat.mod_upper_bound (c + 19) 20 ltac:(lia)) as Hm.
  lia.
Qed.

(** X19.  The position written for a successful book is a page between 1 and
    the estimated number of pages, and that estimate is the sentence count
    divided by 20 and rounded up. *)
Theorem randomPage_in_range random sentenceCount :
  unitInterval random -> (0 < sentenceCount)%nat ->
  (1 <= randomPage random sentenceCount <= estimatedPages sentenceCount)%nat
  /\ (sentenceCount <= 20 * estimatedPages sentenceCount < sentenceCount + 20)%nat.
Proof.
  intros Hr Hc. pose proof (estimatedPages_ceiling sentenceCount) as He.
  split; [|exact He]. unfold randomPage.
  assert (0 < estimatedPages sentenceCount)%nat as Hp by lia.
  pose proof (randomBelow_lt random _ Hr Hp). lia.
Qed.

Lemma randomPage_in_range_witness :
  unitInterval (2 ^ 53 - 1, 53) /\ (0 < 45)%nat
  /\ (1 <= randomPage ((2 ^ 53 - 1)%N, 53%N) 45 <= estimatedPages 45)%nat.
Proof.
  assert (unitInterval (2 ^ 53 - 1, 53)) as H
    by (unfold unitInterval; cbn [fst snd]; split; [|split]; vm_compute; congruence).
  assert (0 < 45)%nat as H0 by lia.
  split; [exact H|]. split; [exact H0|].
  exact (proj1 (randomPage_in_range (2 ^ 53 - 1, 53) 45 H H0)).
Defined.

(** ** The book filters *)

Lemma startsWith_prefix a b : forall s,
  startsWith (a ++ b) s = true -> startsWith a s = true.
Proof.
  induction a as [|x a IH]; intros s H; [reflexivity|].
  destruct s as [|c s]; [discriminate|]. cbn [startsWith app] in *.
  destruct (x =? c); [now apply IH | discriminate].
Qed.

Lemma includes_prefix a b : forall s,
  includes s (a ++ b) = true -> includes s a = true.
Proof.
  induction s as [|c s IH]; intros H.
  - cbn [includes] in *. destruct (startsWith (a ++ b) []) eqn:E; [|discriminate].
    now rewrite (startsWith_prefix _ _ _ E).
  - cbn [includes] in *. destruct (startsWith (a ++ b) (c :: s)) eqn:E.
    + now rewrite (startsWith_prefix _ _ _ E).
    + destruct (startsWith a (c :: s)); [reflexivity | now apply IH].
Qed.

Lemma strEqb_eq a : forall b, strEqb a b = true -> a = b.
Proof.
  induction a as [|x a IH]; intros [|y b] H; try discriminate; [reflexivity|].
  cbn [strEqb] in H. destruct (N.eqb_spec x y); [|discriminate].
  subst. f_equal. now apply IH.
Qed.

Lemma startsWith_refl s : startsWith s s = true.
Proof. rewrite <- (app_nil_r s) at 2. apply startsWith_app. Qed.

(** A language that contains the longer name contains the code the name
    begins with. *)
Lemma longer_code u lang (short long : string) :
  (exists rest, js long = js short ++ rest) ->
  langIncludes u lang short = false -> langIncludes u lang long = false.
Proof.
  intros [rest E] H. unfold langIncludes in *. rewrite E.
  destruct (includes (toLowerCase u lang) (js short ++ rest)) eqn:Hi; [|reflexivity].
  apply includes_prefix in Hi. congruence.
Qed.

Lemma english_name u lang (name : string) :
  (exists rest, js name = js "eng" ++ rest) ->
  langIncludes u lang "eng" = false -> langIs u lang name = false.
Proof.
  intros [rest E] H. unfold langIs, langIncludes in *.
  destruct (strEqb (toLowerCase u lang) (js name)) eqn:Hs; [|reflexivity].
  apply strEqb_eq in Hs. rewrite Hs, E in H.
  rewrite includes_here in H; [discriminate | apply startsWith_app].
Qed.

Ltac code_case u lang short long :=
  let E := fresh "E" in
  destruct (langIncludes u lang short) eqn:E;
  [ cbn [orb]; reflexivity
  | rewrite (longer_code u lang short long (ex_intro _ _ eq_refl) E) ].

Lemma english_test_ocr u lang :
  langIncludes u lang "eng" || langIncludes u lang "english" || langIs u lang "en"
  = englishEntry u lang.
Proof.
  unfold englishEntry. code_case u lang "eng"%string "english"%string. reflexivity.
Qed.

Lemma english_test_markup u lang :
  langIs u lang "eng" || langIs u lang "en" || langIs u lang "english"
  || langIncludes u lang "eng"
  = englishEntry u lang.
Proof.
  unfold englishEntry. destruct (langIncludes u lang "eng") eqn:E.
  - cbn [orb]. apply orb_true_r.
  - rewrite (english_name u lang "eng" (ex_intro _ _ eq_refl) E).
    rewrite (english_name u lang "english" (ex_intro _ _ eq_refl) E).
    cbn [orb]. now rewrite !orb_false_r.
Qed.

Lemma foreign_test_ocr u lang :
  langIncludes u lang "rus" || langIncludes u lang "russian"
  || langIncludes u lang "ger" || langIncludes u lang "german"
  || langIncludes u lang "fre" || langIncludes u lang "french"
  || langIncludes u lang "spa" || langIncludes u lang "spanish"
  = existsb (langIncludes u lang) foreignCodesOcr.
Proof.
  unfold foreignCodesOcr. cbn [existsb].
  code_case u lang "rus"%string "russian"%string.
  code_case u lang "ger"%string "german"%string.
  code_case u lang "fre"%string "french"%string.
  code_case u lang "spa"%string "spanish"%string.
  reflexivity.
Qed.

Lemma foreign_test_markup u lang :
  langIncludes u lang "rus" || langIncludes u lang "russian"
  || langIncludes u lang "ger" || langIncludes u lang "german"
  || langIncludes u lang "fre" || langIncludes u lang "french"
  || langIncludes u lang "spa" || langIncludes u lang "spanish"
  || langIncludes u lang "ita" || langIncludes u lang "italian"
  || langIncludes u lang "por" || langIncludes u lang "portuguese"
  || langIncludes u lang "dut" || langIncludes u lang "dutch"
  || langIncludes u lang "pol" || langIncludes u lang "polish"
  || langIncludes u lang "chi" || langIncludes u lang "chinese"
  || langIncludes u lang "jap" || langIncludes u lang "japanese"
  || langIncludes u lang "ara" || langIncludes u lang "arabic"
  || langIncludes u lang "lat" || langIncludes u lang "latin"
  = existsb (langIncludes u lang) foreignCodesMarkup.
Proof.
  unfold foreignCodesMarkup. cbn [existsb].
  code_case u lang "rus"%string "russian"%string.
  code_case u lang "ger"%string "german"%string.
  code_case u lang "fre"%string "french"%string.
  code_case u lang "spa"%string "spanish"%string.
  code_case u lang "ita"%string "italian"%string.
  code_case u lang "por"%string "portuguese"%string.
  code_case u lang "dut"%string "dutch"%string.
  code_case u lang "pol"%string "polish"%string.
  code_case u lang "chi"%string "chinese"%string.
  code_case u lang "jap"%string "japanese"%string.
  code_case u lang "ara"%string "arabic"%string.
  code_case u lang "lat"%string "latin"%string.
  reflexivity.
Qed.

Lemma existsb_ext {A} (f g : A -> bool) l :
  (forall x, f x = g x) -> existsb f l = existsb g l.
Proof. intros H. induction l as [|x l IH]; cbn; [reflexivity|]. now rewrite H, IH. Qed.

Lemma present_entries field : present field = false -> entries field = [].
Proof. destruct field as [[|x l]|]; cbn; congruence. Qed.

(** X20.  The book filter of the OCR revision keeps a book exactly when it
    has an archive identifier and either one of its language entries
    contains [eng] or is [en], or none contains [rus], [ger], [fre] or
    [spa]; a book with no language entry is kept.  The tests on the longer
    names [english], [russian], [german], [french] and [spanish] change
    nothing: each name begins with the code tested beside it. *)
Theorem keepBookOcr_characterised u book :
  keepBookOcr u book
  = present (BookResult.ia book)
    && (existsb (englishEntry u) (entries (BookResult.language book))
        || negb (listsForeign u foreignCodesOcr book)).
Proof.
  unfold keepBookOcr, listsForeign.
  destruct (present (BookResult.ia book)); cbn [negb andb]; [|reflexivity].
  destruct (present (BookResult.language book)) eqn:Hl.
  - rewrite (existsb_ext _ _ _ (english_test_ocr u)).
    rewrite (existsb_ext _ _ _ (foreign_test_ocr u)).
    destruct (existsb (englishEntry u) _); cbn [negb andb orb]; [reflexivity|].
    now destruct (existsb _ _).
  - now rewrite (present_entries _ Hl).
Qed.

(** X21.  The book filter of the markup revision keeps a book exactly when
    it has an archive identifier, one of its language entries contains
    [eng] or is [en], and no entry contains one of the twelve codes [rus],
    [ger], [fre], [spa], [ita], [por], [dut], [pol], [chi], [jap], [ara],
    [lat]; a book with no language entry is dropped.  The equality tests
    with [eng] and [english] and the twelve tests on the longer names
    change nothing. *)
Theorem keepBookMarkup_characterised u book :
  keepBookMarkup u book
  = present (BookResult.ia book)
    && existsb (englishEntry u) (entries (BookResult.language book))
    && negb (listsForeign u foreignCodesMarkup book).
Proof.
  unfold keepBookMarkup, listsForeign.
  destruct (present (BookResult.ia book)); cbn [negb andb]; [|reflexivity].
  destruct (present (BookResult.language book)) eqn:Hl; cbn [negb].
  - rewrite (existsb_ext _ _ _ (english_test_markup u)).
    rewrite (existsb_ext _ _ _ (foreign_test_markup u)).
    destruct (existsb (englishEntry u) _); cbn [negb andb orb]; [|reflexivity].
    now destruct (existsb _ _).
  - now rewrite (present_entries _ Hl).
Qed.

Lemma existsb_weaken {A} (f g : A -> bool) l :
  (forall x, f x = true -> g x = true) -> existsb f l = true -> existsb g l = true.
Proof.
  intros H Hf. apply existsb_exists in Hf. destruct Hf as [x [Hin Hx]].
  apply existsb_exists. exists x. auto.
Qed.

Lemma keepBookMarkup_keepBookOcr u book :
  keepBookMarkup u book = true -> keepBookOcr u book = true.
Proof.
  unfold keepBookMarkup, keepBookOcr.
  destruct (present (BookResult.ia book)); cbn [negb]; [|discriminate].
  destruct (present (BookResult.language book)); cbn [negb]; [|discriminate].
  rewrite (existsb_ext _ _ _ (english_test_markup u)).
  rewrite (existsb_ext _ _ _ (english_test_ocr u)).
  destruct (existsb (englishEntry u) _); cbn [negb andb]; [reflexivity|discriminate].
Qed.

Lemma keepBookOcr_present u book :
  keepBookOcr u book = true -> present (BookResult.ia book) = true.
Proof.
  unfold keepBookOcr. now destruct (present (BookResult.ia book)).
Qed.

Lemma present_iaIdOf book :
  present (BookResult.ia book) = true ->
  exists rest, BookResult.ia book = Some (iaIdOf book :: rest).
Proof.
  unfold iaIdOf. destruct (BookResult.ia book) as [[|id rest]|]; try discriminate.
  intros _. now exists rest.
Qed.

(** X22.  The three book filters are nested: a book kept by the markup
    revision is kept by the OCR revision, a book kept by the OCR revision
    is kept by the first revision, and a book kept by any of them has an
    archive identifier, so that [book.ia[0]] in the loop is defined. *)
Theorem book_filters_nested u book :
  (keepBookMarkup u book = true -> keepBookOcr u book = true)
  /\ (keepBookOcr u book = true -> keepBookEarly book = true)
  /\ (keepBookEarly book = true ->
      exists rest, BookResult.ia book = Some (iaIdOf book :: rest)).
Proof.
  split; [apply keepBookMarkup_keepBookOcr|].
  split; [apply keepBookOcr_present | apply present_iaIdOf].
Qed.


(** ** The loop of [GET] *)

(** The three ways an iteration ends. *)
Lemma processBook_cases gate ex env i book ss m :
  ((Env.fetched env i = FetchThrew \/ Env.fetched env i = FetchNotOk)
   /\ processBook gate ex env i book (ss, m)
      = (ss, countFailure (countProcessed m) (newDetail book) failed))
  \/ (exists fullText,
        Env.fetched env i = FetchText fullText
        /\ (gate fullText = false \/ ex fullText = [])
        /\ processBook gate ex env i book (ss, m)
           = (ss, countFailure (countProcessed m)
                    (withTextLength (newDetail book) (List.length fullText))
                    no_sentences))
  \/ (exists fullText,
        Env.fetched env i = FetchText fullText
        /\ gate fullText = true /\ ex fullText <> []
        /\ processBook gate ex env i book (ss, m)
           = (ss ++ map (sentenceOf book)
                      (getRandomItems (Env.shuffledSentences env i) (ex fullText) 2),
              countSuccess (countProcessed m)
                (withTextLength (newDetail book) (List.length fullText))
                (pageOf (Env.pageRandom env i) (List.length (ex fullText)))
                (List.length
                   (getRandomItems (Env.shuffledSentences env i) (ex fullText) 2)))).
Proof.
  unfold processBook. cbn [fst snd].
  destruct (Env.fetched env i) as [| |fullText]; [left; auto | left; auto | right].
  destruct (gate fullText) eqn:Hg; cbn [negb].
  - destruct (Nat.eqb_spec (List.length (ex fullText)) 0) as [He|He].
    + left. exists fullText. apply length_zero_iff_nil in He. auto.
    + right. exists fullText. repeat split; auto.
      intros Hn. now rewrite Hn in He.
  - left. exists fullText. auto.
Qed.

Lemma processBook_advanced gate ex env i book ss m ss' m' :
  processBook gate ex env i book (ss, m) = (ss', m') -> advanced 1 ss m ss' m'.
Proof.
  intros H.
  destruct (processBook_cases gate ex env i book ss m)
    as [[_ E]|[(ft & _ & _ & E)|(ft & _ & _ & _ & E)]];
    rewrite E in H; inversion H; subst; clear H E; unfold advanced;
    cbn [SearchMetadata.subject SearchMetadata.totalBooksAvailable
         SearchMetadata.totalBooksFound SearchMetadata.booksWithInternetArchive
         SearchMetadata.booksSelected SearchMetadata.booksProcessed
         SearchMetadata.booksSuccessful SearchMetadata.booksFailed
         SearchMetadata.totalSentencesExtracted SearchMetadata.bookDetails
         countFailure countSuccess countProcessed];
    rewrite ?length_app, ?length_map; cbn [List.length];
    try pose proof (getRandomItems_length_le (Env.shuffledSentences env i) (ex ft) 2);
    repeat split; lia.
Qed.

Lemma advanced_trans n n' ss m ss1 m1 ss' m' :
  advanced n ss m ss1 m1 -> advanced n' ss1 m1 ss' m' ->
  advanced (n + n') ss m ss' m'.
Proof.
  unfold advanced.
  intros (a1 & a2 & a3 & a4 & a5 & a6) (b1 & b2 & b3 & b4 & b5 & b6).
  repeat split; try congruence; lia.
Qed.

Lemma processBooks_advanced gate ex env : forall books i ss m ss' m',
  processBooks gate ex env i books (ss, m) = (ss', m') ->
  advanced (List.length books) ss m ss' m'.
Proof.
  induction books as [|book rest IH]; intros i ss m ss' m' H; cbn [processBooks] in H.
  - inversion H; subst. unfold advanced. cbn [List.length]. repeat split; lia.
  - destruct (processBook gate ex env i book (ss, m)) as [ss1 m1] eqn:E.
    apply processBook_advanced in E. apply IH in H.
    exact (advanced_trans 1 _ _ _ _ _ _ _ E H).
Qed.

Lemma selectedBooks_length kb env sd :
  (List.length (selectedBooks kb env sd) <= 6
   /\ List.length (selectedBooks kb env sd) <= List.length (booksWithIA kb sd)
   /\ List.length (booksWithIA kb sd) <= List.length (SearchResponse.docs sd))%nat.
Proof.
  unfold selectedBooks.
  pose proof (getRandomItems_length_le (Env.shuffledBooks env) (booksWithIA kb sd)
                (Nat.min 6 (List.length (booksWithIA kb sd)))).
  pose proof (filter_length_le kb (SearchResponse.docs sd)) as Hf.
  change (filter kb (SearchResponse.docs sd)) with (booksWithIA kb sd) in Hf. lia.
Qed.

(** The shape of a successful answer. *)
Lemma GET_Json kb gate ex env ss md :
  GET kb gate ex env = Json ss md ->
  exists sd m,
    Env.searchData env = Some sd /\ md = Some m
    /\ booksWithIA kb sd <> [] /\ ss <> []
    /\ processBooks gate ex env 0 (selectedBooks kb env sd) ([], initialMetadata kb env sd)
       = (ss, m).
Proof.
  unfold GET. destruct (Env.searchData env) as [sd|]; [|discriminate].
  destruct (Nat.eqb_spec (List.length (booksWithIA kb sd)) 0) as [|Hb]; [discriminate|].
  destruct (processBooks gate ex env 0 (selectedBooks kb env sd)
              ([], initialMetadata kb env sd)) as [ss' m'] eqn:E.
  cbn [fst snd].
  destruct (Nat.eqb_spec (List.length ss') 0) as [|Hs]; [discriminate|].
  intros H. inversion H; subst. exists sd, m'. repeat split; auto.
  - intros Hn. now rewrite Hn in Hb.
  - intros Hn. now rewrite Hn in Hs.
Qed.

Lemma sample_GET : GETOcr keepUnit sampleEnv = sampleResponse.
Proof. vm_compute. reflexivity. Qed.

Lemma sample_valid : validEnv sampleEnv.
Proof. split; [|intros i]; apply rearranges_rev. Qed.

(** X23.  In a successful answer the counters of [searchMetadata] agree:
    every selected book was processed and ended either successful or
    failed, with one detail each; the sentences extracted are the sentences
    sent; at least one book was successful and each successful book gave at
    most two sentences; at most six books were selected, out of the books
    with an archive identifier, themselves among the books found. *)
Theorem GET_counters kb gate ex env ss m :
  GET kb gate ex env = Json ss (Some m) ->
  (SearchMetadata.booksProcessed m = SearchMetadata.booksSelected m
   /\ SearchMetadata.booksSuccessful m + SearchMetadata.booksFailed m
      = SearchMetadata.booksProcessed m
   /\ List.length (SearchMetadata.bookDetails m) = SearchMetadata.booksProcessed m
   /\ SearchMetadata.totalSentencesExtracted m = List.length ss
   /\ 1 <= SearchMetadata.booksSuccessful m
   /\ List.length ss <= 2 * SearchMetadata.booksSuccessful m
   /\ SearchMetadata.booksSelected m <= 6
   /\ SearchMetadata.booksSelected m <= SearchMetadata.booksWithInternetArchive m
   /\ 1 <= SearchMetadata.booksWithInternetArchive m
      <= SearchMetadata.totalBooksFound m)%nat.
Proof.
  intros H. apply GET_Json in H.
  destruct H as (sd & m0 & _ & Hm & Hb & Hs & H). inversion Hm; subst m0; clear Hm.
  apply processBooks_advanced in H. unfold advanced in H.
  cbn [initialMetadata SearchMetadata.subject SearchMetadata.totalBooksAvailable
       SearchMetadata.totalBooksFound SearchMetadata.booksWithInternetArchive
       SearchMetadata.booksSelected SearchMetadata.booksProcessed
       SearchMetadata.booksSuccessful SearchMetadata.booksFailed
       SearchMetadata.totalSentencesExtracted SearchMetadata.bookDetails
       List.length] in H.
  destruct H as (_ & _ & h3 & h4 & h5 & h6).
  pose proof (selectedBooks_length kb env sd) as Hl.
  assert (List.length ss <> 0)%nat by (now destruct ss).
  assert (List.length (booksWithIA kb sd) <> 0)%nat by (now destruct (booksWithIA kb sd)).
  lia.
Qed.

Lemma GET_counters_witness :
  exists ss m,
    GETOcr keepUnit sampleEnv = Json ss (Some m)
    /\ SearchMetadata.booksProcessed m = SearchMetadata.booksSelected m.
Proof.
  pose proof sample_GET as E. unfold sampleResponse in E.
  eexists. eexists. split; [exact E|].
  exact (proj1 (GET_counters _ _ _ _ _ _ E)).
Defined.

(** X18.  The subject reported in a successful answer is one of the five
    subjects of the handler: the index [Math.floor(Math.random() * 5)]
    stays below 5. *)
Theorem GET_subject_is_listed kb gate ex env ss m :
  unitInterval (Env.subjectRandom env) ->
  GET kb gate ex env = Json ss (Some m) ->
  In (SearchMetadata.subject m) subjects.
Proof.
  intros Hr H. apply GET_Json in H.
  destruct H as (sd & m0 & _ & Hm & _ & _ & H). inversion Hm; subst m0; clear Hm.
  apply processBooks_advanced in H. destruct H as (H & _). rewrite H.
  cbn [initialMetadata SearchMetadata.subject].
  apply nth_In. apply randomBelow_lt; [assumption|]. cbn. lia.
Qed.

Lemma GET_subject_is_listed_witness :
  exists ss m,
    unitInterval (Env.subjectRandom sampleEnv)
    /\ GETOcr keepUnit sampleEnv = Json ss (Some m)
    /\ In (SearchMetadata.subject m) subjects.
Proof.
  pose proof sample_GET as E. unfold sampleResponse in E.
  assert (unitInterval (Env.subjectRandom sampleEnv)) as Hr
    by (unfold unitInterval; cbn [fst snd sampleEnv Env.subjectRandom];
        split; [|split]; vm_compute; congruence).
  eexists. eexists. split; [exact Hr|]. split; [exact E|].
  exact (GET_subject_is_listed _ _ _ _ _ _ Hr E).
Defined.


Ltac record_cbn :=
  cbn [SearchMetadata.subject SearchMetadata.totalBooksAvailable
       SearchMetadata.totalBooksFound SearchMetadata.booksWithInternetArchive
       SearchMetadata.booksSelected SearchMetadata.booksProcessed
       SearchMetadata.booksSuccessful SearchMetadata.booksFailed
       SearchMetadata.totalSentencesExtracted SearchMetadata.bookDetails
       BookDetail.title BookDetail.author BookDetail.iaId BookDetail.status
       BookDetail.sentencesFound BookDetail.textLength BookDetail.positionInBook
       countFailure countSuccess countProcessed newDetail withTextLength
       initialMetadata].

Lemma picks_not_nil {T} (sorted : list T -> list T) array :
  rearranges sorted -> array <> [] ->
  (1 <= List.length (getRandomItems sorted array 2) <= 2)%nat.
Proof.
  intros H Ha. rewrite (getRandomItems_length _ _ _ H).
  destruct array; [congruence|]. cbn [List.length]. lia.
Qed.

Lemma processBook_detail gate ex env i book ss m ss' m' :
  rearranges (Env.shuffledSentences env i) ->
  processBook gate ex env i book (ss, m) = (ss', m') ->
  exists d,
    SearchMetadata.bookDetails m' = SearchMetadata.bookDetails m ++ [d]
    /\ wellFormedDetail d /\ detailLabel d = bookLabel book
    /\ (List.length (filter isSuccess [d]) + SearchMetadata.booksSuccessful m
        = SearchMetadata.booksSuccessful m')%nat
    /\ (BookDetail.sentencesFound d + SearchMetadata.totalSentencesExtracted m
        = SearchMetadata.totalSentencesExtracted m')%nat.
Proof.
  intros Hv H.
  destruct (processBook_cases gate ex env i book ss m)
    as [[_ E]|[(ft & _ & _ & E)|(ft & _ & _ & He & E)]];
    rewrite E in H; inversion H; subst; clear H E; record_cbn;
    (eexists; split; [reflexivity|]);
    unfold wellFormedDetail, detailLabel, bookLabel, isSuccess; cbn [filter];
    record_cbn; cbn [List.length].
  - repeat split; lia.
  - repeat split; lia.
  - pose proof (picks_not_nil _ _ Hv He).
    repeat split; lia.
Qed.

Lemma processBooks_details gate ex env :
  (forall i, rearranges (Env.shuffledSentences env i)) ->
  forall books i ss m ss' m',
  processBooks gate ex env i books (ss, m) = (ss', m') ->
  exists ds,
    SearchMetadata.bookDetails m' = SearchMetadata.bookDetails m ++ ds
    /\ Forall wellFormedDetail ds
    /\ map detailLabel ds = map bookLabel books
    /\ (List.length (filter isSuccess ds) + SearchMetadata.booksSuccessful m
        = SearchMetadata.booksSuccessful m')%nat
    /\ (list_sum (map BookDetail.sentencesFound ds)
        + SearchMetadata.totalSentencesExtracted m
        = SearchMetadata.totalSentencesExtracted m')%nat.
Proof.
  intros Hv.
  induction books as [|book rest IH]; intros i ss m ss' m' H; cbn [processBooks] in H.
  - inversion H; subst. exists []. rewrite app_nil_r. repeat split; constructor.
  - destruct (processBook gate ex env i book (ss, m)) as [ss1 m1] eqn:E.
    apply (processBook_detail _ _ _ _ _ _ _ _ _ (Hv i)) in E.
    destruct E as (d & E1 & E2 & E3 & E4 & E5).
    apply IH in H. destruct H as (ds & H1 & H2 & H3 & H4 & H5).
    exists (d :: ds). rewrite H1, E1, <- app_assoc.
    split; [reflexivity|]. split; [now constructor|].
    split; [cbn [map]; now rewrite E3, H3|].
    cbn [filter map List.length] in *. unfold list_sum in *.
    cbn [fold_right] in *.
    destruct (isSuccess d); cbn [List.length] in *; lia.
Qed.

(** X24.  In a successful answer there is one book detail for each selected
    book, in the order of the loop and with the title, author and
    identifier of the book.  A detail marked [success] reports one or two
    sentences and a position that begins with [Page]; a detail marked
    [no_sentences] or [failed] reports no sentence and the position
    [Unknown], and a [failed] one a text length of 0.  The details marked
    [success] are as many as [booksSuccessful], and their sentence counts
    add up to [totalSentencesExtracted]. *)
Theorem GET_book_details kb gate ex env ss m :
  validEnv env ->
  GET kb gate ex env = Json ss (Some m) ->
  Forall wellFormedDetail (SearchMetadata.bookDetails m)
  /\ (exists sd,
        Env.searchData env = Some sd
        /\ map detailLabel (SearchMetadata.bookDetails m)
           = map bookLabel (selectedBooks kb env sd))
  /\ List.length (filter isSuccess (SearchMetadata.bookDetails m))
     = SearchMetadata.booksSuccessful m
  /\ list_sum (map BookDetail.sentencesFound (SearchMetadata.bookDetails m))
     = SearchMetadata.totalSentencesExtracted m.
Proof.
  intros [_ Hv] H. apply GET_Json in H.
  destruct H as (sd & m0 & Hsd & Hm & _ & _ & H). inversion Hm; subst m0; clear Hm.
  apply (processBooks_details _ _ _ Hv) in H.
  destruct H as (ds & H1 & H2 & H3 & H4 & H5).
  cbn [initialMetadata SearchMetadata.bookDetails app] in H1. rewrite H1.
  cbn [initialMetadata SearchMetadata.booksSuccessful
       SearchMetadata.totalSentencesExtracted] in H4, H5.
  split; [assumption|]. split; [now exists sd|]. split; lia.
Qed.

Lemma GET_book_details_witness :
  exists ss m,
    validEnv sampleEnv
    /\ GETOcr keepUnit sampleEnv = Json ss (Some m)
    /\ Forall wellFormedDetail (SearchMetadata.bookDetails m).
Proof.
  pose proof sample_GET as E. unfold sampleResponse in E.
  eexists. eexists. split; [exact sample_valid|]. split; [exact E|].
  exact (proj1 (GET_book_details _ _ _ _ _ _ sample_valid E)).
Defined.

(** ** Where the sentences of the response come from *)

Lemma processBook_provenance gate ex env i book ss m ss' m' :
  rearranges (Env.shuffledSentences env i) ->
  processBook gate ex env i book (ss, m) = (ss', m') ->
  exists added,
    ss' = ss ++ added
    /\ Forall (comesFrom gate ex env [book] i) added
    /\ ((exists fullText,
           Env.fetched env i = FetchText fullText
           /\ gate fullText = true /\ ex fullText <> []) ->
        added <> []).
Proof.
  intros Hv H.
  destruct (processBook_cases gate ex env i book ss m)
    as [[Hf E]|[(ft & Hf & Hg & E)|(ft & Hf & Hg & He & E)]];
    rewrite E in H; inversion H; subst; clear H E.
  - exists []. rewrite app_nil_r. split; [reflexivity|]. split; [constructor|].
    intros (ft & Ht & _). destruct Hf; congruence.
  - exists []. rewrite app_nil_r. split; [reflexivity|]. split; [constructor|].
    intros (ft' & Ht & Hg' & He'). rewrite Hf in Ht. inversion Ht; subst.
    destruct Hg; congruence.
  - eexists. split; [reflexivity|]. split.
    + apply Forall_forall. intros s Hs. apply in_map_iff in Hs.
      destruct Hs as (t & <- & Ht). exists 0%nat, book, ft.
      rewrite Nat.add_0_r. repeat split; auto.
      cbn [sentenceOf Sentence.text]. eapply getRandomItems_In; eauto.
    + intros _ Hn. apply map_eq_nil in Hn.
      pose proof (picks_not_nil _ _ Hv He) as Hp. rewrite Hn in Hp.
      cbn [List.length] in Hp. lia.
Qed.

Lemma comesFrom_later gate ex env book rest i s :
  comesFrom gate ex env rest (S i) s -> comesFrom gate ex env (book :: rest) i s.
Proof.
  intros (j & b & ft & H1 & H2 & H3). exists (S j), b, ft.
  rewrite Nat.add_succ_r. auto.
Qed.

Lemma comesFrom_first gate ex env book rest i s :
  comesFrom gate ex env [book] i s -> comesFrom gate ex env (book :: rest) i s.
Proof.
  intros (j & b & ft & H1 & H2). exists j, b, ft. split; [|assumption].
  destruct j as [|j]; [assumption|]. destruct j; discriminate.
Qed.

Lemma processBooks_provenance gate ex env :
  (forall i, rearranges (Env.shuffledSentences env i)) ->
  forall books i ss m ss' m',
  processBooks gate ex env i books (ss, m) = (ss', m') ->
  exists added,
    ss' = ss ++ added
    /\ Forall (comesFrom gate ex env books i) added
    /\ ((exists j book fullText,
           nth_error books j = Some book
           /\ Env.fetched env (i + j) = FetchText fullText
           /\ gate fullText = true /\ ex fullText <> []) ->
        added <> []).
Proof.
  intros Hv.
  induction books as [|book rest IH]; intros i ss m ss' m' H; cbn [processBooks] in H.
  - inversion H; subst. exists []. rewrite app_nil_r.
    split; [reflexivity|]. split; [constructor|].
    intros (j & b & ft & Hn & _). destruct j; discriminate.
  - destruct (processBook gate ex env i book (ss, m)) as [ss1 m1] eqn:E.
    apply (processBook_provenance _ _ _ _ _ _ _ _ _ (Hv i)) in E.
    destruct E as (a1 & -> & F1 & N1).
    apply IH in H. destruct H as (a2 & -> & F2 & N2).
    exists (a1 ++ a2). rewrite app_assoc. split; [reflexivity|]. split.
    + apply Forall_app. split.
      * eapply Forall_impl; [|exact F1]. intros s. apply comesFrom_first.
      * eapply Forall_impl; [|exact F2]. intros s. apply comesFrom_later.
    + intros (j & b & ft & Hn & Hf & Hg & He) Hnil.
      apply app_eq_nil in Hnil. destruct Hnil as [Ha1 Ha2].
      destruct j as [|j].
      * apply N1; [|assumption]. exists ft. rewrite Nat.add_0_r in Hf. auto.
      * apply N2; [|assumption]. exists j, b, ft.
        rewrite Nat.add_succ_r in Hf. auto.
Qed.

Lemma selectedBooks_kept kb env sd :
  rearranges (Env.shuffledBooks env) ->
  Forall (fun book => In book (SearchResponse.docs sd) /\ kb book = true)
    (selectedBooks kb env sd).
Proof.
  intros Hv. apply Forall_forall. intros book Hb. unfold selectedBooks in Hb.
  apply (getRandomItems_In _ _ _ _ Hv) in Hb. unfold booksWithIA in Hb.
  now apply filter_In in Hb.
Qed.

(** X25.  Every sentence of a successful answer comes from one of the at
    most six selected books: the text of that book was downloaded, passed
    the language check of the revision, and the extractor returned the
    sentence from it; the entry carries the title, the author and the first
    archive identifier of the book.  Every selected book is a book of the
    search result that the book filter keeps. *)
Theorem GET_sentence_provenance kb gate ex env ss md :
  validEnv env ->
  GET kb gate ex env = Json ss md ->
  exists sd,
    Env.searchData env = Some sd
    /\ Forall (comesFrom gate ex env (selectedBooks kb env sd) 0) ss
    /\ Forall (fun book => In book (SearchResponse.docs sd) /\ kb book = true)
         (selectedBooks kb env sd)
    /\ (List.length (selectedBooks kb env sd) <= 6)%nat.
Proof.
  intros [Hb Hv] H. apply GET_Json in H.
  destruct H as (sd & m & Hsd & _ & _ & _ & H).
  apply (processBooks_provenance _ _ _ Hv) in H.
  destruct H as (added & -> & F & _). cbn [app].
  exists sd. split; [assumption|]. split; [assumption|].
  split; [now apply selectedBooks_kept | apply selectedBooks_length].
Qed.

Lemma GET_sentence_provenance_witness :
  exists ss md sd,
    validEnv sampleEnv
    /\ GETOcr keepUnit sampleEnv = Json ss md
    /\ Env.searchData sampleEnv = Some sd
    /\ Forall
         (comesFrom Ocr.GET.isLikelyEnglish (Ocr.extractSentences keepUnit) sampleEnv
            (selectedBooks (keepBookOcr keepUnit) sampleEnv sd) 0) ss.
Proof.
  pose proof sample_GET as E. unfold sampleResponse in E.
  destruct (GET_sentence_provenance _ _ _ _ _ _ sample_valid E) as (sd & H1 & H2 & _).
  eexists. eexists. exists sd.
  split; [exact sample_valid|]. split; [exact E|]. split; [exact H1 | exact H2].
Defined.

Lemma rearranges_nil {T} (sorted : list T -> list T) :
  rearranges sorted -> sorted [] = [].
Proof. intros H. apply Permutation_nil. apply H. Qed.

(** X28.  The handler answers with sentences exactly when the search
    answered and, for one of the selected books, the text was downloaded,
    passed the language check and gave at least one sentence; otherwise it
    answers with an error. *)
Theorem GET_succeeds_iff kb gate ex env :
  validEnv env ->
  ((exists ss md, GET kb gate ex env = Json ss md)
   <-> exists sd i book fullText,
         Env.searchData env = Some sd
         /\ nth_error (selectedBooks kb env sd) i = Some book
         /\ Env.fetched env i = FetchText fullText
         /\ gate fullText = true /\ ex fullText <> []).
Proof.
  intros [Hb Hv]. split.
  - intros (ss & md & H). apply GET_Json in H.
    destruct H as (sd & m & Hsd & _ & _ & Hne & H).
    apply (processBooks_provenance _ _ _ Hv) in H.
    destruct H as (added & -> & F & _). cbn [app] in *.
    destruct added as [|s rest]; [congruence|].
    inversion F as [|s' l (i & book & ft & Hn & Hf & Hg & Hin & _) _]. subst.
    exists sd, i, book, ft. repeat split; auto.
    intros He. now rewrite He in Hin.
  - intros (sd & i & book & ft & Hsd & Hn & Hf & Hg & He).
    unfold GET. rewrite Hsd.
    destruct (Nat.eqb_spec (List.length (booksWithIA kb sd)) 0) as [Hl|Hl].
    + apply length_zero_iff_nil in Hl. unfold selectedBooks, getRandomItems in Hn.
      rewrite Hl, (rearranges_nil _ Hb), firstn_nil in Hn. destruct i; discriminate.
    + destruct (processBooks gate ex env 0 (selectedBooks kb env sd)
                  ([], initialMetadata kb env sd)) as [ss m] eqn:E.
      apply (processBooks_provenance _ _ _ Hv) in E.
      destruct E as (added & -> & _ & N). cbn [app fst snd].
      assert (added <> []) as Ha by (apply N; exists i, book, ft; auto).
      destruct added as [|s rest]; [congruence|]. cbn [List.length Nat.eqb].
      eauto.
Qed.

Lemma GET_succeeds_iff_witness :
  validEnv sampleEnv
  /\ exists sd i book fullText,
       Env.searchData sampleEnv = Some sd
       /\ nth_error (selectedBooks (keepBookOcr keepUnit) sampleEnv sd) i = Some book
       /\ Env.fetched sampleEnv i = FetchText fullText
       /\ Ocr.GET.isLikelyEnglish fullText = true
       /\ Ocr.extractSentences keepUnit fullText <> [].
Proof.
  split; [exact sample_valid|].
  apply (proj1 (GET_succeeds_iff (keepBookOcr keepUnit) Ocr.GET.isLikelyEnglish
                  (Ocr.extractSentences keepUnit) sampleEnv sample_valid)).
  pose proof sample_GET as E. unfold sampleResponse in E.
  eexists. eexists. exact E.
Defined.

(** ** The first revision's handler *)

Lemma processBookEarly_fst ex env i book ss m :
  processBookEarly ex env i book ss
  = fst (processBook (fun _ => true) ex env i book (ss, m)).
Proof.
  unfold processBookEarly, processBook. cbn [fst snd negb].
  destruct (Env.fetched env i) as [| |ft]; try reflexivity.
  now destruct (Nat.eqb (List.length (ex ft)) 0).
Qed.

Lemma processBooksEarly_fst ex env : forall books i ss m,
  processBooksEarly ex env i books ss
  = fst (processBooks (fun _ => true) ex env i books (ss, m)).
Proof.
  induction books as [|book rest IH]; intros i ss m;
    cbn [processBooksEarly processBooks]; [reflexivity|].
  rewrite (processBookEarly_fst ex env i book ss m).
  destruct (processBook (fun _ => true) ex env i book (ss, m)) as [ss1 m1].
  apply IH.
Qed.

Lemma GETEarly_GET ex env :
  GETEarly ex env
  = match GET keepBookEarly (fun _ => true) ex env with
    | Json sentences _ => Json sentences None
    | ErrorJson error status => ErrorJson error status
    end.
Proof.
  unfold GETEarly, GET. destruct (Env.searchData env) as [sd|]; [|reflexivity].
  change (filter keepBookEarly (SearchResponse.docs sd))
    with (booksWithIA keepBookEarly sd).
  destruct (Nat.eqb (List.length (booksWithIA keepBookEarly sd)) 0); [reflexivity|].
  cbv zeta.
  change (getRandomItems (Env.shuffledBooks env) (booksWithIA keepBookEarly sd)
            (Nat.min 6 (List.length (booksWithIA keepBookEarly sd))))
    with (selectedBooks keepBookEarly env sd).
  rewrite (processBooksEarly_fst ex env _ _ _ (initialMetadata keepBookEarly env sd)).
  now destruct (Nat.eqb _ 0).
Qed.

(** X29.  The handler of the first revision answers as the handler of the
    later revisions does when it is run with the first revision's book
    filter and extractor and a language check that lets every text pass:
    the same error, or the same sentences in the same order, with the
    metadata left out. *)
Theorem GETFirst_is_GET_without_gate u env :
  GETFirst u env
  = match GET keepBookEarly (fun _ => true) (Early.extractSentences u) env with
    | Json sentences _ => Json sentences None
    | ErrorJson error status => ErrorJson error status
    end.
Proof. apply GETEarly_GET. Qed.

Lemma GETFirst_Json u env ss md :
  GETFirst u env = Json ss md ->
  exists m, GET keepBookEarly (fun _ => true) (Early.extractSentences u) env
            = Json ss (Some m).
Proof.
  unfold GETFirst. rewrite GETEarly_GET.
  destruct (GET keepBookEarly _ _ env) as [ss' md'|] eqn:E; [|discriminate].
  intros H. inversion H; subst.
  destruct (GET_Json _ _ _ _ _ _ E) as (sd & m & _ & -> & _). now exists m.
Qed.

Lemma GET_size kb gate ex env ss md :
  GET kb gate ex env = Json ss md -> (1 <= List.length ss <= 12)%nat.
Proof.
  intros H. destruct (GET_Json _ _ _ _ _ _ H) as (sd & m & _ & -> & _ & Hs & Hp).
  apply processBooks_advanced in Hp. unfold advanced in Hp. record_cbn.
  cbn [SearchMetadata.subject SearchMetadata.totalBooksAvailable
       SearchMetadata.totalBooksFound SearchMetadata.booksWithInternetArchive
       SearchMetadata.booksSelected SearchMetadata.booksProcessed
       SearchMetadata.booksSuccessful SearchMetadata.booksFailed
       SearchMetadata.totalSentencesExtracted SearchMetadata.bookDetails
       initialMetadata List.length] in Hp.
  destruct Hp as (_ & _ & _ & _ & _ & Hp).
  pose proof (selectedBooks_length kb env sd).
  assert (List.length ss <> 0)%nat by (now destruct ss).
  lia.
Qed.

(** X27.  In each of the three revisions a successful answer holds between 1
    and 12 sentences: at most six books are read and each gives at most
    two. *)
Theorem response_size u env ss md :
  GETOcr u env = Json ss md \/ GETMarkup u env = Json ss md
  \/ GETFirst u env = Json ss md ->
  (1 <= List.length ss <= 12)%nat.
Proof.
  intros [H|[H|H]].
  - exact (GET_size _ _ _ _ _ _ H).
  - exact (GET_size _ _ _ _ _ _ H).
  - apply GETFirst_Json in H. destruct H as [m H]. exact (GET_size _ _ _ _ _ _ H).
Qed.

Lemma response_size_witness :
  exists ss md,
    GETOcr keepUnit sampleEnv = Json ss md /\ (1 <= List.length ss <= 12)%nat.
Proof.
  pose proof sample_GET as E. unfold sampleResponse in E.
  eexists. eexists. split; [exact E|].
  exact (response_size keepUnit sampleEnv _ _ (or_introl E)).
Defined.

(** ** The sentences of the response *)

Lemma GET_sentences_from_extractor kb gate ex env ss md (P : str -> Prop) :
  validEnv env ->
  (forall fullText, Forall P (ex fullText)) ->
  GET kb gate ex env = Json ss md ->
  Forall (fun s => P (Sentence.text s)) ss.
Proof.
  intros [_ Hv] HP H. apply GET_Json in H.
  destruct H as (sd & m & _ & _ & _ & _ & H).
  apply (processBooks_provenance _ _ _ Hv) in H.
  destruct H as (added & -> & F & _). cbn [app].
  eapply Forall_impl; [|exact F].
  intros s (i & book & ft & _ & _ & _ & Hin & _).
  specialize (HP ft). rewrite Forall_forall in HP. now apply HP.
Qed.

Lemma Forall_both {A} (P Q : A -> Prop) l :
  Forall P l -> Forall Q l -> Forall (fun x => P x /\ Q x) l.
Proof. intros HP HQ. apply Forall_and; assumption. Qed.

Lemma Ocr_sentences u t :
  Forall
    (fun s =>
       (trim s = s /\ (15 <= List.length s <= 600)%nat /\ densityAbove 3 10 s)
       /\ cleanSentence s = true /\ ~ In 44 s /\ ~ In 39 s /\ ~ In 34 s)
    (Ocr.extractSentences u t).
Proof.
  apply Forall_both; [|apply cleaned_sentences].
  apply filter_map_trim_Forall. intros s Ha Ht.
  apply Ocr_accept_sound in Ha. unfold densityAbove. tauto.
Qed.

Lemma Markup_sentences u t :
  Forall
    (fun s =>
       (trim s = s /\ (15 <= List.length s <= 600)%nat /\ densityAbove 3 10 s)
       /\ cleanSentence s = true /\ ~ In 44 s /\ ~ In 39 s /\ ~ In 34 s)
    (Markup.extractSentences u t).
Proof.
  apply Forall_both; [|apply cleaned_sentences].
  apply filter_map_trim_Forall. intros s Ha Ht.
  apply Markup_accept_sound in Ha. unfold densityAbove. tauto.
Qed.

Lemma Early_sentences u t :
  Forall
    (fun s => trim s = s /\ (20 <= List.length s <= 500)%nat /\ hasLetterRun s = true)
    (Early.extractSentences u t).
Proof.
  apply filter_map_trim_Forall. intros s Ha Ht.
  apply Early_accept_sound in Ha. tauto.
Qed.

(** X26.  What the extractor guarantees of its sentences reaches the
    response.  In the OCR and markup revisions every sentence sent is
    trimmed, has between 15 and 600 units and a letter density above 0.3,
    and consists of ASCII word characters, single spaces and [.!?], with no
    comma, apostrophe or double quote; in the first revision every sentence
    sent is trimmed, has between 20 and 500 units and three letters in a
    row. *)
Theorem response_sentences u env ss md :
  validEnv env ->
  (GETOcr u env = Json ss md \/ GETMarkup u env = Json ss md ->
   Forall
     (fun s =>
        (trim (Sentence.text s) = Sentence.text s
         /\ (15 <= List.length (Sentence.text s) <= 600)%nat
         /\ densityAbove 3 10 (Sentence.text s))
        /\ cleanSentence (Sentence.text s) = true
        /\ ~ In 44 (Sentence.text s) /\ ~ In 39 (Sentence.text s)
        /\ ~ In 34 (Sentence.text s))
     ss)
  /\ (GETFirst u env = Json ss md ->
      Forall
        (fun s =>
           trim (Sentence.text s) = Sentence.text s
           /\ (20 <= List.length (Sentence.text s) <= 500)%nat
           /\ hasLetterRun (Sentence.text s) = true)
        ss).
Proof.
  intros Hv. split.
  - intros [H|H].
    + exact (GET_sentences_from_extractor _ _ _ _ _ _ _ Hv (Ocr_sentences u) H).
    + exact (GET_sentences_from_extractor _ _ _ _ _ _ _ Hv (Markup_sentences u) H).
  - intros H. apply GETFirst_Json in H. destruct H as [m H].
    exact (GET_sentences_from_extractor _ _ _ _ _ _ _ Hv (Early_sentences u) H).
Qed.

Lemma response_sentences_witness :
  exists ss md,
    validEnv sampleEnv
    /\ GETOcr keepUnit sampleEnv = Json ss md
    /\ Forall (fun s => cleanSentence (Sentence.text s) = true) ss.
Proof.
  pose proof sample_GET as E. unfold sampleResponse in E.
  eexists. eexists. split; [exact sample_valid|]. split; [exact E|].
  eapply Forall_impl;
    [|exact (proj1 (response_sentences keepUnit sampleEnv _ _ sample_valid)
               (or_introl E))].
  intros s H. exact (proj1 (proj2 H)).
Defined.
